(** * videogrep: the search-to-composition pipeline

    A shallow embedding of [videogrep/videogrep.py].  Python [str] values are
    [string]s whose characters stand for code points below 256; Python floats
    are the IEEE 754 binary64 values of [float], every operation of the
    source ([+], [-], [/ 1000.0], [<]) rounding to the nearest value, ties to
    even, as the interpreter does; Python ints are in [Z]; the segment dicts
    of a composition live in a store and a composition is a list of
    references into it, because the source updates them in place. *)

From Stdlib Require Import ZArith Lia Ascii String DecimalString DecimalNat Floats.
From stdpp Require Import base option list strings gmap.

#[global] Arguments String.append : simpl nomatch.
Open Scope string_scope.
Open Scope list_scope.

(** ** Python string methods used by the module *)

Module Str.

Definition LF : ascii := "010"%char.
Definition CR : ascii := "013"%char.

(** [str.isspace] on one character (code points below 256). *)
Definition is_space (c : ascii) : bool :=
  let n := nat_of_ascii c in
  (((9 <=? n) && (n <=? 13)) || ((28 <=? n) && (n <=? 32))
   || (n =? 133) || (n =? 160))%nat.

(** [\d] of the [re] module, on code points below 256. *)
Definition is_digit (c : ascii) : bool :=
  let n := nat_of_ascii c in ((48 <=? n) && (n <=? 57))%nat.

(** Line boundaries recognised by [str.splitlines]. *)
Definition is_linebreak (c : ascii) : bool :=
  let n := nat_of_ascii c in
  (((10 <=? n) && (n <=? 13)) || ((28 <=? n) && (n <=? 30)) || (n =? 133))%nat.

Fixpoint lstrip (s : string) : string :=
  match s with
  | String c s' => if is_space c then lstrip s' else s
  | EmptyString => EmptyString
  end.

Fixpoint rstrip (s : string) : string :=
  match s with
  | String c s' =>
      match rstrip s' with
      | EmptyString => if is_space c then EmptyString else String c EmptyString
      | r => String c r
      end
  | EmptyString => EmptyString
  end.

(** [s.strip()] *)
Definition strip (s : string) : string := rstrip (lstrip s).

(** [s.find(sub) > -1] *)
Fixpoint contains (sub s : string) : bool :=
  String.prefix sub s ||
  match s with
  | String _ s' => contains sub s'
  | EmptyString => false
  end.

(** [s.split(sep)] for a non-empty separator: [skip] counts the characters
    of a separator occurrence that are still to be passed over; the head of
    the result is the piece under construction. *)
Fixpoint split_go (sep : string) (skip : nat) (s : string) : list string :=
  match s with
  | EmptyString => [EmptyString]
  | String c s' =>
      match skip with
      | S k => split_go sep k s'
      | O =>
          if String.prefix sep s then EmptyString :: split_go sep (String.length sep - 1) s'
          else match split_go sep 0 s' with
               | p :: ps => String c p :: ps
               | [] => [String c EmptyString]
               end
      end
  end.

Definition split (sep s : string) : list string := split_go sep 0 s.

(** [s.replace(old, new)] for a non-empty [old]. *)
Fixpoint replace_go (old new : string) (skip : nat) (s : string) : string :=
  match s with
  | EmptyString => EmptyString
  | String c s' =>
      match skip with
      | S k => replace_go old new k s'
      | O =>
          if String.prefix old s then new +:+ replace_go old new (String.length old - 1) s'
          else String c (replace_go old new 0 s')
      end
  end.

Definition replace (old new s : string) : string := replace_go old new 0 s.

(** [sep.join(parts)] *)
Definition join (sep : string) (parts : list string) : string :=
  String.concat sep parts.

(** [s.splitlines()]: the head of the result is the line under construction;
    a carriage return directly followed by a line feed is one boundary. *)
Fixpoint splitlines (s : string) : list string :=
  match s with
  | EmptyString => []
  | String c s' =>
      if is_linebreak c then
        match s' with
        | String d s'' =>
            if Ascii.eqb c CR && Ascii.eqb d LF
            then EmptyString :: splitlines s''
            else EmptyString :: splitlines s'
        | EmptyString => [EmptyString]
        end
      else match splitlines s' with
           | l :: ls => String c l :: ls
           | [] => [String c EmptyString]
           end
  end.

(** Text mode of [open(path, 'r')]: universal newlines turn [\r\n] and a
    lone [\r] into [\n] while reading. *)
Fixpoint universal_newlines (s : string) : string :=
  match s with
  | EmptyString => EmptyString
  | String c s' =>
      if Ascii.eqb c CR then
        match s' with
        | String d s'' =>
            if Ascii.eqb d LF then String LF (universal_newlines s'')
            else String LF (universal_newlines s')
        | EmptyString => String LF EmptyString
        end
      else String c (universal_newlines s')
  end.

(** Length of a match of [\d+[\n\r]] at the start of [s], if there is one. *)
Fixpoint index_match (seen : bool) (s : string) : option nat :=
  match s with
  | EmptyString => None
  | String c s' =>
      if is_digit c then S <$> index_match true s'
      else if seen && (Ascii.eqb c LF || Ascii.eqb c CR) then Some 1
      else None
  end.

(** [^] under [re.MULTILINE]: start of the text or just after a line feed. *)
Definition at_bol (prev : option ascii) : bool :=
  match prev with
  | None => true
  | Some p => Ascii.eqb p LF
  end.

(** [re.sub(r'^\d+[\n\r]', '', text, flags=re.MULTILINE)]: [prev] is the
    character before the current position, [skip] the rest of a match. *)
Fixpoint sub_index_go (prev : option ascii) (skip : nat) (s : string) : string :=
  match s with
  | EmptyString => EmptyString
  | String c s' =>
      match skip with
      | S k => sub_index_go (Some c) k s'
      | O =>
          if at_bol prev then
            match index_match false s with
            | Some n => sub_index_go (Some c) (n - 1) s'
            | None => String c (sub_index_go (Some c) 0 s')
            end
          else String c (sub_index_go (Some c) 0 s')
      end
  end.

Definition sub_index (text : string) : string := sub_index_go None 0 text.

End Str.

(** ** Exceptions and results *)

Inductive Exn : Type :=
  | ValueError
  | TypeError
  | KeyError
  | IndexError
  | FileNotFoundError
  | UnicodeDecodeError
  | OverflowError
  | ReError
  | ToolkitError
  | SystemExit (code : Z).

Inductive result (A : Type) : Type :=
  | Ok (a : A)
  | Raise (e : Exn).
Arguments Ok {A} a.
Arguments Raise {A} e.

Definition rbind {A B} (r : result A) (k : A -> result B) : result B :=
  match r with
  | Ok a => k a
  | Raise e => Raise e
  end.

Definition of_option {A} (e : Exn) (o : option A) : result A :=
  match o with
  | Some a => Ok a
  | None => Raise e
  end.

(** ** Number literals and floats *)

(** [s.lower()], on ASCII letters *)
Definition lower_char (c : ascii) : ascii :=
  let n := nat_of_ascii c in
  if ((65 <=? n) && (n <=? 90))%nat then ascii_of_nat (n + 32) else c.

Fixpoint lower (s : string) : string :=
  match s with
  | EmptyString => EmptyString
  | String c s' => String (lower_char c) (lower s')
  end.

Fixpoint digits_value (acc : Z) (s : string) : option Z :=
  match s with
  | EmptyString => Some acc
  | String c s' =>
      if Str.is_digit c
      then digits_value (10 * acc + (Z.of_nat (nat_of_ascii c) - 48)) s'
      else None
  end.

(** The whitespace that [int()] and [float()] pass over at both ends of a
    literal: the ASCII whitespace and, of the code points from 127 on, those
    that are whitespace.  The separators 28 to 31, which [str.strip] removes,
    are not passed over. *)
Definition is_literal_space (c : ascii) : bool :=
  let n := nat_of_ascii c in
  (((9 <=? n) && (n <=? 13)) || (n =? 32) || (n =? 133) || (n =? 160))%nat.

Fixpoint lstrip_by (p : ascii -> bool) (s : string) : string :=
  match s with
  | String c s' => if p c then lstrip_by p s' else s
  | EmptyString => EmptyString
  end.

Fixpoint rstrip_by (p : ascii -> bool) (s : string) : string :=
  match s with
  | String c s' =>
      match rstrip_by p s' with
      | EmptyString => if p c then EmptyString else String c EmptyString
      | r => String c r
      end
  | EmptyString => EmptyString
  end.

Definition literal_strip (s : string) : string :=
  rstrip_by is_literal_space (lstrip_by is_literal_space s).

(** Digit groups: every underscore stands between two digits. *)
Fixpoint grouped (prev : option ascii) (s : string) : bool :=
  match s with
  | EmptyString => true
  | String c s' =>
      (if Ascii.eqb c "_"
       then match prev, s' with
            | Some p, String n _ => Str.is_digit p && Str.is_digit n
            | _, _ => false
            end
       else true) && grouped (Some c) s'
  end.

Fixpoint ungroup (s : string) : string :=
  match s with
  | EmptyString => EmptyString
  | String c s' => if Ascii.eqb c "_" then ungroup s' else String c (ungroup s')
  end.

(** An optional sign, and what follows it. *)
Definition signed (s : string) : bool * string :=
  match s with
  | String c rest =>
      if Ascii.eqb c "-" then (true, rest)
      else if Ascii.eqb c "+" then (false, rest)
      else (false, s)
  | EmptyString => (false, s)
  end.

(** [sys.int_max_str_digits], at its default: a literal of more digits is
    not converted. *)
Definition int_max_str_digits : nat := 4300.

(** [int(s)] for a string: whitespace, an optional sign, decimal digits in
    groups; [None] stands for [ValueError]. *)
Definition py_int (s : string) : option Z :=
  let s := literal_strip s in
  if grouped None s then
    let '(negative, digits) := signed (ungroup s) in
    match digits with
    | EmptyString => None
    | _ =>
        if (int_max_str_digits <? String.length digits)%nat then None
        else (fun n => if negative then (- n)%Z else n) <$> digits_value 0 digits
    end
  else None.

(** The float nearest to an integer, ties to even; [infinity] from
    [2^1024 - 2^970] on. *)
Definition float_of_Z (z : Z) : float :=
  SF2Prim (binary_normalize prec emax z 0 false).

(** An int where a float is needed, as in [int + float]: an int that is too
    large for a float is an [OverflowError]. *)
Definition float_of_int (z : Z) : result float :=
  let x := float_of_Z z in
  if is_infinity x then Raise OverflowError else Ok x.

(** The float nearest to [p / q] for [0 < p] and [0 < q], ties to even: the
    quotient is taken to 55 bits or more, and one more bit records whether
    anything was left over. *)
Definition float_of_ratio (p q : Z) : float :=
  let k := Z.max 0 (Z.log2 q + 56 - Z.log2 p) in
  let n := (p * 2 ^ k)%Z in
  let sticky := if (n mod q =? 0)%Z then 0%Z else 1%Z in
  SF2Prim (binary_normalize prec emax (2 * (n / q) + sticky) (- k - 1) false).

(** The float written [m * 10^e], for [0 <= m]. *)
Definition float_of_decimal (m e : Z) : float :=
  if (m =? 0)%Z then 0%float
  else if (0 <=? e)%Z then float_of_Z (m * 10 ^ e)
  else float_of_ratio m (10 ^ (- e)).

(** The longest run of digits at the start of [s], and the rest. *)
Fixpoint digit_run (s : string) : string * string :=
  match s with
  | String c s' =>
      if Str.is_digit c then let '(d, r) := digit_run s' in (String c d, r)
      else (EmptyString, s)
  | EmptyString => (EmptyString, EmptyString)
  end.

(** The exponent part of a float literal: nothing, or [e] or [E], an
    optional sign and digits. *)
Definition exponent (s : string) : option Z :=
  match s with
  | EmptyString => Some 0%Z
  | String c rest =>
      if Ascii.eqb c "e" || Ascii.eqb c "E" then
        let '(negative, digits) := signed rest in
        match digits with
        | EmptyString => None
        | _ => (fun n => if negative then (- n)%Z else n) <$> digits_value 0 digits
        end
      else None
  end.

(** [float(s)] for a string: whitespace, an optional sign, then [inf],
    [infinity] or [nan] in any case, or digits with an optional point and an
    optional exponent, the digits in groups; the value is rounded to the
    nearest float and a literal beyond the range gives [inf].  [None] stands
    for [ValueError]. *)
Definition py_float (s : string) : option float :=
  let s := literal_strip s in
  if grouped None s then
    let '(negative, body) := signed (ungroup s) in
    let sign (x : float) := if negative then (- x)%float else x in
    let word := lower body in
    if String.eqb word "inf" || String.eqb word "infinity" then Some (sign infinity)
    else if String.eqb word "nan" then Some nan
    else
      let '(whole, rest) := digit_run body in
      let '(fraction, rest) :=
        match rest with
        | String c rest' => if Ascii.eqb c "." then digit_run rest' else (EmptyString, rest)
        | EmptyString => (EmptyString, rest)
        end in
      match whole +:+ fraction with
      | EmptyString => None
      | digits =>
          m ← digits_value 0 digits;
          e ← exponent rest;
          Some (sign (float_of_decimal m (e - Z.of_nat (String.length fraction))))
      end
  else None.

(** A value handed to [float()]: a string, an int or a float. *)
Inductive Scalar : Type :=
  | SStr (s : string)
  | SInt (z : Z)
  | SFloat (x : float).

(** [float(v)] *)
Definition float_of (v : Scalar) : result float :=
  match v with
  | SStr s => of_option ValueError (py_float s)
  | SInt z => float_of_int z
  | SFloat x => Ok x
  end.

(** ** Timestamps *)

(** [convert_timestamp]: an srt timestamp [HH:MM:SS,mmm] into seconds; the
    three ints are added up as ints, and their sum is turned into a float
    to take the milliseconds. *)
Definition convert_timestamp (timestamp : string) : result float :=
  let timestamp := Str.strip timestamp in
  match Str.split "," timestamp with
  | [chunk; millis] =>
      match Str.split ":" chunk with
      | [hours; minutes; seconds] =>
          rbind (of_option ValueError (py_int hours)) (fun hours =>
          rbind (of_option ValueError (py_int minutes)) (fun minutes =>
          rbind (of_option ValueError (py_int seconds)) (fun seconds =>
          rbind (of_option ValueError (py_float millis)) (fun millis =>
          rbind (float_of_int (seconds + hours * 60 * 60 + minutes * 60)) (fun whole =>
          Ok (whole + millis / 1000)%float)))))
      | _ => Raise ValueError
      end
  | _ => Raise ValueError
  end.

(** [convert_timespan]: an srt timespan into a start and an end. *)
Definition convert_timespan (timespan : string) : result (float * float) :=
  match Str.split "-->" timespan with
  | [start; end_] =>
      rbind (convert_timestamp start) (fun start =>
      rbind (convert_timestamp end_) (fun end_ =>
      Ok (start, end_)))
  | _ => Raise ValueError
  end.

(** ** The cue dictionary of [clean_srt]

    An [OrderedDict] from timespan lines to text: an association list in
    insertion order; assigning to a key that is present keeps its place. *)

Module OD.

Definition t := list (string * string).

Fixpoint get (key : string) (d : t) : option string :=
  match d with
  | [] => None
  | (k, v) :: d' => if String.eqb k key then Some v else get key d'
  end.

Fixpoint set (key value : string) (d : t) : t :=
  match d with
  | [] => [(key, value)]
  | (k, v) :: d' =>
      if String.eqb k key then (k, value) :: d' else (k, v) :: set key value d'
  end.

Definition keys (d : t) : list string := d.*1.

End OD.

(** The loop of [clean_srt] over the lines of the text. *)
Fixpoint clean_lines (lines : list string) (key : string) (output : OD.t)
  : result OD.t :=
  match lines with
  | [] => Ok output
  | line :: lines =>
      let line := Str.strip line in
      if Str.contains "-->" line then
        clean_lines lines line (OD.set line "" output)
      else if negb (String.eqb key "") then
        match OD.get key output with
        | Some old => clean_lines lines key (OD.set key (old +:+ line +:+ " ") output)
        | None => Raise KeyError
        end
      else clean_lines lines key output
  end.

(** [clean_srt] after the file has been read. *)
Definition clean_srt_text (text : string) : result OD.t :=
  let text := Str.sub_index text in
  let lines := Str.splitlines text in
  clean_lines lines "" [].

Definition nl : string := String Str.LF EmptyString.

(** ** Segments, the store and the world *)

(** The dict of one match: [{'file', 'time', 'start', 'end', 'line'}].
    Only the subtitle composer sets ['time']; ['words'] is an entry of the
    dicts that [audiogrep.search] builds, which have no ['line'] of their
    own until [compose_from_transcript] sets it: there [line] is whatever
    the library left. *)
Record Segment : Type := mkSegment {
  file : string;
  time : option string;
  start : float;
  end_ : float;
  line : string;
  words : option string
}.

Arguments mkSegment _ _ _%_float _%_float _ _.

Definition set_start (x : float) (c : Segment) : Segment :=
  mkSegment (file c) (time c) x (end_ c) (line c) (words c).
Definition set_end (x : float) (c : Segment) : Segment :=
  mkSegment (file c) (time c) (start c) x (line c) (words c).
Definition set_file (f : string) (c : Segment) : Segment :=
  mkSegment f (time c) (start c) (end_ c) (line c) (words c).
Definition set_line (l : string) (c : Segment) : Segment :=
  mkSegment (file c) (time c) (start c) (end_ c) l (words c).

(** A clip handed to the media toolkit: source file, start, end. *)
Definition Clip : Type := string * float * float.

(** Calls into the media toolkit, the timeline library and [os]. *)
Inductive ToolkitCall : Type :=
  (** [VideoFileClip(f)] for each name *)
  | OpenClips (names : list string)
  (** [.subclip(start, end)] for each clip *)
  | Subclips (clips : list Clip)
  (** [concatenate(clips)] *)
  | Concatenate (clips : list Clip)
  (** [.to_videofile(outputfile, ...)] of the concatenation of the clips *)
  | ToVideofile (outputfile : string) (clips : list Clip)
  (** opening, joining and writing the batch files as one video *)
  | JoinFiles (outputfile : string) (parts : list string)
  (** building the timeline of [(name, target, fps, file duration, time in,
      duration)] clips and writing it *)
  | Timeline (name : string) (rows : list (string * string * float * float * float * float))
  (** [os.remove(path)] *)
  | RemoveFile (path : string)
  (** [cleanup_log_files(outputfile)] *)
  | CleanupLogs (outputfile : string).

Inductive Event : Type :=
  | Print (s : string)
  | Called (c : ToolkitCall).

(** What is stored under a path: characters that [open(path, 'r').read()]
    gives back, or bytes that do not decode in the encoding of the locale. *)
Inductive Stored : Type :=
  | Text (s : string)
  | Undecodable.

(** References to segment dicts are positions in [heap]; [files] maps the
    path of a file to what is stored under it; [entropy] feeds [random]. *)
Record World : Type := mkWorld {
  heap : list Segment;
  files : gmap string Stored;
  trace : list Event;
  entropy : list nat
}.

Abbreviation loc := nat (only parsing).

Definition M (A : Type) : Type := World -> result A * World.

Definition ret {A} (a : A) : M A := fun w => (Ok a, w).
Definition raise {A} (e : Exn) : M A := fun w => (Raise e, w).
Definition bind {A B} (m : M A) (k : A -> M B) : M B :=
  fun w => match m w with
           | (Ok a, w') => k a w'
           | (Raise e, w') => (Raise e, w')
           end.
Definition lift {A} (r : result A) : M A := fun w => (r, w).

Notation "'let!' x ':=' m 'in' k" := (bind m (fun x => k))
  (at level 10, x pattern, m at level 100, k at level 200).
Notation "m '>>' k" := (bind m (fun _ => k))
  (at level 90, right associativity).

(** [try: body except: handler] with a bare [except]. *)
Definition try_except {A} (body handler : M A) : M A :=
  fun w => match body w with
           | (Ok a, w') => (Ok a, w')
           | (Raise _, w') => handler w'
           end.

(** [for x in xs: state = body x state] *)
Fixpoint for_each {A S} (xs : list A) (body : A -> S -> M S) (s : S) : M S :=
  match xs with
  | [] => ret s
  | x :: xs => let! s' := body x s in for_each xs body s'
  end.

Definition for_each_ {A} (xs : list A) (body : A -> M unit) : M unit :=
  for_each xs (fun x _ => body x) tt.

Definition print (s : string) : M unit :=
  fun w => (Ok tt, mkWorld (heap w) (files w) (trace w ++ [Print s]) (entropy w)).

Definition emit (c : ToolkitCall) : M unit :=
  fun w => (Ok tt, mkWorld (heap w) (files w) (trace w ++ [Called c]) (entropy w)).

(** A dict literal: a fresh object in the store. *)
Definition alloc (c : Segment) : M loc :=
  fun w => (Ok (length (heap w)),
            mkWorld (heap w ++ [c]) (files w) (trace w) (entropy w)).

(** Dicts built by a library enter the store as they are; the result is the
    position of the first of them. *)
Definition adopt (ds : list Segment) : M loc :=
  fun w => (Ok (length (heap w)),
            mkWorld (heap w ++ ds) (files w) (trace w) (entropy w)).

Definition read (l : loc) : M Segment :=
  fun w => match heap w !! l with
           | Some c => (Ok c, w)
           | None => (Raise KeyError, w)
           end.

Definition update (l : loc) (f : Segment -> Segment) : M unit :=
  fun w => match heap w !! l with
           | Some c => (Ok tt, mkWorld (<[l := f c]> (heap w)) (files w) (trace w) (entropy w))
           | None => (Raise KeyError, w)
           end.

(** [os.path.isfile] *)
Definition isfile (path : string) : M bool :=
  fun w => (Ok (bool_decide (is_Some (files w !! path))), w).

(** [open(path, 'r').read()] *)
Definition read_text (path : string) : M string :=
  fun w => match files w !! path with
           | Some (Text s) => (Ok (Str.universal_newlines s), w)
           | Some Undecodable => (Raise UnicodeDecodeError, w)
           | None => (Raise FileNotFoundError, w)
           end.

(** [open(path, 'w').write(text)] *)
Definition write_text (path text : string) : M unit :=
  fun w => (Ok tt, mkWorld (heap w) (<[path := Text text]> (files w)) (trace w) (entropy w)).

(** [clean_srt] *)
Definition clean_srt (srt : string) : M OD.t :=
  let! text := read_text srt in
  lift (clean_srt_text text).

(** ** What the module imports

    The libraries [re], [audiogrep], [glob], the [ffmpeg] and [ffprobe]
    probes, the media toolkit and number formatting, and the package's own
    modules [timecode], [vtt] and [searcher], are used through their
    interfaces. *)

(** A value returned by a search: only its truth value is looked at. *)
Inductive PyVal : Type :=
  | PyNone
  | PyMatch
  | PyOther (truthy : bool).

Definition truth (v : PyVal) : bool :=
  match v with
  | PyNone => false
  | PyMatch => true
  | PyOther b => b
  end.

Record Externals : Type := mkExternals {
  (** [re.search(pattern, text)] finds a match ([true]), finds none, or
      raises on a bad pattern *)
  re_search : string -> string -> result bool;
  (** [searcher.search_out(line, search)] *)
  search_out : string -> string -> result PyVal;
  (** [searcher.hypernym_search(line, search)] *)
  hypernym_search : string -> string -> result PyVal;
  (** [audiogrep.search(search, files, mode=..., regex=True)]: the dicts
      that the library builds, with their ['file'], ['words'], ['start'] and
      ['end'], and the list it returns, each element by the position of its
      dict among them (a dict may be listed more than once) *)
  audiogrep_search : string -> list string -> string -> result (list Segment * list nat);
  (** [audiogrep.convert_timestamps(files)]: per sentence its file and
      its words, each with what it gives as start and as end *)
  audiogrep_convert_timestamps :
    list string -> result (list (string * list (string * Scalar * Scalar)));
  (** [parse_auto_sub(text)] of the vtt module: per sentence its text, start,
      end and timed words *)
  parse_auto_sub : string -> result (list (string * float * float * list (string * float * float)));
  (** [glob(pattern)] *)
  glob : string -> list string;
  (** the frame rate in the [ffmpeg -i] report, when it shows one *)
  probe_fps : string -> option float;
  (** the [ffprobe] report on the duration and its value as a float, when
      it reads as one *)
  probe_duration : string -> string * option float;
  (** [str(Timecode(fps, start_seconds=t))] *)
  Timecode : float -> float -> string;
  (** ["{:.2f}".format(x)] *)
  format_2f : float -> string;
  (** whether a call into the media toolkit goes through *)
  toolkit_ok : ToolkitCall -> bool
}.

Definition usable_extensions : list string := ["mp4"; "avi"; "mov"; "mkv"; "m4v"].
Definition BATCH_SIZE : nat := 20.

Section Search.

Variable X : Externals.

(** [search_line]: falls off the end, hence [None], for any other type. *)
Definition search_line (line search searchtype : string) : result PyVal :=
  if String.eqb searchtype "re" || String.eqb searchtype "word" then
    rbind (re_search X search line) (fun found =>
    Ok (if found then PyMatch else PyNone))
  else if String.eqb searchtype "pos" then
    search_out X line search
  else if String.eqb searchtype "hyper" then
    hypernym_search X line search
  else Ok PyNone.

(** [filename[-1] = 'srt'] on the pieces of [f.split('.')] *)
Definition set_last (x : string) (parts : list string) : list string :=
  <[length parts - 1 := x]> parts.

(** [get_subtitle_files]: [None] is the [False] it returns when nothing
    is found. *)
Definition get_subtitle_files (inputfile : list string) : M (option (list string)) :=
  let! srts :=
    for_each inputfile (fun f srts =>
      let filename := set_last "srt" (Str.split "." f) in
      let srt := Str.join "." filename in
      let! present := isfile srt in
      if present then ret (srts ++ [srt]) else ret srts) [] in
  if (length srts =? 0)%nat then
    print "[!] No subtitle files were found." >> ret None
  else ret (Some srts).

(** State of the loops of [compose_from_srts]. *)
Record ComposeState : Type := mkCS {
  composition : list loc;
  foundSearchTerm : bool
}.

(** The loop over the extensions: the last video found wins. *)
Definition find_video (srt : string) : M (string * bool) :=
  for_each usable_extensions (fun ext '(videofile, foundVideoFile) =>
    let tempVideoFile := Str.replace ".srt" ("." +:+ ext) srt in
    let! present := isfile tempVideoFile in
    if present then
      print ("[+] Found '" +:+ tempVideoFile +:+ "'.") >> ret (tempVideoFile, true)
    else ret (videofile, foundVideoFile)) ("", false).

(** One cue: the body of the loop over [lines.keys()]. *)
Definition search_cue (videofile : string) (lines : OD.t)
    (search searchtype timespan : string) (st : ComposeState) : M ComposeState :=
  let! text := lift (of_option KeyError (OD.get timespan lines)) in
  let line := Str.strip text in
  let! hit := lift (search_line line search searchtype) in
  if truth hit then
    let! (start, end_) := lift (convert_timespan timespan) in
    let! c := alloc (mkSegment videofile (Some timespan) start end_ line None) in
    ret (mkCS (composition st ++ [c]) true)
  else ret st.

(** The loop over the cues of one subtitle file. *)
Definition search_cues (videofile : string) (lines : OD.t)
    (search searchtype : string) (st : ComposeState) : M ComposeState :=
  for_each (OD.keys lines) (search_cue videofile lines search searchtype) st.

(** [compose_from_srts]; iterating over the [False] of
    [get_subtitle_files] is a [TypeError]. *)
Definition compose_from_srts (srts : option (list string))
    (search searchtype : string) : M (list loc) :=
  match srts with
  | None => raise TypeError
  | Some srts =>
      let! st :=
        for_each srts (fun srt st =>
          print srt >>
          let! lines := clean_srt srt in
          print ("[+] Searching for video file corresponding to '" +:+ srt +:+ "'.") >>
          let! (videofile, foundVideoFile) := find_video srt in
          if foundVideoFile then
            match lines with
            | _ :: _ =>
                let! st := search_cues videofile lines search searchtype st in
                (if foundSearchTerm st then ret tt
                 else print ("[!] Search term '" +:+ search +:+ "'"
                             +:+ " was not found is subtitle file '" +:+ srt +:+ "'."))
                >> ret st
            | [] =>
                print ("[!] Subtitle file '" +:+ srt +:+ "' is empty.") >> ret st
            end
          else
            print ("[!] No video file was found which corresponds to subtitle file '"
                   +:+ srt +:+ "'.") >>
            print "[!] The following video formats are currently supported:" >>
            print (fold_left (fun extList ext => extList +:+ ext +:+ ", ")
                             usable_extensions "") >>
            ret st)
          (mkCS [] false) in
      ret (composition st)
  end.

End Search.

(** ** Small library functions *)

(** [str(n)] for a natural number *)
Definition str_nat (n : nat) : string := NilEmpty.string_of_uint (Nat.to_uint n).

Fixpoint zeros (n : nat) : string :=
  match n with
  | O => EmptyString
  | S n => String "0" (zeros n)
  end.

(** [s.zfill(width)] on an unsigned literal *)
Definition zfill (width : nat) (s : string) : string :=
  zeros (width - String.length s) +:+ s.

(** [os.path.splitext]: the extension starts at the last dot of the last
    path component, unless only dots precede it there. *)
Definition splitext (p : string) : string * string :=
  let component := List.last (Str.split "/" p) "" in
  match rev (Str.split "." component) with
  | e :: (_ :: _) as before =>
      if forallb (String.eqb "") before then (p, "")
      else (String.substring 0 (String.length p - S (String.length e)) p, "." +:+ e)
  | _ => (p, "")
  end.

(** [random.shuffle]: the loop of the standard library, each [randbelow]
    taking the next draw of the entropy. *)
Definition randbelow (n : nat) : M nat :=
  fun w => match entropy w with
           | d :: ds => (Ok (d mod n), mkWorld (heap w) (files w) (trace w) ds)
           | [] => (Ok 0, w)
           end.

Definition swap {A} (i j : nat) (x : list A) : list A :=
  match x !! i, x !! j with
  | Some a, Some b => <[j := a]> (<[i := b]> x)
  | _, _ => x
  end.

Definition shuffle {A} (x : list A) : M (list A) :=
  for_each (rev (seq 1 (length x - 1))) (fun i x =>
    let! j := randbelow (i + 1) in
    ret (swap i j x)) x.

(** ** Printing, rendering and export *)

Section Program.

Variable X : Externals.

Definition call (c : ToolkitCall) : M unit :=
  if toolkit_ok X c then emit c else raise ToolkitError.

(** [enumerate(xs)] *)
Fixpoint enumerate_from {A} (k : nat) (xs : list A) : list (nat * A) :=
  match xs with
  | [] => []
  | x :: xs => (k, x) :: enumerate_from (S k) xs
  end.

Definition enumerate {A} (xs : list A) : list (nat * A) := enumerate_from 0 xs.

(** [composition[i]] *)
Definition item {A} (xs : list A) (i : nat) : M A :=
  lift (of_option IndexError (xs !! i)).

(** [demo_supercut]: [start] is a local of the loop body. *)
Definition demo_supercut (composition : list loc) (padding : float) : M unit :=
  for_each_ (enumerate composition) (fun '(i, c) =>
    let! d := read c in
    let ln := line d in
    let st := start d in
    let en := end_ d in
    let! st :=
      (if (0 <? i)%nat then
         let! prev := item composition (i - 1) in
         let! pd := read prev in
         if String.eqb (file pd) (file d) && (st <? end_ pd)%float
         then ret (st + padding)%float else ret st
       else ret st) in
    print (format_2f X st +:+ " to " +:+ format_2f X en +:+ ":"
           +:+ String "009" ln)).

(** The overlap loop of [create_supercut]:
    [for (clip, nextclip) in zip(composition, composition[1:])]. *)
Definition correct_overlaps (composition : list loc) (padding : float) : M unit :=
  for_each_ (zip composition (drop 1 composition)) (fun '(clip, nextclip) =>
    let! n := read nextclip in
    let! c := read clip in
    if String.eqb (file n) (file c) && (start n <? end_ c)%float then
      update nextclip (fun n => set_start (start n + padding)%float n)
    else ret tt).

(** [c['file']] for each [c] *)
Definition filenames (composition : list loc) : M (list string) :=
  for_each composition (fun c acc =>
    let! d := read c in ret (acc ++ [file d])) [].

(** The arguments of [.subclip] for each [c]: file, start, end. *)
Definition cuts (composition : list loc) : M (list Clip) :=
  for_each composition (fun c acc =>
    let! d := read c in ret (acc ++ [(file d, start d, end_ d)])) [].

(** [create_supercut] *)
Definition create_supercut (composition : list loc) (outputfile : string)
    (padding : float) : M unit :=
  print "[+] Creating clips." >>
  demo_supercut composition padding >>
  correct_overlaps composition padding >>
  let! names := filenames composition in
  call (OpenClips (remove_dups names)) >>
  let! cut_clips := cuts composition in
  call (Subclips cut_clips) >>
  print "[+] Concatenating clips." >>
  call (Concatenate cut_clips) >>
  print "[+] Writing ouput file." >>
  call (ToVideofile outputfile cut_clips).

(** One turn of the [while] loop of [create_supercut_in_batches]: the
    batch is [composition[start_index:end_index]]; a bare [except] drops a
    batch that fails. *)
Definition batch_turn (composition : list loc) (outputfile : string)
    (padding : float) (start_index : nat) (batch_comp : list string) : M (list string) :=
  let end_index := (start_index + BATCH_SIZE)%nat in
  let filename := outputfile +:+ ".tmp" +:+ str_nat start_index +:+ ".mp4" in
  try_except
    (create_supercut (take (end_index - start_index) (drop start_index composition))
                     filename padding >>
     ret (batch_comp ++ [filename]))
    (ret batch_comp).

(** [create_supercut_in_batches]: the loop runs once for every multiple
    [start_index] of [BATCH_SIZE] below [total_clips]. *)
Definition create_supercut_in_batches (composition : list loc)
    (outputfile : string) (padding : float) : M unit :=
  let total_clips := length composition in
  let starts := map (fun k => k * BATCH_SIZE)%nat
                    (seq 0 ((total_clips + BATCH_SIZE - 1) / BATCH_SIZE)) in
  let! batch_comp := for_each starts (batch_turn composition outputfile padding) [] in
  call (JoinFiles outputfile batch_comp) >>
  for_each_ batch_comp (fun filename => call (RemoveFile filename)) >>
  call (CleanupLogs outputfile).

(** [split_clips] *)
Definition split_clips (composition : list loc) (outputfile : string) : M unit :=
  let! names := filenames composition in
  call (OpenClips (remove_dups names)) >>
  let! cut_clips := cuts composition in
  call (Subclips cut_clips) >>
  let '(basename, ext) := splitext outputfile in
  print "[+] Writing ouput files." >>
  for_each_ (enumerate cut_clips) (fun '(i, clip) =>
    let clipfilename := basename +:+ "_" +:+ zfill 5 (str_nat i) +:+ ext in
    call (ToVideofile clipfilename [clip])).

(** [get_fps] *)
Definition get_fps (filename : string) : M float :=
  match probe_fps X filename with
  | Some fps => ret fps
  | None => print "[!] Could not detect FPS; defaulting to 25." >> ret 25%float
  end.

(** [get_duration] *)
Definition get_duration (filename : string) : M float :=
  let '(output, value) := probe_duration X filename in
  print ("Output: " +:+ output) >>
  lift (of_option ValueError value).

(** The arguments of one call of [make_edl_segment]. *)
Record EdlCall : Type := mkEdlCall {
  edl_n : string;
  time_in : float;
  time_out : float;
  rec_in : float;
  rec_out : float;
  full_name : string;
  filename : string;
  edl_fps : float
}.

(** [make_edl_segment] *)
Definition make_edl_segment (a : EdlCall) : string :=
  let reel :=
    if (7 <? String.length (full_name a))%nat
    then String.substring 0 7 (full_name a) else full_name a in
  edl_n a +:+ " " +:+ full_name a +:+ " AA/V  C        "
  +:+ Timecode X (edl_fps a) (time_in a) +:+ " "
  +:+ Timecode X (edl_fps a) (time_out a) +:+ " "
  +:+ Timecode X (edl_fps a) (rec_in a) +:+ " "
  +:+ Timecode X (edl_fps a) (rec_out a) +:+ nl
  +:+ "* FROM CLIP NAME:  " +:+ filename a +:+ nl
  +:+ "* COMMENT: " +:+ nl
  +:+ " FINAL CUT PRO REEL: " +:+ full_name a +:+ " REPLACED BY: " +:+ reel
  +:+ nl +:+ nl.

(** Locals of the loop of [make_edl]; [edl_calls] keeps, in order, the
    arguments with which [make_edl_segment] was called. *)
Record EdlState : Type := mkEdlState {
  fpses : gmap string float;
  edl_out : string;
  edl_rec_in : float;
  edl_calls : list EdlCall
}.

Definition make_edl_step (index : nat) (timestamp : loc) (st : EdlState)
  : M EdlState :=
  let! d := read timestamp in
  let! fpses :=
    (match fpses st !! file d with
     | Some _ => ret (fpses st)
     | None => let! fps := get_fps (file d) in
               ret (<[file d := fps]> (fpses st))
     end) in
  let! fps := lift (of_option KeyError (fpses !! file d)) in
  let n := zfill 4 (str_nat (index + 1)) in
  let time_in := start d in
  let time_out := end_ d in
  let duration := (time_out - time_in)%float in
  let rec_out := (edl_rec_in st + duration)%float in
  let full_name := "reel_" +:+ n in
  let filename := file d in
  let a := mkEdlCall n time_in time_out (edl_rec_in st) rec_out full_name filename fps in
  ret (mkEdlState fpses (edl_out st +:+ make_edl_segment a) rec_out
                  (edl_calls st ++ [a])).

Definition make_edl_loop (timestamps : list loc) (name : string) : M EdlState :=
  for_each (enumerate timestamps) (fun '(index, timestamp) st =>
    make_edl_step index timestamp st)
    (mkEdlState ∅ ("TITLE: " +:+ name +:+ nl +:+ "FCM: NON-DROP FRAME" +:+ nl +:+ nl)
                0%float []).

(** [make_edl] *)
Definition make_edl (timestamps : list loc) (name : string) : M unit :=
  let! st := make_edl_loop timestamps name in
  write_text name (edl_out st).

(** [make_otio]: the clips appended to the track, then the write. *)
Definition make_otio (timestamps : list loc) (name : string) : M unit :=
  let! (_, rows) :=
    for_each (enumerate timestamps) (fun '(index, timestamp) '(filedata, rows) =>
      let! d := read timestamp in
      let! filedata :=
        (match (filedata : gmap string (float * float)) !! file d with
         | Some _ => ret filedata
         | None => let! fps := get_fps (file d) in
                   let! dur := get_duration (file d) in
                   ret (<[file d := (fps, dur)]> filedata)
         end) in
      let! (fps, file_duration) := lift (of_option KeyError (filedata !! file d)) in
      let n := zfill 4 (str_nat (index + 1)) in
      let time_in := start d in
      let time_out := end_ d in
      let duration := (time_out - time_in)%float in
      let full_name := "reel_" +:+ n in
      let filename := file d in
      ret (filedata, rows ++ [(full_name, filename, fps, file_duration, time_in, duration)]))
      (∅, []) in
  call (Timeline name rows).

End Program.

(** ** The other composers and the entry point *)

Section Videogrep.

Variable X : Externals.

(** [compose_from_transcript].  The dicts of [audiogrep.search] are the
    library's own: they are in the store when the call returns, and the loop
    writes to each element of the list in place and appends that same dict.
    With hyper and pos a dict is built for each word found. *)
Definition compose_from_transcript (files : list string)
    (search searchtype : string) : M (list loc) :=
  if existsb (String.eqb searchtype) ["re"; "word"; "franken"; "fragment"] then
    let searchtype := if String.eqb searchtype "re" then "sentence" else searchtype in
    let! (dicts, segments) := lift (audiogrep_search X search files searchtype) in
    let! first := adopt dicts in
    for_each segments (fun i final_segments =>
      let seg := (first + i)%nat in
      update seg (fun d => set_file (Str.replace ".transcription.txt" "" (file d)) d) >>
      let! d := read seg in
      let! ws := lift (of_option KeyError (words d)) in
      update seg (set_line ws) >>
      ret (final_segments ++ [seg])) []
  else if existsb (String.eqb searchtype) ["hyper"; "pos"] then
    let! sentences := lift (audiogrep_convert_timestamps X files) in
    for_each sentences (fun '(f, words) final_segments =>
      for_each words (fun '(w, st, en) final_segments =>
        let! hit := lift (search_line X w search searchtype) in
        if truth hit then
          let! st := lift (float_of st) in
          let! en := lift (float_of en) in
          let! seg := alloc (mkSegment (Str.replace ".transcription.txt" "" f) None st en w None) in
          ret (final_segments ++ [seg])
        else ret final_segments) final_segments) []
  else ret [].

(** [get_vtt_files]: pairs of a vtt file and its video; [None] is the
    [False] it returns when nothing is found. *)
Definition get_vtt_files (inputfile : list string) : M (option (list (string * string))) :=
  let vtts :=
    fold_left (fun vtts f =>
      let filename := Str.split "." f in
      let filename := Str.join "." (take (length filename - 1) filename) in
      match glob X (filename +:+ "*.vtt") with
      | vtt :: _ => vtts ++ [(vtt, f)]
      | [] => vtts
      end) inputfile [] in
  if (length vtts =? 0)%nat then
    print "[!] No vtt files were found." >> ret None
  else ret (Some vtts).

(** [compose_from_vtt] *)
Definition compose_from_vtt (files : option (list (string * string)))
    (search searchtype : string) : M (list loc) :=
  match files with
  | None => raise TypeError
  | Some files =>
      for_each files (fun '(vtt, video) final_segments =>
        let! text := read_text vtt in
        let! sentences := lift (parse_auto_sub X text) in
        for_each sentences (fun '(text, st, en, words) final_segments =>
          if existsb (String.eqb searchtype) ["word"; "hyper"; "pos"] then
            for_each words (fun '(w, wst, wen) final_segments =>
              let! hit := lift (search_line X w search searchtype) in
              if truth hit then
                let! seg := alloc (mkSegment video None wst wen w None) in
                ret (final_segments ++ [seg])
              else ret final_segments) final_segments
          else
            let! hit := lift (search_line X text search searchtype) in
            if truth hit then
              let! seg := alloc (mkSegment video None st en text None) in
              ret (final_segments ++ [seg])
            else ret final_segments) final_segments) []
  end.

(** The arguments of [videogrep]; [padding] and [sync] are milliseconds,
    as the float that the division by [1000.0] makes of the number given. *)
Record Args : Type := mkArgs {
  inputfile : list string;
  outputfile : string;
  search : string;
  searchtype : string;
  maxclips : Z;
  padding : float;
  test : bool;
  randomize : bool;
  sync : float;
  use_transcript : bool;
  use_vtt : bool;
  export_clips : bool
}.

(** The choice of the composer at the head of [videogrep]. *)
Definition compose (a : Args) : M (list loc) :=
  if use_transcript a then
    compose_from_transcript (inputfile a) (search a) (searchtype a)
  else if use_vtt a then
    let! vtts := get_vtt_files (inputfile a) in
    compose_from_vtt vtts (search a) (searchtype a)
  else
    let! srts := get_subtitle_files (inputfile a) in
    compose_from_srts X srts (search a) (searchtype a).

(** "apply padding and sync": both in seconds here. *)
Definition adjust (composition : list loc) (sync padding : float) : M unit :=
  for_each_ composition (fun c =>
    update c (fun d => set_start (start d + sync - padding)%float d) >>
    update c (fun d => set_end (end_ d + sync + padding)%float d)).

(** [composition[:maxclips]] under [if maxclips > 0] *)
Definition truncate (composition : list loc) (maxclips : Z) : list loc :=
  if (0 <? maxclips)%Z then take (Z.to_nat maxclips) composition else composition.

(** Truncation, then the shuffle of what is left. *)
Definition arrange (composition : list loc) (maxclips : Z) (randomize : bool)
  : M (list loc) :=
  let composition := truncate composition maxclips in
  if randomize then shuffle composition else ret composition.

(** The branches on [test], the extension of [outputfile] and
    [export_clips]. *)
Definition output (composition : list loc) (a : Args) (padding : float) : M unit :=
  if test a then demo_supercut X composition padding
  else
    (if String.eqb (lower (splitext (outputfile a)).2) ".edl"
     then make_edl X composition (outputfile a) else ret tt) >>
    if String.eqb (lower (splitext (outputfile a)).2) ".otio" then
      make_otio X composition (outputfile a)
    else if export_clips a then
      split_clips X composition (outputfile a)
    else if (BATCH_SIZE <? length composition)%nat then
      print "[+] Starting batch job." >>
      create_supercut_in_batches X composition (outputfile a) padding
    else create_supercut X composition (outputfile a) padding.

(** [videogrep] from the point where [composition] is known. *)
Definition finish (composition : list loc) (a : Args) : M unit :=
  let padding := (padding a / 1000)%float in
  let sync := (sync a / 1000)%float in
  if (length composition =? 0)%nat then
    print ("[!] Search term '" +:+ search a +:+ "'" +:+ " was not found in any file.") >>
    raise (SystemExit 1)
  else
    print ("[+] Search term '" +:+ search a +:+ "'" +:+ " was found in "
           +:+ str_nat (length composition) +:+ " places.") >>
    adjust composition sync padding >>
    let! composition := arrange composition (maxclips a) (randomize a) in
    output composition a padding.

(** [videogrep] *)
Definition videogrep (a : Args) : M unit :=
  let! composition := compose a in
  finish composition a.

End Videogrep.

(** ** Words and n-grams *)

(** The character class of the pattern that splits a text into words: full
    stop, question mark, exclamation mark, comma, colon, double quote. *)
Definition is_punct (c : ascii) : bool :=
  existsb (Ascii.eqb c) ["."; "?"; "!"; ","; ":"; "034"]%char.

(** Length of the longest run of characters in [p] at the start of [s]. *)
Fixpoint span (p : ascii -> bool) (s : string) : nat :=
  match s with
  | String c s' => if p c then S (span p s') else 0
  | EmptyString => 0
  end.

(** [s[n:]] *)
Fixpoint skip_chars (n : nat) (s : string) : string :=
  match n, s with
  | S n, String _ s' => skip_chars n s'
  | _, _ => s
  end.

(** Length of the match, at the start of [s], of the pattern of [get_ngrams]:
    one or more characters of the class and then any whitespace, or else one
    or more whitespace characters; 0 when there is none. *)
Definition separator_match (s : string) : nat :=
  match span is_punct s with
  | S k => S k + span Str.is_space (skip_chars (S k) s)
  | O => span Str.is_space s
  end.

(** [re.split(pattern, text)] for that pattern: [skip] counts the characters
    of a match that are still to be passed over. *)
Fixpoint split_words_go (skip : nat) (s : string) : list string :=
  match s with
  | EmptyString => [EmptyString]
  | String c s' =>
      match skip with
      | S k => split_words_go k s'
      | O =>
          match separator_match s with
          | S n => EmptyString :: split_words_go n s'
          | O => match split_words_go 0 s' with
                 | p :: ps => String c p :: ps
                 | [] => [String c EmptyString]
                 end
          end
      end
  end.

(** The words that [get_ngrams] makes of the text of the subtitles. *)
Definition split_words (text : string) : list string := split_words_go 0 text.

(** [zip] of the rows given as its arguments, the tuples as lists. *)
Fixpoint zip_cons {A} (xs : list A) (rows : list (list A)) : list (list A) :=
  match xs, rows with
  | x :: xs, r :: rows => (x :: r) :: zip_cons xs rows
  | _, _ => []
  end.

Fixpoint zip_star {A} (rows : list (list A)) : list (list A) :=
  match rows with
  | [] => []
  | [l] => map (fun x => [x]) l
  | l :: rows => zip_cons l (zip_star rows)
  end.

(** [zip] of the lists [words[i:]] for [i] in [range(n)] *)
Definition ngrams {A} (words : list A) (n : Z) : list (list A) :=
  zip_star (map (fun i => drop i words) (seq 0 (Z.to_nat n))).

(** The loop of [get_ngrams] over the subtitle files: the text gathered,
    each line stripped and followed by a space. *)
Definition subtitle_text (srts : list string) : M string :=
  for_each srts (fun srt text =>
    let! lines := clean_srt srt in
    match lines with
    | _ :: _ =>
        for_each (OD.keys lines) (fun timespan text =>
          let! value := lift (of_option KeyError (OD.get timespan lines)) in
          let line := Str.strip value in
          ret (text +:+ line +:+ " ")) text
    | [] => ret text
    end) "".

Section Ngrams.

Variable X : Externals.

(** [get_ngrams] *)
Definition get_ngrams (inputfile : list string) (n : Z) (use_transcript use_vtt : bool)
  : M (list (list string)) :=
  let! words :=
    (if use_transcript then
       let! sentences := lift (audiogrep_convert_timestamps X inputfile) in
       for_each sentences (fun '(_, ws) words =>
         for_each ws (fun '(w, _, _) words => ret (words ++ [w])) words) []
     else if use_vtt then
       let! vtts := get_vtt_files X inputfile in
       match vtts with
       | None => raise TypeError
       | Some vtts =>
           for_each vtts (fun '(vtt, _) words =>
             let! text := read_text vtt in
             let! sentences := lift (parse_auto_sub X text) in
             for_each sentences (fun '(_, _, _, ws) words =>
               for_each ws (fun '(w, _, _) words => ret (words ++ [w])) words) words) []
       end
     else
       let! srts := get_subtitle_files inputfile in
       match srts with
       | None => raise TypeError
       | Some srts =>
           let! text := subtitle_text srts in
           ret (split_words text)
       end) in
  ret (ngrams words n).

End Ngrams.

(** * Vocabulary of the statements *)

(** ** Judgements on runs *)

(** [sat R E m]: every run of [m] relates the worlds before and after by
    [R], and raises only exceptions in [E]. *)
Definition sat {A} (R : World -> World -> Prop) (E : Exn -> Prop) (m : M A) : Prop :=
  forall w, R w (m w).2 /\ (forall e, (m w).1 = Raise e -> E e).

(** ** Worlds that differ by printed lines only *)

Definition is_print (ev : Event) : Prop := exists s, ev = Print s.

Definition only_prints (w w' : World) : Prop :=
  heap w' = heap w /\ files w' = files w /\ entropy w' = entropy w /\
  exists t, trace w' = trace w ++ t /\ Forall is_print t.

(** ** Padding and sync *)

(** The segment after "apply padding and sync". *)
Definition adjusted (sync padding : float) (d : Segment) : Segment :=
  mkSegment (file d) (time d) (start d + sync - padding)%float
            (end_ d + sync + padding)%float (line d) (words d).

Definition duration (d : Segment) : float := (end_ d - start d)%float.

Definition valid (composition : list loc) (w : World) : Prop :=
  forall l, l ∈ composition -> l < length (heap w).

(** Two back-to-back cues of one video, as the subtitle composer leaves
    them: 1.0 to 2.0 and 2.0 to 3.0. *)
Definition back_to_back : World :=
  mkWorld [mkSegment "talk.mp4" (Some "00:00:01,000 --> 00:00:02,000") 1 2 "hello world" None;
           mkSegment "talk.mp4" (Some "00:00:02,000 --> 00:00:03,000") 2 3 "hello there" None]
          ∅ [] [].

(** ** The overlap loop of [create_supercut] *)

(** What the loop does to [nextclip], given [clip]. *)
Definition corrected (padding : float) (clip nextclip : Segment) : Segment :=
  if String.eqb (file nextclip) (file clip) && (start nextclip <? end_ clip)%float
  then set_start (start nextclip + padding)%float nextclip
  else nextclip.

(** ** What rendering and export leave alone *)

Definition same_but_start (d d' : Segment) : Prop :=
  file d' = file d /\ time d' = time d /\ end_ d' = end_ d /\ line d' = line d /\
  words d' = words d.

(** Every dict of the store is still there, with at most [start] changed. *)
Definition fields_kept (w w' : World) : Prop :=
  length (heap w') = length (heap w) /\
  forall l d, heap w !! l = Some d ->
    exists d', heap w' !! l = Some d' /\ same_but_start d d'.

Definition no_exit (e : Exn) : Prop := forall code, e <> SystemExit code.

Definition same_heap (w w' : World) : Prop := heap w' = heap w.

(** ** Overlap correction and writes after the adjustment *)

(** The back-to-back cues after "apply padding and sync" with a padding of
    500 ms: 0.5 to 2.5 and 1.5 to 3.5. *)
Definition padded : World :=
  (adjust [0; 1] (0 / 1000)%float (500 / 1000)%float back_to_back).2.

(** C1 as the specification states it: every adjacent pair of one source
    file that overlapped before the loop no longer overlaps after it. *)
Definition overlaps_removed (composition : list loc) (padding : float) (w : World) : Prop :=
  forall w', correct_overlaps composition padding w = (Ok tt, w') ->
  forall i a b da db,
    composition !! i = Some a -> composition !! S i = Some b ->
    heap w !! a = Some da -> heap w !! b = Some db ->
    file db = file da -> (start db <? end_ da)%float = true ->
    exists da' db', heap w' !! a = Some da' /\ heap w' !! b = Some db' /\
                    (end_ da' <=? start db')%float = true.

(** Externals for the examples: patterns without metacharacters (a match is
    an occurrence of the pattern), no tagger or lexicon hits, no transcripts
    or captions, no frame rate reported, a toolkit that never fails. *)
Definition sample_externals : Externals :=
  mkExternals
    (fun pattern text => Ok (Str.contains pattern text))
    (fun _ _ => Ok PyNone) (fun _ _ => Ok PyNone)
    (fun _ _ _ => Ok ([], [])) (fun _ => Ok []) (fun _ => Ok []) (fun _ => [])
    (fun _ => None) (fun _ => ("", None))
    (fun _ _ => "00:00:00:00") (fun _ => "0.00") (fun _ => true).



(** ** What [demo_supercut] prints *)

(** The start printed for the segment [d] at position [i]. *)
Definition demo_start (h : list Segment) (composition : list nat) (padding : float)
    (i : nat) (d : Segment) : float :=
  match i with
  | O => start d
  | S j =>
      match composition !! j ≫= (h !!.) with
      | Some pd =>
          if String.eqb (file pd) (file d) && (start d <? end_ pd)%float
          then (start d + padding)%float else start d
      | None => start d
      end
  end.

Definition demo_line (X : Externals) (h : list Segment) (composition : list nat)
    (padding : float) (i c : nat) : string :=
  match h !! c with
  | Some d =>
      format_2f X (demo_start h composition padding i d) +:+ " to "
      +:+ format_2f X (end_ d) +:+ ":" +:+ String "009" (line d)
  | None => ""
  end.

(** ** The record timeline of [make_edl] *)

(** Calls whose record-in values continue from [r0]. *)
Fixpoint contiguous (r0 : float) (calls : list EdlCall) : Prop :=
  match calls with
  | [] => True
  | a :: calls =>
      rec_in a = r0 /\
      rec_out a = (rec_in a + (time_out a - time_in a))%float /\
      contiguous (rec_out a) calls
  end.

(** The segment a call was made for. *)
Definition call_of (h : list Segment) (timestamp : loc) (a : EdlCall) : Prop :=
  exists d, h !! timestamp = Some d /\
    time_in a = start d /\ time_out a = end_ d /\ filename a = file d.

(** ** Truncation and shuffle *)

(** Worlds that differ in the entropy left only. *)
Definition draws_only (w w' : World) : Prop :=
  heap w' = heap w /\ files w' = files w /\ trace w' = trace w /\
  exists used, entropy w = used ++ entropy w'.

(** ** The no-match exit *)

(** Nothing is written to a file and nothing is asked of the toolkit: the
    trace grows by printed lines only. *)
Definition no_output (w w' : World) : Prop :=
  files w' = files w /\
  exists t, trace w' = trace w ++ t /\ Forall is_print t.

Definition trace_grows (w w' : World) : Prop :=
  exists t, trace w' = trace w ++ t.

Definition any_exn (e : Exn) : Prop := True.

(** The diagnostic of the no-match exit, and the line printed otherwise. *)
Definition not_found (search : string) : string :=
  "[!] Search term '" +:+ search +:+ "'" +:+ " was not found in any file.".

Definition found (search : string) (n : nat) : string :=
  "[+] Search term '" +:+ search +:+ "'" +:+ " was found in "
  +:+ str_nat n +:+ " places.".

(** The subtitle file of the two-cue scenario. *)
Definition two_cues : string :=
  "1" +:+ nl +:+ "00:00:01,000 --> 00:00:02,000" +:+ nl +:+ "hello world" +:+ nl
  +:+ nl +:+
  "2" +:+ nl +:+ "00:00:05,000 --> 00:00:06,500" +:+ nl +:+ "hello there" +:+ nl.

Definition talk_world : World :=
  mkWorld [] (<["talk.srt" := Text two_cues]> (<["talk.mp4" := Text ""]> ∅)) [] [].

Definition no_match_args : Args :=
  mkArgs ["talk.mp4"] "supercut.mp4" "goodbye" "re" 0 0%float false false 0%float false false false.

(** ** Runs that return: a precondition on the world, a postcondition on the
    result and the world *)


(** ** Search types that [search_line] does not know *)

Definition known_searchtype (searchtype : string) : bool :=
  existsb (String.eqb searchtype) ["re"; "word"; "pos"; "hyper"].


(** The subtitle file looked for next to an input. *)
Definition subtitle_of (f : string) : string :=
  Str.join "." (set_last "srt" (Str.split "." f)).

Definition present (fs : gmap string Stored) (path : string) : bool :=
  bool_decide (is_Some (fs !! path)).




(** ** The two-cue scenario *)

(** The video picked for a subtitle file: the last extension present. *)
Definition candidate (srt ext : string) : string := Str.replace ".srt" ("." +:+ ext) srt.

Definition pick_video (fs : gmap string Stored) (srt : string)
    (exts : list string) (v : string) : string :=
  fold_left (fun v ext => if present fs (candidate srt ext) then candidate srt ext else v)
            exts v.

Definition first_span : string := "00:00:01,000 --> 00:00:02,000".
Definition second_span : string := "00:00:05,000 --> 00:00:06,500".

(** What [clean_srt] makes of the two cues. *)
Definition cue_lines : OD.t :=
  [(first_span, "hello world  "); (second_span, "hello there ")].

Definition first_times : float * float :=
  Eval vm_compute in
    match convert_timespan first_span with Ok p => p | Raise _ => (0, 0)%float end.
Definition second_times : float * float :=
  Eval vm_compute in
    match convert_timespan second_span with Ok p => p | Raise _ => (0, 0)%float end.

(** ** Well-formed subtitle files *)

Fixpoint no_linebreak (s : string) : bool :=
  match s with
  | EmptyString => true
  | String c s' => negb (Str.is_linebreak c) && no_linebreak s'
  end.

Fixpoint digits_only (s : string) : bool :=
  match s with
  | EmptyString => true
  | String c s' => Str.is_digit c && digits_only s'
  end.

(** A line that [^\d+[\n\r]] removes: one digit or more, nothing else. *)
Definition is_index_line (s : string) : bool :=
  negb (String.eqb s "") && digits_only s.

(** The lines of a text, each closed by a line feed. *)
Fixpoint unlines (ls : list string) : string :=
  match ls with
  | [] => EmptyString
  | l :: ls => l +:+ String Str.LF (unlines ls)
  end.

(** A cue block: index line, timespan line, text lines, blank line. *)
Record Cue : Type := mkCue {
  cue_index : string;
  cue_span : string;
  cue_text : list string
}.

Definition cue_block (c : Cue) : list string :=
  cue_index c :: cue_span c :: cue_text c ++ [""].

Definition srt_lines (cues : list Cue) : list string :=
  concat (map cue_block cues).

Definition srt_text (cues : list Cue) : string := unlines (srt_lines cues).

Definition text_line (l : string) : Prop :=
  no_linebreak l = true /\ Str.contains "-->" (Str.strip l) = false.

Record well_formed (c : Cue) : Prop := mkWellFormed {
  wf_index : is_index_line (cue_index c) = true;
  wf_span_line : no_linebreak (cue_span c) = true;
  wf_span : Str.contains "-->" (Str.strip (cue_span c)) = true;
  wf_text : Forall text_line (cue_text c)
}.

(** The text kept for a cue: its text lines (those of digits only are
    removed like index lines) and the blank line, each stripped and followed
    by a space. *)
Definition cue_value (c : Cue) : string :=
  fold_left (fun acc l => acc +:+ Str.strip l +:+ " ")
            (filter (fun l => is_index_line l = false) (cue_text c) ++ [""]) "".

(** The dictionary expected from the cues: it reads no index. *)
Definition expected (cues : list Cue) : OD.t :=
  fold_left (fun d c => OD.set (Str.strip (cue_span c)) (cue_value c) d) cues [].

Definition kept (l : string) : Prop := is_index_line l = false.

Definition sample_cues : list Cue :=
  [mkCue "1" first_span ["hello world"]; mkCue "2" second_span ["hello there"; "42"]].

(** The sample cues stored with carriage return and line feed. *)
Definition crlf_world : World :=
  mkWorld []
    (<["talk.srt" := Text (Str.replace nl (String Str.CR nl) (srt_text sample_cues))]> ∅)
    [] [].

(** ** The dicts of a composition are distinct and in the store *)

Definition post {A} (P : World -> Prop) (m : M A) (Q : A -> World -> Prop) : Prop :=
  forall w a w', P w -> m w = (Ok a, w') -> Q a w'.

Definition fresh (composition : list nat) (h : list Segment) : Prop :=
  NoDup composition /\ forall l, l ∈ composition -> l < length h.

(** ** Which starts rendering moves *)








(** ** Durations after the adjustment *)

(** C2 as the specification states it: the adjustment makes every segment
    longer by twice the padding. *)
Definition durations_expanded (composition : list nat) (sync padding : float)
    (w : World) : Prop :=
  forall w', adjust composition sync padding w = (Ok tt, w') ->
  forall l d d', l ∈ composition -> heap w !! l = Some d -> heap w' !! l = Some d' ->
    (duration d' =? duration d + 2 * padding)%float = true.

(** One cue from 1.0 to 2.0. *)
Definition one_cue : World :=
  mkWorld [mkSegment "talk.mp4" (Some "00:00:01,000 --> 00:00:02,000") 1 2 "hello world" None]
          ∅ [] [].

(** ** Floats that are the same number *)

(** Equal as [==] has it, or both not a number. *)
Definition same_number (x y : float) : Prop :=
  (x =? y)%float = true \/ (is_nan x = true /\ is_nan y = true).

(** * Vocabulary of the further properties *)

(** ** Timestamps written in digits *)

(** Whether the character [c] occurs in [s]. *)
Fixpoint has_char (c : ascii) (s : string) : bool :=
  match s with
  | EmptyString => false
  | String c' s' => Ascii.eqb c' c || has_char c s'
  end.

(** [s.count(c)] for one character. *)
Fixpoint count_char (c : ascii) (s : string) : nat :=
  match s with
  | EmptyString => 0
  | String c' s' => (if Ascii.eqb c' c then 1 else 0) + count_char c s'
  end.

(** Whitespace only. *)
Fixpoint blank (s : string) : bool :=
  match s with
  | EmptyString => true
  | String c s' => Str.is_space c && blank s'
  end.

(** One ASCII digit or more, and the number they write. *)
Definition decimal (s : string) : bool := negb (String.eqb s "") && digits_only s.

Definition number (s : string) : Z := default 0%Z (digits_value 0 s).

(** The four fields of an srt timestamp, its text [HH:MM:SS,mmm] and the
    seconds that the formula of [convert_timestamp] gives for it. *)
Record Stamp : Type := mkStamp {
  hours : string;
  minutes : string;
  seconds : string;
  millis : string
}.

(** A field that [int()] converts: digits, no more of them than the limit
    on an int literal allows. *)
Definition int_field (s : string) : bool :=
  decimal s && (String.length s <=? int_max_str_digits)%nat.

Definition stamp_ok (t : Stamp) : bool :=
  int_field (hours t) && int_field (minutes t) && int_field (seconds t)
  && decimal (millis t).

Definition timestamp_of (t : Stamp) : string :=
  hours t +:+ ":" +:+ minutes t +:+ ":" +:+ seconds t +:+ "," +:+ millis t.

(** The whole seconds of a timestamp, an int. *)
Definition whole_seconds (t : Stamp) : Z :=
  (number (seconds t) + number (hours t) * 60 * 60 + number (minutes t) * 60)%Z.

(** What the formula of [convert_timestamp] gives: the float of the whole
    seconds plus the float of the milliseconds divided by 1000, each step
    rounded; an [OverflowError] when the whole seconds are beyond the floats. *)
Definition seconds_of (t : Stamp) : result float :=
  rbind (float_of_int (whole_seconds t)) (fun whole =>
  Ok (whole + float_of_Z (number (millis t)) / 1000)%float).

(** A field of 400 digits: an int, too large for a float. *)
Definition long_field : string := string_of_list_ascii (repeat "9"%char 400).

(** ** The keys of the cue dictionary *)

(** The keys of the dictionary built by the loop of [clean_srt]. *)
Definition timespan_keys (d : OD.t) : Prop :=
  NoDup (OD.keys d) /\
  Forall (fun k => Str.contains "-->" k = true /\ Str.strip k = k) (OD.keys d).

(** ** Subtitle, video and vtt names *)

(** The line printed for a video found next to a subtitle file. *)
Definition found_video (srt ext : string) : Event :=
  Print ("[+] Found '" +:+ candidate srt ext +:+ "'.").

(** The pattern globbed for an input in vtt mode. *)
Definition vtt_pattern (f : string) : string :=
  Str.join "." (take (length (Str.split "." f) - 1) (Str.split "." f)) +:+ "*.vtt".

(** The lines printed when nothing is found. *)
Definition no_subtitles : Event := Print "[!] No subtitle files were found.".
Definition no_vtts : Event := Print "[!] No vtt files were found.".

(** The world after the events [evs]. *)
Definition logged (w : World) (evs : list Event) : World :=
  mkWorld (heap w) (files w) (trace w ++ evs) (entropy w).

(** A directory that holds a file named [srt] beside a subtitle file. *)
Definition srt_world : World :=
  mkWorld [] (<["srt" := Text ""]> (<["talk.srt" := Text ""]> ∅)) [] [].

(** ** Transcripts and captions *)

(** The vtt file paired with an input: the first name that the glob gives. *)
Definition vtt_of (X : Externals) (f : string) : option (string * string) :=
  match glob X (vtt_pattern f) with
  | vtt :: _ => Some (vtt, f)
  | [] => None
  end.

(** A dict of [audiogrep.search] once the loop of [compose_from_transcript]
    has been over it: its file name without [.transcription.txt], its words
    as its line, the rest as the library left it. *)
Definition rewritten (ws : string) (d : Segment) : Segment :=
  mkSegment (Str.replace ".transcription.txt" "" (file d)) (time d) (start d) (end_ d)
            ws (words d).

(** The dicts of the library after the loop over the positions [segments]. *)
Definition after_transcript (dicts : list Segment) (segments : list nat) : list Segment :=
  imap (fun i d => match words d with
                   | Some ws => if bool_decide (i ∈ segments) then rewritten ws d else d
                   | None => d
                   end) dicts.

(** The mode in which [audiogrep.search] is called. *)
Definition audiogrep_mode (searchtype : string) : string :=
  if String.eqb searchtype "re" then "sentence" else searchtype.

(** A vtt file that can be read and parsed. *)
Definition readable_vtt (X : Externals) (w : World) (f : string * string) : Prop :=
  exists content sentences,
    files w !! f.1 = Some (Text content) /\
    parse_auto_sub X (Str.universal_newlines content) = Ok sentences.

(** A directory that holds one vtt file and no subtitle file. *)
Definition caption_world : World :=
  mkWorld [] (<["talk.en.vtt" := Text "WEBVTT"]> ∅) [] [].

(** Externals in which the captions parse to one sentence of two words. *)
Definition caption_externals : Externals :=
  mkExternals
    (fun pattern text => Ok (Str.contains pattern text))
    (fun _ _ => Ok PyNone) (fun _ _ => Ok PyNone)
    (fun _ _ _ => Ok ([], [])) (fun _ => Ok [])
    (fun _ => Ok [("hello world", 1, 2, [("hello", 1, 1.5); ("world", 1.5, 2)])]%float)
    (fun _ => ["talk.en.vtt"])
    (fun _ => None) (fun _ => ("", None))
    (fun _ _ => "00:00:00:00") (fun _ => "0.00") (fun _ => true).

(** Two dicts as [audiogrep.search] builds them. *)
Definition transcript_dicts : list Segment :=
  [mkSegment "talk.mp4.transcription.txt" None 1 2 "" (Some "hello world");
   mkSegment "talk.mp4.transcription.txt" None 3 4 "" (Some "hello there")].

(** Externals in which [audiogrep.search] returns the second of these dicts
    and then the first. *)
Definition transcript_externals : Externals :=
  mkExternals
    (fun pattern text => Ok (Str.contains pattern text))
    (fun _ _ => Ok PyNone) (fun _ _ => Ok PyNone)
    (fun _ _ _ => Ok (transcript_dicts, [1; 0]))
    (fun _ => Ok []) (fun _ => Ok []) (fun _ => [])
    (fun _ => None) (fun _ => ("", None))
    (fun _ _ => "00:00:00:00") (fun _ => "0.00") (fun _ => true).

(** The arguments of a test run. *)
Definition demo_args : Args :=
  mkArgs ["talk.mp4"] "supercut.mp4" "hello" "re" 0 500%float true false 0%float false false false.

(** ** The clips of a rendering *)

(** The clip cut for the dict at [c]: file, start, end. *)
Definition clip_of (h : list Segment) (c : nat) : option Clip :=
  (fun d => (file d, start d, end_ d)) <$> h !! c.

(** The clip that [demo_supercut] announces for the dict at [c], at position
    [i] of the composition. *)
Definition demo_clip (h : list Segment) (composition : list nat) (padding : float)
    (i c : nat) : option Clip :=
  (fun d => (file d, demo_start h composition padding i d, end_ d)) <$> h !! c.

(** The calls and lines of [create_supercut] once the clips are cut. *)
Definition render_events (outputfile : string) (clips : list Clip) : list Event :=
  [Called (OpenClips (remove_dups (map (fun clip : Clip => clip.1.1) clips)));
   Called (Subclips clips);
   Print "[+] Concatenating clips.";
   Called (Concatenate clips);
   Print "[+] Writing ouput file.";
   Called (ToVideofile outputfile clips)].



(** ** Exported clips and timelines *)

(** The name under which [split_clips] writes the clip at position [i]. *)
Definition clip_name (outputfile : string) (i : nat) : string :=
  (splitext outputfile).1 +:+ "_" +:+ zfill 5 (str_nat i) +:+ (splitext outputfile).2.

(** The calls and the line of [split_clips] for the clips cut. *)
Definition split_events (outputfile : string) (clips : list Clip) : list Event :=
  [Called (OpenClips (remove_dups (map (fun clip : Clip => clip.1.1) clips)));
   Called (Subclips clips);
   Print "[+] Writing ouput files."]
  ++ imap (fun i clip => Called (ToVideofile (clip_name outputfile i) [clip])) clips.

(** Events of an export to a timeline: printed lines and the call that
    builds and writes the timeline. *)
Definition timeline_event (ev : Event) : Prop :=
  is_print ev \/ exists name rows, ev = Called (Timeline name rows).

(** The store and the files stay; the trace grows by such events only. *)
Definition timeline_only (w w' : World) : Prop :=
  heap w' = heap w /\ files w' = files w /\
  exists t, trace w' = trace w ++ t /\ Forall timeline_event t.

(** ** Batches and the events of the list *)

(** The name of the partial video of the batch that starts at [start_index]. *)
Definition tmp_name (outputfile : string) (start_index : nat) : string :=
  outputfile +:+ ".tmp" +:+ str_nat start_index +:+ ".mp4".

(** The dicts that rendering in batches may write to: those at a position
    that is not the first of its batch. *)
Definition inside_batch (composition : list nat) (l : nat) : Prop :=
  exists j, j mod BATCH_SIZE <> 0 /\ composition !! j = Some l.

(** Only dicts in [P] differ between the two stores. *)
Definition touches (P : nat -> Prop) (w w' : World) : Prop :=
  length (heap w') = length (heap w) /\
  forall l, ~ P l -> heap w' !! l = heap w !! l.


(** Whether the event [ev] is the write of a video under [name]. *)
Definition writes_video (name : string) (ev : Event) : bool :=
  match ev with
  | Called (ToVideofile n _) => String.eqb n name
  | _ => false
  end.

(** Whether the events [t] hold the write of a video under [name]. *)
Definition written (t : list Event) (name : string) : bool :=
  existsb (writes_video name) t.

(** The trace grows, and by no write of a video. *)
Definition no_video (w w' : World) : Prop :=
  exists t, trace w' = trace w ++ t /\ forall name, written t name = false.

(** A run of [m] writes a video under [name] as its last step and only
    there: the events it adds hold that write exactly when it returns, and
    the write of no other video. *)
Definition ends_in_write (name : string) (m : M unit) : Prop :=
  forall w, exists t,
    trace (m w).2 = trace w ++ t /\
    (forall n, written t n = true -> n = name) /\
    written t name = match (m w).1 with Ok _ => true | Raise _ => false end.

(** Twenty-five dicts of one file, each from 1.0 to 2.0. *)
Definition long_world : World :=
  mkWorld (replicate 25 (mkSegment "talk.mp4" None 1 2 "hello" None)) ∅ [] [].

(** A toolkit that fails to write the partial video of the first batch, and
    to join no file at all. *)
Definition flaky_toolkit : Externals :=
  mkExternals
    (fun pattern text => Ok (Str.contains pattern text))
    (fun _ _ => Ok PyNone) (fun _ _ => Ok PyNone)
    (fun _ _ _ => Ok ([], [])) (fun _ => Ok []) (fun _ => Ok []) (fun _ => [])
    (fun _ => None) (fun _ => ("", None))
    (fun _ _ => "00:00:00:00") (fun _ => "0.00")
    (fun c => match c with
              | ToVideofile name _ => negb (String.eqb name "supercut.mp4.tmp0.mp4")
              | JoinFiles _ [] => false
              | _ => true
              end).

(** The state in which the loop of [make_edl] ends for the two back-to-back
    cues, and the first event of the list. *)
Definition sample_edl_state : EdlState :=
  Eval vm_compute in
    match make_edl_loop sample_externals [0; 1] "supercut.edl" back_to_back with
    | (Ok st, _) => st
    | _ => mkEdlState ∅ "" 0%float []
    end.

Definition first_call : EdlCall :=
  Eval vm_compute in
    default (mkEdlCall "" 0%float 0%float 0%float 0%float "" "" 0%float)
            (edl_calls sample_edl_state !! 0).

(** ** Words of a transcript and runs of words *)

(** The words of the sentences of a transcript, in order. *)
Definition transcript_words (sentences : list (string * list (string * Scalar * Scalar)))
  : list string :=
  concat (map (fun s : string * list (string * Scalar * Scalar) =>
                 map (fun w : string * Scalar * Scalar => w.1.1) s.2) sentences).

(** The runs of [n] consecutive elements of [words]. *)
Definition windows {A} (n : nat) (words : list A) : list (list A) :=
  map (fun j => take n (drop j words)) (seq 0 (length words + 1 - n)).

(** Externals in which the transcript is one sentence of three words. *)
Definition ngram_externals : Externals :=
  mkExternals
    (fun pattern text => Ok (Str.contains pattern text))
    (fun _ _ => Ok PyNone) (fun _ _ => Ok PyNone)
    (fun _ _ _ => Ok ([], []))
    (fun _ => Ok [("talk.mp4.transcription.txt",
                   [("hello", SStr "0.0", SStr "0.5"); ("big", SStr "0.5", SStr "1.0");
                    ("world", SStr "1.0", SStr "1.5")])])
    (fun _ => Ok []) (fun _ => [])
    (fun _ => None) (fun _ => ("", None))
    (fun _ _ => "00:00:00:00") (fun _ => "0.00") (fun _ => true).

(** The text gathered is empty or ends in a space. *)
Definition spaced (text : string) : Prop := text = "" \/ exists t, text = t +:+ " ".

(** ** The dicts of the subtitle composer *)

(** A dict as [compose_from_srts] builds it: its start and end are those of
    its timespan, its line is stripped, and its file exists. *)
Definition cue_segment (fs : gmap string Stored) (d : Segment) : Prop :=
  exists timespan,
    time d = Some timespan /\
    convert_timespan timespan = Ok (start d, end_ d) /\
    Str.strip (line d) = line d /\
    is_Some (fs !! file d).

(** The store of [w0] has grown by the dicts of the composition [C], and the
    files are those of [w0]. *)
Definition grown (w0 : World) (C : list nat) (w : World) : Prop :=
  files w = files w0 /\
  exists new, heap w = heap w0 ++ new /\
              C = seq (length (heap w0)) (length new) /\
              Forall (cue_segment (files w0)) new.

(** ** Durations for the timeline *)



(** * Checks of the library functions on small inputs *)

Example strip_ex : Str.strip "  hello world  " = "hello world".
Proof. reflexivity. Qed.
Example split_ex : Str.split "-->" "a --> b-->c" = ["a "; " b"; "c"].
Proof. reflexivity. Qed.
Example replace_ex : Str.replace ".srt" ".mp4" "a.srt.srtx" = "a.mp4.mp4x".
Proof. reflexivity. Qed.
Example splitlines_ex :
  Str.splitlines (String "a" (String Str.CR (String Str.LF (String Str.LF (String "b" (String Str.LF "")))))) = ["a"; ""; "b"].
Proof. reflexivity. Qed.
Example sub_index_ex :
  Str.sub_index (String "1" (String "2" (String Str.LF (String "3" (String Str.CR (String "4" (String Str.LF (String "x" (String "5" (String Str.LF "")))))))))) = String "4" (String Str.LF (String "x" (String "5" (String Str.LF "")))).
Proof. reflexivity. Qed.

Example splitext_ex1 : splitext "out/super.cut.EDL" = ("out/super.cut", ".EDL").
Proof. reflexivity. Qed.
Example splitext_ex2 : splitext "a.b/.edl" = ("a.b/.edl", "").
Proof. reflexivity. Qed.
Example zfill_ex : zfill 4 (str_nat 12) = "0012".
Proof. reflexivity. Qed.

Example split_words_ex :
  split_words "Hello, big world.  Yes" = ["Hello"; "big"; "world"; "Yes"].
Proof. reflexivity. Qed.
Example split_words_ex2 : split_words "a , b " = ["a"; ""; "b"; ""].
Proof. reflexivity. Qed.
Example ngrams_ex : ngrams ["a"; "b"; "c"] 2 = [["a"; "b"]; ["b"; "c"]].
Proof. reflexivity. Qed.

(** * Reasoning about runs *)

Section Sat.

Context (R : World -> World -> Prop) `{!PreOrder R} (E : Exn -> Prop).

Lemma sat_ret {A} (a : A) : sat R E (ret a).
Proof. intros w; split; [reflexivity | discriminate]. Qed.

Lemma sat_raise {A} e : E e -> sat R E (@raise A e).
Proof. intros He w; split; [reflexivity | cbn; congruence]. Qed.

Lemma sat_lift {A} (r : result A) :
  (forall e, r = Raise e -> E e) -> sat R E (lift r).
Proof. intros He w; split; [reflexivity | exact He]. Qed.

Lemma sat_bind {A B} (m : M A) (k : A -> M B) :
  sat R E m -> (forall a, sat R E (k a)) -> sat R E (bind m k).
Proof.
  intros Hm Hk w. unfold bind. destruct (Hm w) as [Hw He].
  destruct (m w) as [[a|e] w1]; cbn in *.
  - destruct (Hk a w1) as [Hw1 He1]. split; [by etrans | done].
  - split; [done | intros e0 [= <-]; by apply He].
Qed.

Lemma sat_for_each {A S} (xs : list A) (body : A -> S -> M S) (s : S) :
  (forall x s, x ∈ xs -> sat R E (body x s)) -> sat R E (for_each xs body s).
Proof.
  revert s. induction xs as [|x xs IH]; intros s Hb; cbn.
  - apply sat_ret.
  - apply sat_bind.
    + apply Hb. left.
    + intros s'. apply IH. intros y t Hy. apply Hb. by right.
Qed.

Lemma sat_for_each_ {A} (xs : list A) (body : A -> M unit) :
  (forall x, x ∈ xs -> sat R E (body x)) -> sat R E (for_each_ xs body).
Proof. intros Hb. apply sat_for_each. intros x _ Hx. by apply Hb. Qed.

Lemma sat_try_except {A} (body handler : M A) E' :
  sat R E' body -> sat R E handler -> sat R E (try_except body handler).
Proof.
  intros Hb Hh w. unfold try_except. destruct (Hb w) as [Hw _].
  destruct (body w) as [[a|e] w1]; cbn in *.
  - split; [done | discriminate].
  - destruct (Hh w1) as [Hw1 He1]. split; [by etrans | done].
Qed.

Lemma sat_read l : E KeyError -> sat R E (read l).
Proof.
  intros He w. unfold read. destruct (heap w !! l); cbn; split;
    try reflexivity; congruence.
Qed.

Lemma sat_item {A} (xs : list A) i : E IndexError -> sat R E (item xs i).
Proof. intros He. apply sat_lift. destruct (xs !! i); cbn; congruence. Qed.

Lemma sat_isfile p : sat R E (isfile p).
Proof. intros w; split; [reflexivity | discriminate]. Qed.

Lemma sat_read_text p :
  E FileNotFoundError -> E UnicodeDecodeError -> sat R E (read_text p).
Proof.
  intros He Hd w. unfold read_text. destruct (files w !! p) as [[s|]|]; cbn; split;
    try reflexivity; congruence.
Qed.

End Sat.

(** A world relation is kept by a primitive when it is kept by its one
    change of the world. *)
Lemma sat_print R E s :
  (forall w, R w (mkWorld (heap w) (files w) (trace w ++ [Print s]) (entropy w))) ->
  sat R E (print s).
Proof. intros H w; split; [apply H | discriminate]. Qed.

Lemma sat_emit R E c :
  (forall w, R w (mkWorld (heap w) (files w) (trace w ++ [Called c]) (entropy w))) ->
  sat R E (emit c).
Proof. intros H w; split; [apply H | discriminate]. Qed.

Lemma sat_alloc R E d :
  (forall w, R w (mkWorld (heap w ++ [d]) (files w) (trace w) (entropy w))) ->
  sat R E (alloc d).
Proof. intros H w; split; [apply H | discriminate]. Qed.

Lemma sat_adopt R E ds :
  (forall w, R w (mkWorld (heap w ++ ds) (files w) (trace w) (entropy w))) ->
  sat R E (adopt ds).
Proof. intros H w; split; [apply H | discriminate]. Qed.

Lemma sat_write_text R E p s :
  (forall w, R w (mkWorld (heap w) (<[p := Text s]> (files w)) (trace w) (entropy w))) ->
  sat R E (write_text p s).
Proof. intros H w; split; [apply H | discriminate]. Qed.

Lemma sat_update R `{!Reflexive R} (E : Exn -> Prop) l f :
  E KeyError ->
  (forall w d, heap w !! l = Some d ->
     R w (mkWorld (<[l := f d]> (heap w)) (files w) (trace w) (entropy w))) ->
  sat R E (update l f).
Proof.
  intros He H w. unfold update. destruct (heap w !! l) eqn:Hl; cbn; split;
    try discriminate; try congruence; [by apply H | reflexivity].
Qed.

Lemma sat_randbelow R `{!Reflexive R} (E : Exn -> Prop) n :
  (forall w d ds, entropy w = d :: ds ->
     R w (mkWorld (heap w) (files w) (trace w) ds)) ->
  sat R E (randbelow n).
Proof.
  intros H w. unfold randbelow. destruct (entropy w) eqn:Hl; cbn; split;
    try discriminate; [reflexivity | by eapply H].
Qed.

(** ** Worlds that differ by printed lines only *)

#[global] Instance only_prints_preorder : PreOrder only_prints.
Proof.
  split.
  - intros w. repeat split. exists []. by rewrite app_nil_r.
  - intros w1 w2 w3 (Hh & Hf & He & t & Ht & Hp) (Hh' & Hf' & He' & t' & Ht' & Hp').
    repeat split; try congruence.
    exists (t ++ t'). split; [|by apply Forall_app].
    by rewrite Ht', Ht, app_assoc.
Qed.

Lemma only_prints_print s w :
  only_prints w (mkWorld (heap w) (files w) (trace w ++ [Print s]) (entropy w)).
Proof.
  repeat split. exists [Print s]. split; [done|].
  constructor; [by exists s | constructor].
Qed.

Ltac sat_tc :=
  try lazymatch goal with
      | |- PreOrder _ => apply _
      | |- Reflexive _ => apply _
      end.

Ltac sat_step :=
  lazymatch goal with
  | |- sat _ _ (ret _) => apply sat_ret; sat_tc
  | |- sat _ _ (bind _ _) => apply sat_bind; sat_tc; [|intros ?]
  | |- sat _ _ (for_each_ _ _) => apply sat_for_each_; sat_tc; intros ? ?
  | |- sat _ _ (for_each _ _ _) => apply sat_for_each; sat_tc; intros ? ? ?
  | |- sat _ _ (read _) => apply sat_read; sat_tc
  | |- sat _ _ (item _ _) => apply sat_item; sat_tc
  | |- sat _ _ (isfile _) => apply sat_isfile; sat_tc
  | |- sat _ _ (read_text _) => apply sat_read_text; sat_tc
  | |- sat _ _ (if ?b then _ else _) => destruct b
  | |- sat _ _ (match ?x with _ => _ end) => destruct x
  | |- sat _ _ (match ?x with _ => _ end _) => destruct x; cbv beta
  end.

Lemma demo_supercut_only_prints X composition padding :
  sat only_prints no_exit (demo_supercut X composition padding).
Proof.
  unfold demo_supercut.
  repeat (sat_step; try done); apply sat_print, only_prints_print.
Qed.

(** ** Stepping through a run *)

Lemma bind_ok {A B} (m : M A) (k : A -> M B) w a w' :
  m w = (Ok a, w') -> bind m k w = k a w'.
Proof. unfold bind. by intros ->. Qed.

Lemma bind_raise {A B} (m : M A) (k : A -> M B) w e w' :
  m w = (Raise e, w') -> bind m k w = (Raise e, w').
Proof. unfold bind. by intros ->. Qed.

Lemma read_ok l w d : heap w !! l = Some d -> read l w = (Ok d, w).
Proof. unfold read. by intros ->. Qed.

Lemma update_ok l f w d :
  heap w !! l = Some d ->
  update l f w = (Ok tt, mkWorld (<[l := f d]> (heap w)) (files w) (trace w) (entropy w)).
Proof. unfold update. by intros ->. Qed.

Lemma for_each__cons {A} (x : A) xs body w :
  for_each_ (x :: xs) body w = (body x >> for_each_ xs body) w.
Proof.
  unfold for_each_; cbn. unfold bind.
  by destruct (body x w) as [[[]|e] w'].
Qed.

(** ** Padding and sync *)

Lemma adjust_run composition sync padding w :
  NoDup composition -> valid composition w ->
  exists h',
    adjust composition sync padding w
      = (Ok tt, mkWorld h' (files w) (trace w) (entropy w)) /\
    length h' = length (heap w) /\
    (forall l, l ∉ composition -> h' !! l = heap w !! l) /\
    (forall l d, l ∈ composition -> heap w !! l = Some d ->
       h' !! l = Some (adjusted sync padding d)).
Proof.
  unfold adjust. revert w.
  induction composition as [|c cs IH]; intros w Hnd Hv.
  - exists (heap w). destruct w. repeat split; try done.
    intros l d Hl. by apply elem_of_nil in Hl.
  - apply NoDup_cons in Hnd as [Hc Hnd].
    destruct (lookup_lt_is_Some_2 (heap w) c) as [d Hd]; [apply Hv; left|].
    rewrite for_each__cons.
    set (w1 := mkWorld (<[c := set_start (start d + sync - padding)%float d]> (heap w))
                       (files w) (trace w) (entropy w)).
    set (w2 := mkWorld (<[c := adjusted sync padding d]> (heap w))
                       (files w) (trace w) (entropy w)).
    assert (Hstep : (update c (fun d => set_start (start d + sync - padding)%float d) >>
                     update c (fun d => set_end (end_ d + sync + padding)%float d)) w
                    = (Ok tt, w2)).
    { rewrite (bind_ok _ _ w tt w1) by exact (update_ok c _ w d Hd).
      rewrite (update_ok _ _ w1 (set_start (start d + sync - padding)%float d)).
      - unfold w1, w2; cbn. by rewrite list_insert_insert_eq.
      - cbn. apply list_lookup_insert_eq. by eapply lookup_lt_Some. }
    rewrite (bind_ok _ _ w tt w2 Hstep).
    destruct (IH w2) as (h' & Hrun & Hlen & Hout & Hin); [done| |].
    { intros l Hl. cbn. rewrite length_insert. apply Hv. by right. }
    exists h'. subst w1 w2. cbn [heap files trace entropy] in *.
    rewrite length_insert in Hlen.
    split; [exact Hrun|]. split; [done|]. split.
    + intros l Hl. apply not_elem_of_cons in Hl as [Hne Hl].
      rewrite Hout by done. by apply list_lookup_insert_ne.
    + intros l d' Hl Hd'. apply elem_of_cons in Hl as [->|Hl].
      * rewrite Hout by done. assert (d' = d) as -> by congruence.
        apply list_lookup_insert_eq. by eapply lookup_lt_Some.
      * apply Hin; [done|]. rewrite list_lookup_insert_ne; [done|].
        intros ->. done.
Qed.

(** C2, counterexample. One cue from 1.0 to 2.0, a sync of 200 ms and a
    padding of 100 ms: the adjusted cue runs from 1.0999999999999999 to
    2.3000000000000003, which is 1.2000000000000004 long, and not the 1.2
    that its duration plus twice the padding makes. *)
Lemma durations_expanded_fails :
  ~ durations_expanded [0] (200 / 1000)%float (100 / 1000)%float one_cue.
Proof.
  intros H.
  specialize (H _ eq_refl 0 _ _ (list_elem_of_here _ _) eq_refl eq_refl).
  vm_compute in H. discriminate H.
Qed.

(** C2, amended. The padding and sync step of [videogrep] sets, for every
    segment of a composition of distinct dicts, [start] to
    [start + sync - padding] and [end] to [end + sync + padding], each sum
    and difference rounded to the nearest float, and leaves the other fields
    alone; the new duration is the difference of these two floats. *)
Theorem adjust_expands composition sync padding w :
  NoDup composition -> valid composition w ->
  exists w',
    adjust composition sync padding w = (Ok tt, w') /\
    forall l d, l ∈ composition -> heap w !! l = Some d ->
      exists d', heap w' !! l = Some d' /\
        start d' = (start d + sync - padding)%float /\
        end_ d' = (end_ d + sync + padding)%float /\
        file d' = file d /\ time d' = time d /\ line d' = line d /\
        words d' = words d /\
        duration d' = ((end_ d + sync + padding) - (start d + sync - padding))%float.
Proof.
  intros Hnd Hv.
  destruct (adjust_run composition sync padding w Hnd Hv) as (h' & Hrun & _ & _ & Hin).
  eexists; split; [exact Hrun|].
  intros l d Hl Hd. exists (adjusted sync padding d).
  split; [by apply Hin|]. by repeat split.
Qed.

Lemma adjust_expands_witness :
  exists w',
    adjust [0; 1] (200 / 1000)%float (100 / 1000)%float back_to_back = (Ok tt, w') /\
    forall l d, l ∈ [0; 1] -> heap back_to_back !! l = Some d ->
      exists d', heap w' !! l = Some d' /\
        start d' = (start d + 200 / 1000 - 100 / 1000)%float /\
        end_ d' = (end_ d + 200 / 1000 + 100 / 1000)%float /\
        file d' = file d /\ time d' = time d /\ line d' = line d /\
        words d' = words d /\
        duration d'
        = ((end_ d + 200 / 1000 + 100 / 1000) - (start d + 200 / 1000 - 100 / 1000))%float.
Proof.
  apply adjust_expands.
  - apply NoDup_cons. split; [|apply NoDup_singleton].
    rewrite list_elem_of_singleton. lia.
  - intros l Hl. cbn. apply elem_of_cons in Hl as [->|Hl]; [lia|].
    apply list_elem_of_singleton in Hl as ->. lia.
Defined.

(** ** The overlap loop of [create_supercut] *)

Lemma corrected_file p c n : file (corrected p c n) = file n.
Proof. unfold corrected. by destruct (_ && _). Qed.
Lemma corrected_end p c n : end_ (corrected p c n) = end_ n.
Proof. unfold corrected. by destruct (_ && _). Qed.

Lemma corrected_indep p c c' n :
  file c' = file c -> end_ c' = end_ c -> corrected p c' n = corrected p c n.
Proof. unfold corrected. by intros -> ->. Qed.

Lemma correct_overlaps_cons2 a b rest padding w :
  correct_overlaps (a :: b :: rest) padding w
  = ((let! n := read b in
      let! c := read a in
      if String.eqb (file n) (file c) && (start n <? end_ c)%float
      then update b (fun n => set_start (start n + padding)%float n)
      else ret tt) >> correct_overlaps (b :: rest) padding) w.
Proof.
  unfold correct_overlaps. cbn [zip zip_with drop].
  by rewrite for_each__cons.
Qed.

Lemma correct_overlaps_run composition padding w :
  NoDup composition -> valid composition w ->
  exists h',
    correct_overlaps composition padding w
      = (Ok tt, mkWorld h' (files w) (trace w) (entropy w)) /\
    length h' = length (heap w) /\
    (forall l, l ∉ drop 1 composition -> h' !! l = heap w !! l) /\
    (forall i a b da db,
       composition !! i = Some a -> composition !! S i = Some b ->
       heap w !! a = Some da -> heap w !! b = Some db ->
       h' !! b = Some (corrected padding da db)).
Proof.
  revert w. induction composition as [|a cs IH]; intros w Hnd Hv.
  - exists (heap w). destruct w. repeat split; try done.
  - destruct cs as [|b rest].
    + exists (heap w). destruct w. repeat split; done.
    + apply NoDup_cons in Hnd as [Ha Hnd].
      destruct (lookup_lt_is_Some_2 (heap w) a) as [da Hda]; [apply Hv; left|].
      destruct (lookup_lt_is_Some_2 (heap w) b) as [db Hdb];
        [apply Hv; right; left|].
      assert (Hab : a <> b) by (intros ->; apply Ha; left).
      set (w1 := mkWorld (<[b := corrected padding da db]> (heap w))
                         (files w) (trace w) (entropy w)).
      rewrite correct_overlaps_cons2.
      erewrite (bind_ok _ _ w tt w1); cycle 1.
      { erewrite bind_ok by by apply read_ok.
        erewrite bind_ok by by apply read_ok.
        unfold w1, corrected. destruct (_ && _).
        - exact (update_ok b _ w db Hdb).
        - unfold ret. destruct w; cbn in *. by rewrite list_insert_id. }
      destruct (IH w1) as (h' & Hrun & Hlen & Hout & Hin); [done| |].
      { intros l Hl. cbn. rewrite length_insert. apply Hv. by right. }
      assert (Hb : b ∉ rest) by by apply NoDup_cons in Hnd as [? _].
      exists h'. subst w1. cbn [heap files trace entropy drop] in *.
      rewrite length_insert in Hlen.
      split; [exact Hrun|]. split; [done|]. split.
      * intros l Hl. apply not_elem_of_cons in Hl as [Hne Hl].
        rewrite Hout by done. by apply list_lookup_insert_ne.
      * intros [|i] x y dx dy Hx Hy Hdx Hdy; cbn in Hx, Hy.
        -- assert (x = a) as -> by congruence. assert (y = b) as -> by congruence.
           assert (dx = da) as -> by congruence. assert (dy = db) as -> by congruence.
           rewrite Hout by done. apply list_lookup_insert_eq. by eapply lookup_lt_Some.
        -- assert (Hyr : y ∈ rest).
           { destruct i; cbn in Hy; eapply list_elem_of_lookup_2; eauto. }
           assert (Hyb : y <> b) by (intros ->; done).
           assert (Hy1 : <[b := corrected padding da db]> (heap w) !! y = Some dy)
             by by rewrite list_lookup_insert_ne.
           destruct (decide (x = b)) as [->|Hxb].
           ++ assert (dx = db) as -> by congruence.
              rewrite (Hin i b y (corrected padding da db) dy Hx Hy); [|
                apply list_lookup_insert_eq; by eapply lookup_lt_Some | done].
              f_equal. apply corrected_indep;
                [apply corrected_file | apply corrected_end].
           ++ apply (Hin i x y dx dy Hx Hy); [|done].
              by rewrite list_lookup_insert_ne.
Qed.

(** ** What rendering and export leave alone *)

#[global] Instance fields_kept_preorder : PreOrder fields_kept.
Proof.
  split.
  - intros w. split; [done|]. intros l d Hd. by exists d.
  - intros w1 w2 w3 [Hl H] [Hl' H']. split; [congruence|].
    intros l d Hd. destruct (H l d Hd) as (d1 & Hd1 & ? & ? & ? & ? & ?).
    destruct (H' l d1 Hd1) as (d2 & Hd2 & ? & ? & ? & ? & ?).
    exists d2. split; [done|]. repeat split; congruence.
Qed.

Lemma fields_kept_heap w w' : heap w' = heap w -> fields_kept w w'.
Proof. intros H. split; rewrite H; [done|]. intros l d Hd. by exists d. Qed.

Lemma fields_kept_set_start w l d q :
  heap w !! l = Some d ->
  fields_kept w (mkWorld (<[l := set_start q d]> (heap w)) (files w) (trace w) (entropy w)).
Proof.
  intros Hd. split; cbn; [apply length_insert|].
  intros l' d' Hd'. destruct (decide (l = l')) as [<-|Hne].
  - assert (d' = d) as -> by congruence. exists (set_start q d).
    split; [|done]. apply list_lookup_insert_eq. by eapply lookup_lt_Some.
  - exists d'. split; [|done]. by rewrite list_lookup_insert_ne.
Qed.

#[global] Instance same_heap_preorder : PreOrder same_heap.
Proof. split; [done|]. intros w1 w2 w3; unfold same_heap; congruence. Qed.

Lemma of_option_no_exit {A} e0 (o : option A) e :
  no_exit e0 -> of_option e0 o = Raise e -> no_exit e.
Proof. destruct o; cbn; [done|]. by intros ? [= <-]. Qed.

Create HintDb prog.
#[local] Hint Unfold demo_supercut correct_overlaps filenames cuts call
  create_supercut batch_turn create_supercut_in_batches split_clips get_fps get_duration
  make_edl make_edl_loop make_edl_step make_otio output shuffle : prog.

(** The primitives: [tac] shows that the one change of the world they make
    is within the relation. *)
Ltac sat_prim tac :=
  idtac;
  lazymatch goal with
  | |- sat _ _ (print _) => apply sat_print; intros; tac
  | |- sat _ _ (emit _) => apply sat_emit; intros; tac
  | |- sat _ _ (write_text _ _) => apply sat_write_text; intros; tac
  | |- sat _ _ (alloc _) => apply sat_alloc; intros; tac
  | |- sat _ _ (adopt _) => apply sat_adopt; intros; tac
  | |- sat _ _ (randbelow _) => apply sat_randbelow; [sat_tc | intros; tac]
  | |- sat _ _ (update _ _) => apply sat_update; sat_tc; [done | intros; tac]
  | |- sat _ _ (raise _) => apply sat_raise; sat_tc
  | |- sat _ _ (lift _) =>
      apply sat_lift; sat_tc;
      try (intros ? ?; eapply of_option_no_exit; [|eassumption]; done)
  | |- sat _ _ (try_except _ _) =>
      eapply sat_try_except with (E' := fun _ => True); sat_tc
  end.

Ltac same_heap_tac := exact eq_refl.
Ltac fields_kept_tac :=
  first [ apply fields_kept_heap; reflexivity | by apply fields_kept_set_start ].

Ltac sat_go prim :=
  autounfold with prog;
  repeat first [ sat_step | prim | done | exact I ].


Lemma output_fields_kept X composition a padding :
  sat fields_kept no_exit (output X composition a padding).
Proof. sat_go ltac:(sat_prim fields_kept_tac). Qed.

Lemma correct_overlaps_fields_kept composition padding :
  sat fields_kept no_exit (correct_overlaps composition padding).
Proof. sat_go ltac:(sat_prim fields_kept_tac). Qed.

(** Without rendering the store stays as it is. *)
Lemma output_same_heap X composition a padding :
  test a = true \/ lower (splitext (outputfile a)).2 = ".otio" \/ export_clips a = true ->
  sat same_heap no_exit (output X composition a padding).
Proof.
  intros H. unfold output.
  destruct (test a) eqn:Ht.
  { sat_go ltac:(sat_prim same_heap_tac). }
  destruct H as [H|[H|H]]; [done| |].
  - rewrite H. cbn [String.eqb Ascii.eqb Bool.eqb].
    sat_go ltac:(sat_prim same_heap_tac).
  - rewrite H.
    apply sat_bind; [apply _| |intros _].
    + sat_go ltac:(sat_prim same_heap_tac).
    + destruct (String.eqb _ _);
        sat_go ltac:(sat_prim same_heap_tac).
Qed.

(** ** Overlap correction and writes after the adjustment *)

(** C1, counterexample. Two back-to-back cues padded by 500 ms: the loop
    moves the later start from 1.5 to 2.0, still before the earlier end 2.5. *)
Lemma overlaps_removed_fails :
  ~ overlaps_removed [0; 1] (500 / 1000)%float padded.
Proof.
  intros H.
  destruct (H _ eq_refl 0 0 1 _ _ eq_refl eq_refl eq_refl eq_refl eq_refl)
    as (da' & db' & Ha & Hb & Hle).
  - vm_compute. reflexivity.
  - vm_compute in Ha, Hb. injection Ha as <-. injection Hb as <-.
    vm_compute in Hle. discriminate Hle.
Qed.

(** C1, amended. For distinct dicts, the loop advances by [padding], in one
    float addition, the start of every segment that overlapped its
    predecessor of the same file, and leaves that predecessor's end alone;
    so the pair is free of overlap afterwards exactly when that end is not
    after the sum. *)
Theorem correct_overlaps_advances composition padding w :
  NoDup composition -> valid composition w ->
  exists w',
    correct_overlaps composition padding w = (Ok tt, w') /\
    forall i a b da db,
      composition !! i = Some a -> composition !! S i = Some b ->
      heap w !! a = Some da -> heap w !! b = Some db ->
      file db = file da -> (start db <? end_ da)%float = true ->
      exists da' db', heap w' !! a = Some da' /\ heap w' !! b = Some db' /\
        end_ da' = end_ da /\ start db' = (start db + padding)%float /\
        end_ db' = end_ db /\
        (end_ da' <=? start db')%float = (end_ da <=? start db + padding)%float.
Proof.
  intros Hnd Hv.
  destruct (correct_overlaps_run composition padding w Hnd Hv)
    as (h' & Hrun & _ & _ & Hpairs).
  eexists; split; [exact Hrun|].
  intros i a b da db Hi HSi Hda Hdb Hfile Hlt.
  destruct (correct_overlaps_fields_kept composition padding w) as [[_ Hkept] _].
  rewrite Hrun in Hkept; cbn [snd heap] in Hkept.
  destruct (Hkept a da Hda) as (da' & Hda' & _ & _ & Hend & _).
  exists da', (set_start (start db + padding)%float db). cbn [heap].
  split; [done|]. split.
  - rewrite (Hpairs i a b da db Hi HSi Hda Hdb). unfold corrected.
    by rewrite Hfile, String.eqb_refl, Hlt.
  - split; [done|]. split; [done|]. split; [done|]. by rewrite Hend.
Qed.

Lemma correct_overlaps_advances_witness :
  exists w',
    correct_overlaps [0; 1] (500 / 1000)%float padded = (Ok tt, w') /\
    forall i a b da db,
      [0; 1] !! i = Some a -> [0; 1] !! S i = Some b ->
      heap padded !! a = Some da -> heap padded !! b = Some db ->
      file db = file da -> (start db <? end_ da)%float = true ->
      exists da' db', heap w' !! a = Some da' /\ heap w' !! b = Some db' /\
        end_ da' = end_ da /\ start db' = (start db + 500 / 1000)%float /\
        end_ db' = end_ db /\
        (end_ da' <=? start db')%float = (end_ da <=? start db + 500 / 1000)%float.
Proof.
  apply correct_overlaps_advances.
  - apply NoDup_cons. split; [|apply NoDup_singleton].
    rewrite list_elem_of_singleton. lia.
  - intros l Hl. change (l < 2).
    apply elem_of_cons in Hl as [->|Hl]; [lia|].
    apply list_elem_of_singleton in Hl as ->. lia.
Defined.


(** Whatever the composition (even with a dict listed twice), the branches
    of [output] keep the file, time, end and line of every dict, and write
    nothing at all on the demo, clip export and timeline paths. *)
Lemma output_frame X composition a padding w :
  let w' := (output X composition a padding w).2 in
  length (heap w') = length (heap w) /\
  (forall l d, heap w !! l = Some d ->
     exists d', heap w' !! l = Some d' /\
       file d' = file d /\ time d' = time d /\ end_ d' = end_ d /\ line d' = line d /\
       words d' = words d) /\
  (test a = true \/ lower (splitext (outputfile a)).2 = ".otio" \/ export_clips a = true ->
   heap w' = heap w).
Proof.
  cbn zeta.
  destruct (output_fields_kept X composition a padding w) as [[Hlen Hk] _].
  split; [done|]. split; [exact Hk|].
  intros H. by destruct (output_same_heap X composition a padding H w) as [Hh _].
Qed.

Lemma demo_supercut_fold X composition padding prefix suffix w :
  composition = prefix ++ suffix -> valid composition w ->
  for_each_ (enumerate_from (length prefix) suffix) (fun '(i, c) =>
    let! d := read c in
    let ln := line d in
    let st := start d in
    let en := end_ d in
    let! st :=
      (if (0 <? i)%nat then
         let! prev := item composition (i - 1) in
         let! pd := read prev in
         if String.eqb (file pd) (file d) && (st <? end_ pd)%float
         then ret (st + padding)%float else ret st
       else ret st) in
    print (format_2f X st +:+ " to " +:+ format_2f X en +:+ ":"
           +:+ String "009" ln)) w
  = (Ok tt,
     mkWorld (heap w) (files w)
       (trace w ++
        map Print (imap (fun i => demo_line X (heap w) composition padding
                                    (length prefix + i)) suffix))
       (entropy w)).
Proof.
  intros HC Hv. revert prefix w HC Hv.
  induction suffix as [|c rest IH]; intros prefix w HC Hv.
  - cbn. rewrite app_nil_r. by destruct w.
  - cbn [enumerate_from]. rewrite for_each__cons.
    destruct (lookup_lt_is_Some_2 (heap w) c) as [d Hd].
    { apply Hv. rewrite HC. apply elem_of_app. right. left. }
    set (line0 := demo_line X (heap w) composition padding (length prefix + 0) c).
    set (w1 := mkWorld (heap w) (files w) (trace w ++ [Print line0]) (entropy w)).
    erewrite (bind_ok _ _ w tt w1).
    + replace (S (length prefix)) with (length (prefix ++ [c]))
        by (rewrite length_app; cbn; lia).
      etrans; [apply (IH (prefix ++ [c]) w1); [by rewrite <- app_assoc|exact Hv]|].
      rewrite imap_cons. cbn [map heap files trace entropy w1].
      rewrite <- app_assoc. cbn [app].
      rewrite (imap_ext
                 (fun i => demo_line X (heap w) composition padding (length (prefix ++ [c]) + i))
                 ((fun i => demo_line X (heap w) composition padding (length prefix + i)) ∘ S)
                 rest); [done|].
      intros i x _. cbn. f_equal. rewrite length_app. cbn. lia.
    + rewrite (bind_ok _ _ w d w) by by apply read_ok.
      subst line0 w1. unfold demo_line. rewrite Hd, Nat.add_0_r.
      destruct (length prefix) as [|j] eqn:Hlen; cbn [Nat.ltb Nat.leb demo_start].
      * by erewrite bind_ok by reflexivity.
      * destruct (lookup_lt_is_Some_2 composition j) as [prev Hprev].
        { rewrite HC, length_app. lia. }
        destruct (lookup_lt_is_Some_2 (heap w) prev) as [pd Hpd].
        { apply Hv. by eapply list_elem_of_lookup_2. }
        rewrite Hprev. cbn [mbind option_bind]. rewrite Hpd.
        erewrite bind_ok; [reflexivity|].
        replace (S j - 1) with j by lia.
        erewrite bind_ok by (unfold item, lift; rewrite Hprev; reflexivity).
        erewrite bind_ok by by apply read_ok.
        by destruct (_ && _).
Qed.

(** C9. [demo_supercut] writes to no segment: whatever the composition and
    the padding, the store after the call is the store before it, and so are
    the files; the world differs by printed lines only.  When the dicts of
    the composition are in the store, the call returns and the lines printed
    are those of [demo_line], in which alone the padded start shows. *)
Theorem demo_supercut_frame X composition padding w :
  let w' := (demo_supercut X composition padding w).2 in
  heap w' = heap w /\
  (forall l d, heap w !! l = Some d ->
     exists d', heap w' !! l = Some d' /\
       file d' = file d /\ start d' = start d /\ end_ d' = end_ d /\ line d' = line d) /\
  files w' = files w /\ entropy w' = entropy w /\
  (exists printed, trace w' = trace w ++ printed /\ Forall is_print printed) /\
  (valid composition w ->
   demo_supercut X composition padding w
   = (Ok tt,
      mkWorld (heap w) (files w)
        (trace w ++ map Print (imap (demo_line X (heap w) composition padding) composition))
        (entropy w))).
Proof.
  cbn zeta.
  destruct (demo_supercut_only_prints X composition padding w)
    as [(Hh & Hf & He & Ht) _].
  split; [done|]. split; [|split; [done|split; [done|split; [done|]]]].
  - intros l d Hd. exists d. by rewrite Hh.
  - intros Hv. apply (demo_supercut_fold X composition padding [] composition w eq_refl Hv).
Qed.

(** ** The record timeline of [make_edl] *)

Lemma SFcompare_finite_refl s m e :
  SFcompare (S754_finite s m e) (S754_finite s m e) = Some Eq.
Proof.
  cbn. destruct s; rewrite Z.compare_refl, Pos.compare_cont_refl; reflexivity.
Qed.

Lemma SFeqb_refl x : x <> S754_nan -> SFeqb x x = true.
Proof.
  unfold SFeqb. destruct x as [s|s| |s m e]; intros H.
  - by destruct s.
  - by destruct s.
  - done.
  - by rewrite SFcompare_finite_refl.
Qed.

(** Adding a float to the 0 from which the record timeline starts gives
    the same number. *)
Lemma add_zero_same (d : float) : same_number (0 + d) d.
Proof.
  unfold same_number, is_nan. rewrite !FloatAxioms.eqb_spec, FloatAxioms.add_spec.
  change (Prim2SF 0) with (S754_zero false).
  destruct (Prim2SF d) as [s|s| |s m e] eqn:Hd.
  - left. by destruct s.
  - left. by destruct s.
  - right. done.
  - left. change (SF64add (S754_zero false) (S754_finite s m e)) with (S754_finite s m e).
    apply SFeqb_refl. done.
Qed.

Lemma contiguous_next r0 calls i a b :
  contiguous r0 calls -> calls !! i = Some a -> calls !! S i = Some b ->
  rec_in b = rec_out a.
Proof.
  revert r0 i. induction calls as [|x calls IH]; intros r0 i Hc Ha Hb; [done|].
  destruct Hc as (_ & _ & Hc). destruct i as [|i]; cbn in Ha, Hb.
  - injection Ha as ->. destruct calls as [|y calls]; [done|].
    injection Hb as ->. by destruct Hc as (-> & _).
  - eapply IH; eauto.
Qed.

Lemma contiguous_each r0 calls i a :
  contiguous r0 calls -> calls !! i = Some a ->
  rec_out a = (rec_in a + (time_out a - time_in a))%float.
Proof.
  revert r0 i. induction calls as [|x calls IH]; intros r0 i Hc Ha; [done|].
  destruct Hc as (_ & Hx & Hc). destruct i as [|i]; cbn in Ha.
  - by injection Ha as <-.
  - eapply IH; eauto.
Qed.

Lemma get_fps_run X f w :
  exists fps w', get_fps X f w = (Ok fps, w') /\ heap w' = heap w.
Proof.
  unfold get_fps. destruct (probe_fps X f) as [fps|].
  - by exists fps, w.
  - eexists _, _. split; [reflexivity|done].
Qed.

Lemma make_edl_step_run X index timestamp st w d :
  heap w !! timestamp = Some d ->
  exists st' w' a,
    make_edl_step X index timestamp st w = (Ok st', w') /\ heap w' = heap w /\
    edl_calls st' = edl_calls st ++ [a] /\
    edl_out st' = edl_out st +:+ make_edl_segment X a /\
    edl_rec_in st' = rec_out a /\ rec_in a = edl_rec_in st /\
    rec_out a = (rec_in a + (time_out a - time_in a))%float /\
    time_in a = start d /\ time_out a = end_ d /\ filename a = file d.
Proof.
  intros Hd. unfold make_edl_step.
  rewrite (bind_ok _ _ w d w) by by apply read_ok.
  destruct (fpses st !! file d) as [fps|] eqn:Hf.
  - erewrite bind_ok by reflexivity.
    erewrite bind_ok by (unfold lift; rewrite Hf; reflexivity).
    eexists _, _, _. split; [reflexivity|]. cbn. by repeat split.
  - destruct (get_fps_run X (file d) w) as (fps & w' & Hrun & Hh).
    erewrite bind_ok; cycle 1.
    { erewrite bind_ok by exact Hrun. reflexivity. }
    erewrite bind_ok by (unfold lift; rewrite lookup_insert_eq; reflexivity).
    eexists _, _, _. split; [reflexivity|]. cbn. by repeat split.
Qed.

Lemma append_nil_r s : s +:+ "" = s.
Proof. induction s; cbn; congruence. Qed.

Lemma append_assoc a b c : (a +:+ b) +:+ c = a +:+ b +:+ c.
Proof. induction a; cbn; congruence. Qed.

Lemma make_edl_fold X timestamps k st w :
  valid timestamps w ->
  exists st' w' calls,
    for_each (enumerate_from k timestamps)
      (fun '(index, timestamp) st => make_edl_step X index timestamp st) st w
      = (Ok st', w') /\
    heap w' = heap w /\
    edl_calls st' = edl_calls st ++ calls /\
    edl_out st' = edl_out st +:+ String.concat "" (map (make_edl_segment X) calls) /\
    contiguous (edl_rec_in st) calls /\
    Forall2 (call_of (heap w)) timestamps calls.
Proof.
  revert k st w. induction timestamps as [|t ts IH]; intros k st w Hv.
  - exists st, w, []. cbn. rewrite app_nil_r.
    repeat split; try done. by rewrite append_nil_r.
  - destruct (lookup_lt_is_Some_2 (heap w) t) as [d Hd]; [apply Hv; left|].
    destruct (make_edl_step_run X k t st w d Hd)
      as (st1 & w1 & a & Hrun & Hh & Hcalls & Hout & Hrec & Hin & Hro & Hti & Hto & Hfn).
    destruct (IH (S k) st1 w1) as (st' & w' & calls & Hrun' & Hh' & Hcalls' & Hout' & Hc & Hall).
    { intros l Hl. rewrite Hh. apply Hv. by right. }
    exists st', w', (a :: calls). cbn [enumerate_from for_each].
    rewrite (bind_ok _ _ w st1 w1 Hrun).
    split; [exact Hrun'|]. split; [congruence|]. split.
    { rewrite Hcalls', Hcalls. by rewrite <- app_assoc. }
    split.
    { rewrite Hout', Hout. cbn [map String.concat].
      rewrite append_assoc. f_equal.
      destruct calls as [|b calls]; cbn [map String.concat String.append];
        [by rewrite append_nil_r | done]. }
    split.
    { cbn [contiguous]. rewrite Hrec in Hc. by repeat split. }
    constructor.
    + by exists d.
    + by rewrite <- Hh.
Qed.

(** C4. In [make_edl] the record-in of the first segment is 0, the
    record-in of every later segment is the record-out of the segment before
    it, and the record-out of each segment is its record-in plus its
    duration [end - start]; so the record-out of the first segment is
    [0 + duration], the same number as its duration.  The calls listed are
    those whose text makes up the file. *)
Theorem make_edl_contiguous X timestamps name w :
  valid timestamps w ->
  exists st w',
    make_edl_loop X timestamps name w = (Ok st, w') /\
    make_edl X timestamps name w
      = (Ok tt, mkWorld (heap w') (<[name := Text (edl_out st)]> (files w')) (trace w') (entropy w')) /\
    edl_out st
      = ("TITLE: " +:+ name +:+ nl +:+ "FCM: NON-DROP FRAME" +:+ nl +:+ nl)
        +:+ String.concat "" (map (make_edl_segment X) (edl_calls st)) /\
    length (edl_calls st) = length timestamps /\
    (forall a, edl_calls st !! 0 = Some a ->
       rec_in a = 0%float /\ rec_out a = (0 + (time_out a - time_in a))%float /\
       same_number (rec_out a) (time_out a - time_in a)) /\
    (forall i a b, edl_calls st !! i = Some a -> edl_calls st !! S i = Some b ->
       rec_in b = rec_out a) /\
    (forall i a, edl_calls st !! i = Some a ->
       rec_out a = (rec_in a + (time_out a - time_in a))%float /\
       exists l d, timestamps !! i = Some l /\ heap w !! l = Some d /\
                   time_in a = start d /\ time_out a = end_ d).
Proof.
  intros Hv. unfold make_edl, make_edl_loop, enumerate.
  destruct (make_edl_fold X timestamps 0
              (mkEdlState ∅ ("TITLE: " +:+ name +:+ nl +:+ "FCM: NON-DROP FRAME" +:+ nl +:+ nl)
                          0%float []) w Hv)
    as (st & w' & calls & Hrun & Hh & Hcalls & Hout & Hc & Hall).
  cbn [edl_calls edl_out edl_rec_in app] in Hcalls, Hout, Hc.
  exists st, w'. rewrite Hcalls.
  split; [exact Hrun|]. split; [by rewrite (bind_ok _ _ _ _ _ Hrun)|].
  split; [exact Hout|].
  split; [symmetry; by eapply Forall2_length|].
  split; [|split].
  - intros a Ha. destruct calls as [|x calls]; [done|].
    injection Ha as ->. destruct Hc as (Hin & Hro & _).
    split; [done|]. rewrite Hro, Hin. split; [done|]. apply add_zero_same.
  - intros i a b. by apply (contiguous_next 0%float).
  - intros i a Ha. split; [by eapply (contiguous_each 0%float)|].
    destruct (Forall2_lookup_r _ _ _ _ _ Hall Ha) as (l & Hl & d & Hd & Hti & Hto & _).
    by exists l, d.
Qed.

Lemma make_edl_contiguous_witness :
  exists st w',
    make_edl_loop sample_externals [0; 1] "supercut.edl" back_to_back = (Ok st, w') /\
    make_edl sample_externals [0; 1] "supercut.edl" back_to_back
      = (Ok tt, mkWorld (heap w') (<["supercut.edl" := Text (edl_out st)]> (files w'))
                        (trace w') (entropy w')) /\
    edl_out st
      = ("TITLE: " +:+ "supercut.edl" +:+ nl +:+ "FCM: NON-DROP FRAME" +:+ nl +:+ nl)
        +:+ String.concat "" (map (make_edl_segment sample_externals) (edl_calls st)) /\
    length (edl_calls st) = length [0; 1] /\
    (forall a, edl_calls st !! 0 = Some a ->
       rec_in a = 0%float /\ rec_out a = (0 + (time_out a - time_in a))%float /\
       same_number (rec_out a) (time_out a - time_in a)) /\
    (forall i a b, edl_calls st !! i = Some a -> edl_calls st !! S i = Some b ->
       rec_in b = rec_out a) /\
    (forall i a, edl_calls st !! i = Some a ->
       rec_out a = (rec_in a + (time_out a - time_in a))%float /\
       exists l d, [0; 1] !! i = Some l /\ heap back_to_back !! l = Some d /\
                   time_in a = start d /\ time_out a = end_ d).
Proof.
  apply make_edl_contiguous.
  intros l Hl. change (l < 2).
  apply elem_of_cons in Hl as [->|Hl]; [lia|].
  apply list_elem_of_singleton in Hl as ->. lia.
Defined.

(** ** Truncation and shuffle *)

Lemma swap_Permutation {A} i j (x : list A) : swap i j x ≡ₚ x.
Proof.
  unfold swap. destruct (x !! i) as [a|] eqn:Hi; [|done].
  destruct (x !! j) as [b|] eqn:Hj; [|done].
  by apply Permutation_insert_swap.
Qed.

Lemma draws_only_refl w : draws_only w w.
Proof. repeat split. by exists []. Qed.

Lemma draws_only_trans w1 w2 w3 :
  draws_only w1 w2 -> draws_only w2 w3 -> draws_only w1 w3.
Proof.
  intros (Hh & Hf & Ht & u & Hu) (Hh' & Hf' & Ht' & u' & Hu').
  repeat split; try congruence. exists (u ++ u'). by rewrite Hu, Hu', app_assoc.
Qed.

Lemma randbelow_run n w :
  exists j w', randbelow n w = (Ok j, w') /\ draws_only w w'.
Proof.
  unfold randbelow. destruct (entropy w) as [|d ds] eqn:He.
  - exists 0, w. split; [done|apply draws_only_refl].
  - eexists _, _. split; [reflexivity|]. repeat split. by exists [d].
Qed.

Lemma shuffle_fold {A} (idxs : list nat) (x : list A) w :
  exists x' w',
    for_each idxs (fun i x => let! j := randbelow (i + 1) in ret (swap i j x)) x w
      = (Ok x', w') /\
    x' ≡ₚ x /\ draws_only w w'.
Proof.
  revert x w. induction idxs as [|i idxs IH]; intros x w.
  - exists x, w. split; [done|]. split; [done|apply draws_only_refl].
  - destruct (randbelow_run (i + 1) w) as (j & w1 & Hj & Hw1).
    destruct (IH (swap i j x) w1) as (x' & w' & Hrun & Hp & Hw').
    exists x', w'. cbn [for_each].
    erewrite bind_ok; [|by erewrite bind_ok by exact Hj].
    split; [exact Hrun|]. split.
    + by rewrite Hp, swap_Permutation.
    + by eapply draws_only_trans.
Qed.

Lemma shuffle_run {A} (x : list A) w :
  exists x' w', shuffle x w = (Ok x', w') /\ x' ≡ₚ x /\ draws_only w w'.
Proof. apply shuffle_fold. Qed.


Lemma arrange_run composition k randomize w :
  exists C' w',
    arrange composition k randomize w = (Ok C', w') /\
    C' ≡ₚ truncate composition k /\ draws_only w w' /\
    (randomize = false -> C' = truncate composition k /\ w' = w).
Proof.
  unfold arrange. destruct randomize.
  - destruct (shuffle_run (truncate composition k) w) as (C' & w' & Hrun & Hp & Hw).
    exists C', w'. split; [exact Hrun|]. split; [done|]. split; [done|]. intros [=].
  - eexists _, w. split; [reflexivity|]. split; [done|].
    split; [apply draws_only_refl|done].
Qed.

(** C3. For [maxclips = k > 0] the truncation keeps the first
    [min k |C|] segments in their order; the shuffle, when asked for, comes
    after it and permutes the truncated sequence, touching neither the
    segments nor the files; without it the truncated sequence goes on as it
    is. *)
Theorem truncate_then_shuffle composition k randomize w :
  (0 < k)%Z ->
  let C := truncate composition k in
  C = take (Z.to_nat k) composition /\
  length C = Nat.min (Z.to_nat k) (length composition) /\
  (forall i, i < length C -> C !! i = composition !! i) /\
  exists C' w',
    arrange composition k randomize w = (Ok C', w') /\
    C' ≡ₚ C /\ draws_only w w' /\
    (randomize = false -> C' = C /\ w' = w).
Proof.
  intros Hk. cbn zeta.
  assert (Ht : truncate composition k = take (Z.to_nat k) composition).
  { unfold truncate. apply Z.ltb_lt in Hk. by rewrite Hk. }
  rewrite Ht. split; [done|]. split; [apply length_take|]. split.
  { intros i Hi. apply lookup_take_lt. rewrite length_take in Hi. lia. }
  rewrite <- Ht. apply arrange_run.
Qed.

Lemma truncate_then_shuffle_witness :
  let C := truncate [0; 1; 2] 2 in
  C = take (Z.to_nat 2) [0; 1; 2] /\
  length C = Nat.min (Z.to_nat 2) (length [0; 1; 2]) /\
  (forall i, i < length C -> C !! i = [0; 1; 2] !! i) /\
  exists C' w',
    arrange [0; 1; 2] 2 true (mkWorld [] ∅ [] [3; 1]) = (Ok C', w') /\
    C' ≡ₚ C /\ draws_only (mkWorld [] ∅ [] [3; 1]) w' /\
    (true = false -> C' = C /\ w' = mkWorld [] ∅ [] [3; 1]).
Proof. apply truncate_then_shuffle. lia. Defined.

(** ** The no-match exit *)

#[global] Instance no_output_preorder : PreOrder no_output.
Proof.
  split.
  - intros w. split; [done|]. exists []. by rewrite app_nil_r.
  - intros w1 w2 w3 (Hf & t & Ht & Hp) (Hf' & t' & Ht' & Hp').
    split; [congruence|]. exists (t ++ t'). split; [|by apply Forall_app].
    by rewrite Ht', Ht, app_assoc.
Qed.

Lemma no_output_keep w w' :
  files w' = files w -> trace w' = trace w -> no_output w w'.
Proof. intros Hf Ht. split; [done|]. exists []. by rewrite app_nil_r. Qed.

Lemma no_output_print s w :
  no_output w (mkWorld (heap w) (files w) (trace w ++ [Print s]) (entropy w)).
Proof.
  split; [done|]. exists [Print s]. split; [done|].
  constructor; [by exists s|constructor].
Qed.

Ltac no_output_tac :=
  first [ apply no_output_print | apply no_output_keep; reflexivity ].

#[global] Instance trace_grows_preorder : PreOrder trace_grows.
Proof.
  split.
  - intros w. exists []. by rewrite app_nil_r.
  - intros w1 w2 w3 [t Ht] [t' Ht']. exists (t ++ t'). by rewrite Ht', Ht, app_assoc.
Qed.

Ltac trace_grows_tac :=
  first [ by eexists [_] | exists []; by rewrite app_nil_r ].

#[local] Hint Unfold get_subtitle_files compose_from_srts find_video search_cues
  search_cue clean_srt compose_from_transcript get_vtt_files compose_from_vtt compose
  adjust arrange : prog.

Lemma compose_no_output X a : sat no_output any_exn (compose X a).
Proof. sat_go ltac:(sat_prim no_output_tac). Qed.

Lemma after_compose_no_exit X composition a padding sync :
  sat trace_grows no_exit
    (adjust composition sync padding >>
     let! composition := arrange composition (maxclips a) (randomize a) in
     output X composition a padding).
Proof. sat_go ltac:(sat_prim trace_grows_tac). Qed.

Lemma finish_empty X a w :
  finish X [] a w
  = (Raise (SystemExit 1),
     mkWorld (heap w) (files w) (trace w ++ [Print (not_found (search a))]) (entropy w)).
Proof. reflexivity. Qed.

(** C5. When the composers return an empty composition, [videogrep] prints
    the diagnostic and raises [SystemExit(1)]; the run has written no file
    and has asked nothing of the toolkit.  When they return a non-empty
    composition, the run never ends in [SystemExit] and its next printed
    line is the count of places found, not the diagnostic. *)
Theorem no_match_exit X a w composition wc :
  compose X a w = (Ok composition, wc) ->
  (composition = [] ->
     videogrep X a w
       = (Raise (SystemExit 1),
          mkWorld (heap wc) (files w) (trace wc ++ [Print (not_found (search a))])
                  (entropy wc)) /\
     exists printed, trace wc = trace w ++ printed /\ Forall is_print printed) /\
  (composition <> [] ->
     (forall code, (videogrep X a w).1 <> Raise (SystemExit code)) /\
     exists t, trace (videogrep X a w).2
               = trace wc ++ Print (found (search a) (length composition)) :: t).
Proof.
  intros Hc.
  destruct (compose_no_output X a w) as [[Hf Ht] _].
  rewrite Hc in Hf, Ht; cbn [snd] in Hf, Ht.
  unfold videogrep. rewrite (bind_ok _ _ _ _ _ Hc). split.
  - intros ->. split; [|exact Ht]. by rewrite finish_empty, Hf.
  - intros Hne. unfold finish.
    destruct composition as [|c cs]; [done|]. cbn [length Nat.eqb].
    set (w1 := mkWorld (heap wc) (files wc)
                 (trace wc ++ [Print (found (search a) (S (length cs)))]) (entropy wc)).
    erewrite (bind_ok _ _ wc tt w1) by reflexivity.
    match goal with
    | |- context [(?m w1)] =>
        destruct (after_compose_no_exit X (c :: cs) a
                    (padding a / 1000)%float (sync a / 1000)%float w1)
          as [[t Hgrow] Hexit]
    end.
    split.
    + intros code Hcode. by apply (Hexit _ Hcode code).
    + exists t. rewrite Hgrow. unfold w1; cbn [trace]. by rewrite <- app_assoc.
Qed.

Lemma no_match_exit_witness :
  videogrep sample_externals no_match_args talk_world
  = (Raise (SystemExit 1),
     mkWorld (heap (compose sample_externals no_match_args talk_world).2)
             (files talk_world)
             (trace (compose sample_externals no_match_args talk_world).2
              ++ [Print (not_found "goodbye")])
             (entropy (compose sample_externals no_match_args talk_world).2)).
Proof.
  assert (H : compose sample_externals no_match_args talk_world
              = (Ok [], (compose sample_externals no_match_args talk_world).2))
    by (vm_compute; reflexivity).
  destruct (no_match_exit sample_externals no_match_args talk_world [] _ H) as [H1 _].
  exact (proj1 (H1 eq_refl)).
Defined.

(** ** Runs that return: a precondition on the world, a postcondition on the
    result and the world *)









(** ** The cue dictionary *)

Lemma OD_get_set_eq k v d : OD.get k (OD.set k v d) = Some v.
Proof.
  induction d as [|[k' v'] d IH]; cbn.
  - by rewrite String.eqb_refl.
  - destruct (String.eqb k' k) eqn:E; cbn; by rewrite E.
Qed.


(** The loop of [clean_srt] never meets a missing key. *)
Lemma clean_lines_total lines key output :
  key = "" \/ is_Some (OD.get key output) ->
  exists d, clean_lines lines key output = Ok d.
Proof.
  revert key output. induction lines as [|l lines IH]; intros key output Hk; cbn.
  - by eexists.
  - destruct (Str.contains "-->" (Str.strip l)).
    + apply IH. right. by rewrite OD_get_set_eq.
    + destruct (String.eqb_spec key "") as [->|Hne]; cbn.
      * apply IH. by left.
      * destruct Hk as [->|[old Hold]]; [done|]. rewrite Hold.
        apply IH. right. by rewrite OD_get_set_eq.
Qed.

Lemma clean_srt_text_total text : exists d, clean_srt_text text = Ok d.
Proof. apply clean_lines_total. by left. Qed.

(** ** Search types that [search_line] does not know *)

Lemma search_line_unknown X line search searchtype :
  known_searchtype searchtype = false ->
  search_line X line search searchtype = Ok PyNone.
Proof.
  unfold known_searchtype, search_line; cbn [existsb].
  destruct (String.eqb searchtype "re"), (String.eqb searchtype "word"),
    (String.eqb searchtype "pos"), (String.eqb searchtype "hyper"); done.
Qed.






Lemma get_subtitle_files_fold inputfile srts w :
  for_each inputfile (fun f srts =>
      let filename := set_last "srt" (Str.split "." f) in
      let srt := Str.join "." filename in
      let! present := isfile srt in
      if present then ret (srts ++ [srt]) else ret srts) srts w
  = (Ok (srts ++ filter (fun p => present (files w) p = true) (subtitle_of <$> inputfile)), w).
Proof.
  revert srts. induction inputfile as [|f fs IH]; intros srts; cbn [for_each].
  - cbn. by rewrite app_nil_r.
  - unfold bind at 1. unfold isfile at 1. unfold bind at 1. cbn [fmap list_fmap].
    rewrite filter_cons. fold (subtitle_of f).
    change (bool_decide (is_Some (files w !! subtitle_of f)))
      with (present (files w) (subtitle_of f)).
    destruct (decide (present (files w) (subtitle_of f) = true)) as [Hp|Hp].
    + rewrite Hp. unfold ret at 1. rewrite IH. by rewrite <- app_assoc.
    + apply not_true_is_false in Hp. rewrite Hp. unfold ret at 1. by rewrite IH.
Qed.




(** ** The two-cue scenario *)

Lemma find_video_fold srt exts v f w :
  exists w',
    for_each exts (fun ext '(videofile, foundVideoFile) =>
        let tempVideoFile := Str.replace ".srt" ("." +:+ ext) srt in
        let! present := isfile tempVideoFile in
        if present then
          print ("[+] Found '" +:+ tempVideoFile +:+ "'.") >> ret (tempVideoFile, true)
        else ret (videofile, foundVideoFile)) (v, f) w
    = (Ok (pick_video (files w) srt exts v,
           f || existsb (fun ext => present (files w) (candidate srt ext)) exts), w') /\
    only_prints w w'.
Proof.
  revert v f w. induction exts as [|ext exts IH]; intros v f w; cbn [for_each].
  - exists w. cbn. rewrite orb_false_r. split; [done|reflexivity].
  - cbn [existsb fold_left pick_video].
    destruct (present (files w) (candidate srt ext)) eqn:Hp.
    + pose (w1 := mkWorld (heap w) (files w)
                    (trace w ++ [Print ("[+] Found '" +:+ candidate srt ext +:+ "'.")])
                    (entropy w)).
      destruct (IH (candidate srt ext) true w1) as (w' & Hrun & Hw').
      exists w'. split.
      * erewrite (bind_ok _ _ w (candidate srt ext, true) w1).
        -- etrans; [exact Hrun|]. unfold pick_video. cbn [orb files w1].
           by rewrite orb_true_r.
        -- erewrite bind_ok by reflexivity. unfold present, candidate in Hp.
           rewrite Hp. reflexivity.
      * etrans; [|exact Hw']. apply only_prints_print.
    + destruct (IH v f w) as (w' & Hrun & Hw').
      exists w'. split; [|done].
      erewrite (bind_ok _ _ w (v, f) w).
      * etrans; [exact Hrun|]. done.
      * erewrite bind_ok by reflexivity. unfold present, candidate in Hp.
        rewrite Hp. reflexivity.
Qed.

Lemma search_cue_hit X videofile lines search searchtype timespan text st w s e :
  OD.get timespan lines = Some text ->
  search_line X (Str.strip text) search searchtype = Ok PyMatch ->
  convert_timespan timespan = Ok (s, e) ->
  search_cue X videofile lines search searchtype timespan st w
  = (Ok (mkCS (composition st ++ [length (heap w)]) true),
     mkWorld (heap w ++ [mkSegment videofile (Some timespan) s e (Str.strip text) None])
             (files w) (trace w) (entropy w)).
Proof.
  intros Hget Hhit Hconv. unfold search_cue, bind, lift.
  rewrite Hget; cbn [of_option]. rewrite Hhit; cbn [truth]. by rewrite Hconv.
Qed.

Lemma clean_two_cues : clean_srt_text two_cues = Ok cue_lines.
Proof. vm_compute. reflexivity. Qed.

Lemma convert_first_span : convert_timespan first_span = Ok first_times.
Proof. vm_compute. reflexivity. Qed.
Lemma convert_second_span : convert_timespan second_span = Ok second_times.
Proof. vm_compute. reflexivity. Qed.

Lemma search_cues_two_cues X videofile w :
  re_search X "hello" "hello world" = Ok true ->
  re_search X "hello" "hello there" = Ok true ->
  search_cues X videofile cue_lines "hello" "re" (mkCS [] false) w
  = (Ok (mkCS [length (heap w); S (length (heap w))] true),
     mkWorld (heap w ++
              [mkSegment videofile (Some first_span) first_times.1 first_times.2 "hello world" None;
               mkSegment videofile (Some second_span) second_times.1 second_times.2 "hello there" None])
             (files w) (trace w) (entropy w)).
Proof.
  intros H1 H2. unfold search_cues. cbn [OD.keys cue_lines fmap list_fmap fst for_each].
  erewrite bind_ok; cycle 1.
  { apply (search_cue_hit _ _ _ _ _ _ "hello world  " _ _ first_times.1 first_times.2).
    - reflexivity.
    - change (Str.strip "hello world  ") with "hello world".
      unfold search_line. cbn [String.eqb Ascii.eqb Bool.eqb orb]. by rewrite H1.
    - exact convert_first_span. }
  erewrite bind_ok; cycle 1.
  { apply (search_cue_hit _ _ _ _ _ _ "hello there " _ _ second_times.1 second_times.2).
    - reflexivity.
    - change (Str.strip "hello there ") with "hello there".
      unfold search_line. cbn [String.eqb Ascii.eqb Bool.eqb orb]. by rewrite H2.
    - exact convert_second_span. }
  cbn [composition heap files trace entropy app Str.strip].
  rewrite length_app, Nat.add_1_r, <- app_assoc. reflexivity.
Qed.

Lemma first_times_values : first_times = (1, 2)%float.
Proof. reflexivity. Qed.
Lemma second_times_values : second_times = (5, 6.5)%float.
Proof. reflexivity. Qed.

(** C7. A subtitle file that reads as the two cues (with any line ending
    convention), next to a video of a usable extension, searched for the
    regular expression hello: the composition has exactly two segments, in
    file order, from 1.0 to 2.0 and from 5.0 to 6.5, and a padding (and
    sync) of 0 leaves these values as they are. *)
Theorem two_cue_scenario X w srt content :
  files w !! srt = Some (Text content) ->
  Str.universal_newlines content = two_cues ->
  (exists ext, ext ∈ usable_extensions /\ is_Some (files w !! candidate srt ext)) ->
  re_search X "hello" "hello world" = Ok true ->
  re_search X "hello" "hello there" = Ok true ->
  exists video d1 d2 w',
    compose_from_srts X (Some [srt]) "hello" "re" w
      = (Ok [length (heap w); S (length (heap w))], w') /\
    heap w' = heap w ++ [d1; d2] /\
    file d1 = video /\ file d2 = video /\ is_Some (files w !! video) /\
    line d1 = "hello world" /\ line d2 = "hello there" /\
    (start d1 = 1 /\ end_ d1 = 2 /\ start d2 = 5 /\ end_ d2 = 6.5)%float /\
    exists w'' p1 p2,
      adjust [length (heap w); S (length (heap w))]
             (0 / 1000)%float (0 / 1000)%float w' = (Ok tt, w'') /\
      heap w'' !! length (heap w) = Some p1 /\
      heap w'' !! S (length (heap w)) = Some p2 /\
      (start p1 = 1 /\ end_ p1 = 2 /\ start p2 = 5 /\ end_ p2 = 6.5)%float.
Proof.
  intros Hfile Hnl (ext & Hext & Hpresent) H1 H2.
  set (w1 := mkWorld (heap w) (files w) (trace w ++ [Print srt]) (entropy w)).
  set (w2 := mkWorld (heap w) (files w)
               ((trace w ++ [Print srt]) ++
                [Print ("[+] Searching for video file corresponding to '" +:+ srt +:+ "'.")])
               (entropy w)).
  destruct (find_video_fold srt usable_extensions "" false w2)
    as (w3 & Hfind & Hh3 & Hf3 & He3 & _).
  cbn [heap files entropy w2] in Hh3, Hf3, He3, Hfind.
  assert (Hfound : existsb (fun ext => present (files w) (candidate srt ext))
                           usable_extensions = true).
  { apply existsb_exists. exists ext. split; [by apply list_elem_of_In|].
    by apply bool_decide_eq_true. }
  rewrite Hfound in Hfind. cbn [orb] in Hfind.
  set (video := pick_video (files w) srt usable_extensions "") in *.
  assert (Hvideo : is_Some (files w !! video)).
  { clear -Hfound. subst video. unfold usable_extensions in *.
    cbn [existsb pick_video fold_left] in *.
    repeat match goal with
           | |- context [present ?f ?p] =>
               let E := fresh "E" in destruct (present f p) eqn:E
           end; try discriminate;
      match goal with
      | H : present _ ?p = true |- is_Some (_ !! ?p) => by apply bool_decide_eq_true in H
      end. }
  set (d1 := mkSegment video (Some first_span) first_times.1 first_times.2 "hello world" None).
  set (d2 := mkSegment video (Some second_span) second_times.1 second_times.2 "hello there" None).
  set (w' := mkWorld (heap w ++ [d1; d2]) (files w3) (trace w3) (entropy w3)).
  assert (Hrun : compose_from_srts X (Some [srt]) "hello" "re" w
                 = (Ok [length (heap w); S (length (heap w))], w')).
  { unfold compose_from_srts. cbn [for_each].
    erewrite bind_ok; cycle 1.
    { erewrite bind_ok; cycle 1.
      { erewrite (bind_ok _ _ w tt w1) by reflexivity.
        erewrite bind_ok; cycle 1.
        { unfold clean_srt. erewrite (bind_ok _ _ w1 two_cues w1).
          - unfold lift. rewrite clean_two_cues. reflexivity.
          - unfold read_text. cbn [files w1]. by rewrite Hfile, Hnl. }
        erewrite (bind_ok _ _ w1 tt w2) by reflexivity.
        erewrite bind_ok by exact Hfind.
        cbn iota beta. unfold cue_lines at 1.
        erewrite bind_ok by (apply search_cues_two_cues; assumption).
        cbn [foundSearchTerm]. rewrite Hh3. reflexivity. }
      reflexivity. }
    reflexivity. }
  exists video, d1, d2, w'.
  split; [exact Hrun|]. split; [done|]. do 5 (split; [done|]).
  split; [done|].
  destruct (adjust_run [length (heap w); S (length (heap w))]
              (0 / 1000)%float (0 / 1000)%float w')
    as (h'' & Hadj & _ & _ & Hin).
  { apply NoDup_cons. split; [|apply NoDup_singleton].
    rewrite list_elem_of_singleton. lia. }
  { intros l Hl. cbn [heap w']. rewrite length_app. cbn [length].
    apply elem_of_cons in Hl as [->|Hl]; [lia|].
    apply list_elem_of_singleton in Hl as ->. lia. }
  eexists _, (adjusted (0 / 1000)%float (0 / 1000)%float d1),
             (adjusted (0 / 1000)%float (0 / 1000)%float d2).
  split; [exact Hadj|]. cbn [heap].
  split; [|split].
  - apply Hin; [left|]. cbn [heap w']. by rewrite lookup_app_r, Nat.sub_diag by lia.
  - apply Hin; [right; left|]. cbn [heap w'].
    rewrite lookup_app_r by lia. by replace (S (length (heap w)) - length (heap w)) with 1 by lia.
  - repeat split; reflexivity.
Qed.

Lemma two_cue_scenario_witness :
  exists video d1 d2 w',
    compose_from_srts sample_externals (Some ["talk.srt"]) "hello" "re" talk_world
      = (Ok [length (heap talk_world); S (length (heap talk_world))], w') /\
    heap w' = heap talk_world ++ [d1; d2] /\
    file d1 = video /\ file d2 = video /\ is_Some (files talk_world !! video) /\
    line d1 = "hello world" /\ line d2 = "hello there" /\
    (start d1 = 1 /\ end_ d1 = 2 /\ start d2 = 5 /\ end_ d2 = 6.5)%float /\
    exists w'' p1 p2,
      adjust [length (heap talk_world); S (length (heap talk_world))]
             (0 / 1000)%float (0 / 1000)%float w' = (Ok tt, w'') /\
      heap w'' !! length (heap talk_world) = Some p1 /\
      heap w'' !! S (length (heap talk_world)) = Some p2 /\
      (start p1 = 1 /\ end_ p1 = 2 /\ start p2 = 5 /\ end_ p2 = 6.5)%float.
Proof.
  apply (two_cue_scenario sample_externals talk_world "talk.srt" two_cues).
  - vm_compute. reflexivity.
  - vm_compute. reflexivity.
  - exists "mp4". split; [left|]. exists (Text ""). vm_compute. reflexivity.
  - reflexivity.
  - reflexivity.
Defined.

(** ** Well-formed subtitle files *)

Lemma no_linebreak_not_LF c :
  Str.is_linebreak c = false -> Ascii.eqb c Str.LF = false /\ Ascii.eqb c Str.CR = false.
Proof.
  intros H. split.
  - destruct (Ascii.eqb_spec c Str.LF) as [->|]; [discriminate H|done].
  - destruct (Ascii.eqb_spec c Str.CR) as [->|]; [discriminate H|done].
Qed.

Lemma digit_not_linebreak c : Str.is_digit c = true -> Str.is_linebreak c = false.
Proof.
  unfold Str.is_digit, Str.is_linebreak. generalize (nat_of_ascii c) as n. intros n H.
  apply andb_true_iff in H as [H1 H2].
  apply Nat.leb_le in H1, H2.
  repeat (apply orb_false_iff; split); try apply andb_false_iff;
    try (right; apply Nat.leb_gt; lia); try (apply Nat.eqb_neq; lia).
Qed.

Lemma index_match_line seen l rest :
  no_linebreak l = true ->
  Str.index_match seen (l +:+ String Str.LF rest)
  = if digits_only l && (seen || negb (String.eqb l ""))
    then Some (S (String.length l)) else None.
Proof.
  revert seen. induction l as [|c l IH]; intros seen Hl; cbn.
  - change (Str.is_digit Str.LF) with false. cbn. rewrite orb_false_r.
    change (Ascii.eqb Str.LF Str.LF) with true. by destruct seen.
  - cbn in Hl. apply andb_true_iff in Hl as [Hc Hl].
    apply negb_true_iff in Hc.
    destruct (Str.is_digit c) eqn:Hd; cbn.
    + rewrite (IH true Hl). cbn. rewrite orb_true_r.
      by destruct (digits_only l).
    + destruct (no_linebreak_not_LF c Hc) as [-> ->]. cbn. by rewrite andb_false_r.
Qed.

Lemma sub_index_skip prev l rest :
  Str.sub_index_go prev (S (String.length l)) (l +:+ String Str.LF rest)
  = Str.sub_index_go (Some Str.LF) 0 rest.
Proof. revert prev. induction l as [|c l IH]; intros prev; cbn; [done|apply IH]. Qed.

Lemma sub_index_copy prev l rest :
  Str.at_bol prev = false -> no_linebreak l = true ->
  Str.sub_index_go prev 0 (l +:+ String Str.LF rest)
  = l +:+ String Str.LF (Str.sub_index_go (Some Str.LF) 0 rest).
Proof.
  revert prev. induction l as [|c l IH]; intros prev Hp Hl; cbn.
  - by rewrite Hp.
  - rewrite Hp. cbn in Hl. apply andb_true_iff in Hl as [Hc Hl].
    apply negb_true_iff in Hc. f_equal. apply IH; [|done].
    cbn. by destruct (no_linebreak_not_LF c Hc) as [-> _].
Qed.

Lemma sub_index_line prev l rest :
  Str.at_bol prev = true -> no_linebreak l = true ->
  Str.sub_index_go prev 0 (l +:+ String Str.LF rest)
  = (if is_index_line l then "" else l +:+ String Str.LF "")
    +:+ Str.sub_index_go (Some Str.LF) 0 rest.
Proof.
  intros Hp Hl. destruct l as [|c l].
  - cbn. rewrite Hp. change (Str.is_digit Str.LF) with false. by cbn.
  - pose proof (index_match_line false (String c l) rest Hl) as Hm.
    cbn [String.append] in Hm |- *. cbn [Str.sub_index_go]. rewrite Hp, Hm.
    unfold is_index_line. cbn [String.eqb negb orb andb].
    rewrite andb_true_r.
    destruct (digits_only (String c l)) eqn:Hd.
    + change (S (String.length (String c l)) - 1) with (S (String.length l)).
      apply sub_index_skip.
    + cbn [String.append]. f_equal. cbn in Hl.
      apply andb_true_iff in Hl as [Hc Hl]. apply negb_true_iff in Hc.
      rewrite sub_index_copy; [|cbn; by destruct (no_linebreak_not_LF c Hc) as [-> _]|done].
      by rewrite append_assoc.
Qed.

Lemma sub_index_unlines prev ls :
  Str.at_bol prev = true -> Forall (fun l => no_linebreak l = true) ls ->
  Str.sub_index_go prev 0 (unlines ls) = unlines (filter kept ls).
Proof.
  intros Hp Hls. revert prev Hp. induction Hls as [|l ls Hl Hls IH]; intros prev Hp.
  - done.
  - cbn [unlines]. rewrite (sub_index_line prev l _ Hp Hl).
    rewrite (IH (Some Str.LF) eq_refl).
    destruct (decide (kept l)) as [Hk|Hk].
    + rewrite filter_cons_True by done. unfold kept in Hk. rewrite Hk.
      cbn [unlines]. by rewrite append_assoc.
    + rewrite filter_cons_False by done. unfold kept in Hk.
      apply not_false_is_true in Hk. by rewrite Hk.
Qed.

Lemma splitlines_line l rest :
  no_linebreak l = true ->
  Str.splitlines (l +:+ String Str.LF rest) = l :: Str.splitlines rest.
Proof.
  intros Hl. induction l as [|c l IH]; cbn.
  - change (Str.is_linebreak Str.LF) with true. cbn. by destruct rest.
  - cbn in Hl. apply andb_true_iff in Hl as [Hc Hl]. apply negb_true_iff in Hc.
    rewrite Hc. by rewrite (IH Hl).
Qed.

Lemma splitlines_unlines ls :
  Forall (fun l => no_linebreak l = true) ls -> Str.splitlines (unlines ls) = ls.
Proof.
  induction 1 as [|l ls Hl Hls IH]; [done|]. cbn [unlines].
  by rewrite splitlines_line, IH.
Qed.

Lemma universal_newlines_unlines ls :
  Forall (fun l => no_linebreak l = true) ls ->
  Str.universal_newlines (unlines ls) = unlines ls.
Proof.
  induction 1 as [|l ls Hl Hls IH]; [done|]. cbn [unlines].
  induction l as [|c l IHl]; cbn.
  - change (Ascii.eqb Str.LF Str.CR) with false. cbn. by rewrite IH.
  - cbn in Hl. apply andb_true_iff in Hl as [Hc Hl]. apply negb_true_iff in Hc.
    destruct (no_linebreak_not_LF c Hc) as [_ ->]. by rewrite (IHl Hl).
Qed.

(** The text of lines closed by line feeds is parsed as its lines, index
    lines left out. *)
Lemma clean_srt_text_unlines ls :
  Forall (fun l => no_linebreak l = true) ls ->
  clean_srt_text (unlines ls) = clean_lines (filter kept ls) "" [].
Proof.
  intros Hls. unfold clean_srt_text, Str.sub_index.
  rewrite (sub_index_unlines None ls eq_refl Hls).
  rewrite splitlines_unlines; [done|].
  apply Forall_forall. intros l [_ Hl]%list_elem_of_filter.
  by apply (proj1 (Forall_forall _ _) Hls).
Qed.

Lemma digits_only_lstrip s : digits_only s = true -> digits_only (Str.lstrip s) = true.
Proof.
  induction s as [|c s IH]; cbn; [done|]. intros H.
  destruct (Str.is_space c); [|done].
  apply andb_true_iff in H as [_ H]. by apply IH.
Qed.

Lemma digits_only_rstrip s : digits_only s = true -> digits_only (Str.rstrip s) = true.
Proof.
  induction s as [|c s IH]; cbn; [done|]. intros H.
  apply andb_true_iff in H as [Hc H]. specialize (IH H).
  destruct (Str.rstrip s); cbn in *.
  - destruct (Str.is_space c); cbn; [done|by rewrite Hc].
  - by rewrite Hc.
Qed.

Lemma digits_only_no_arrow s : digits_only s = true -> Str.contains "-->" s = false.
Proof.
  induction s as [|c s IH]; [done|].
  cbn [digits_only Str.contains String.prefix]. intros H.
  apply andb_true_iff in H as [Hc H]. rewrite (IH H), orb_false_r.
  destruct (ascii_dec "-" c) as [<-|]; [discriminate Hc|done].
Qed.

Lemma arrow_not_index s :
  Str.contains "-->" (Str.strip s) = true -> is_index_line s = false.
Proof.
  intros H. unfold is_index_line. destruct (digits_only s) eqn:Hd; [|by rewrite andb_false_r].
  apply digits_only_lstrip, digits_only_rstrip, digits_only_no_arrow in Hd.
  unfold Str.strip in H. congruence.
Qed.

Lemma OD_set_set k v v' d : OD.set k v' (OD.set k v d) = OD.set k v' d.
Proof.
  induction d as [|[k0 v0] d IH]; cbn.
  - by rewrite String.eqb_refl.
  - destruct (String.eqb k0 k) eqn:E; cbn; rewrite E; [done|by rewrite IH].
Qed.

Lemma OD_set_id k v d : OD.get k d = Some v -> OD.set k v d = d.
Proof.
  induction d as [|[k0 v0] d IH]; cbn; [done|].
  destruct (String.eqb k0 k) eqn:E.
  - by intros [= ->].
  - intros H. by rewrite IH.
Qed.

Lemma arrow_not_empty s : Str.contains "-->" s = true -> s <> "".
Proof. by intros H ->. Qed.

(** Text lines are appended, stripped, to the value of the current key. *)
Lemma clean_lines_text text rest key v d :
  key <> "" -> OD.get key d = Some v ->
  Forall (fun l => Str.contains "-->" (Str.strip l) = false) text ->
  clean_lines (text ++ rest) key d
  = clean_lines rest key
      (OD.set key (fold_left (fun acc l => acc +:+ Str.strip l +:+ " ") text v) d).
Proof.
  intros Hk Hv Htext. revert v d Hv.
  induction Htext as [|l text Hl Htext IH]; intros v d Hv.
  - cbn. by rewrite OD_set_id.
  - cbn [app clean_lines fold_left]. rewrite Hl.
    apply String.eqb_neq in Hk as Hk'. rewrite Hk'. cbn [negb]. rewrite Hv.
    rewrite (IH (v +:+ Str.strip l +:+ " ")) by apply OD_get_set_eq.
    by rewrite OD_set_set.
Qed.

(** One cue block, its index line already removed. *)
Lemma clean_lines_cue c rest key d :
  well_formed c ->
  clean_lines (filter kept (cue_block c) ++ rest) key d
  = clean_lines rest (Str.strip (cue_span c))
      (OD.set (Str.strip (cue_span c)) (cue_value c) d).
Proof.
  intros [Hi Hsl Hs Ht]. unfold cue_block.
  rewrite filter_cons_False by (unfold kept; by rewrite Hi).
  rewrite filter_cons_True by (by apply arrow_not_index).
  rewrite filter_app, (filter_cons_True _ "") by done. rewrite filter_nil.
  cbn [app clean_lines]. rewrite Hs.
  rewrite (clean_lines_text _ rest _ "").
  - rewrite OD_set_set. reflexivity.
  - by apply arrow_not_empty.
  - apply OD_get_set_eq.
  - apply Forall_app. split.
    + apply Forall_forall. intros l [_ Hl]%list_elem_of_filter.
      by apply (proj1 (Forall_forall _ _) Ht) in Hl as [_ ?].
    + by repeat constructor.
Qed.

Lemma clean_lines_cues cues key d :
  Forall well_formed cues ->
  clean_lines (filter kept (srt_lines cues)) key d
  = Ok (fold_left (fun d c => OD.set (Str.strip (cue_span c)) (cue_value c) d) cues d).
Proof.
  intros Hwf. revert key d. induction Hwf as [|c cues Hc Hwf IH]; intros key d.
  - done.
  - unfold srt_lines. cbn [map concat]. rewrite filter_app.
    rewrite (clean_lines_cue c _ key d Hc). apply IH.
Qed.

Lemma srt_lines_no_linebreak cues :
  Forall well_formed cues -> Forall (fun l => no_linebreak l = true) (srt_lines cues).
Proof.
  induction 1 as [|c cues [Hi Hsl Hs Ht] Hwf IH]; [constructor|].
  unfold srt_lines. cbn [map concat]. apply Forall_app. split; [|exact IH].
  unfold cue_block. constructor; [|constructor; [done|]].
  - unfold is_index_line in Hi. apply andb_true_iff in Hi as [_ Hd].
    clear -Hd. induction (cue_index c) as [|a s IHs]; [done|]. cbn in *.
    apply andb_true_iff in Hd as [Ha Hd]. by rewrite (digit_not_linebreak a Ha), IHs.
  - apply Forall_app. split; [|by repeat constructor].
    eapply Forall_impl; [exact Ht|]. by intros l [? _].
Qed.

(** C8. Reading and parsing a subtitle file changes nothing, so that parsing
    it twice gives the same ordered dictionary twice; for a well-formed file
    (cue blocks of an index line of digits, a timespan line, text lines and
    a blank line, under any line ending convention) that dictionary is
    [expected cues], built from the timespans and the text lines alone: no
    index line is in any text. *)
Theorem clean_srt_well_formed w srt content cues :
  Forall well_formed cues ->
  files w !! srt = Some (Text content) ->
  Str.universal_newlines content = srt_text cues ->
  clean_srt srt w = (Ok (expected cues), w) /\
  (let! first := clean_srt srt in
   let! second := clean_srt srt in
   ret (first, second)) w = (Ok (expected cues, expected cues), w).
Proof.
  intros Hwf Hfile Hnl.
  assert (Hrun : clean_srt srt w = (Ok (expected cues), w)).
  { unfold clean_srt. erewrite (bind_ok _ _ w (srt_text cues) w).
    - unfold lift, srt_text. rewrite clean_srt_text_unlines, clean_lines_cues; try done.
      by apply srt_lines_no_linebreak.
    - unfold read_text. by rewrite Hfile, Hnl. }
  split; [exact Hrun|].
  rewrite (bind_ok _ _ _ _ _ Hrun). by rewrite (bind_ok _ _ _ _ _ Hrun).
Qed.

Lemma clean_srt_well_formed_witness :
  clean_srt "talk.srt" crlf_world = (Ok (expected sample_cues), crlf_world) /\
  (let! first := clean_srt "talk.srt" in
   let! second := clean_srt "talk.srt" in
   ret (first, second)) crlf_world
  = (Ok (expected sample_cues, expected sample_cues), crlf_world).
Proof.
  apply (clean_srt_well_formed crlf_world "talk.srt"
           (Str.replace nl (String Str.CR nl) (srt_text sample_cues)) sample_cues).
  - repeat constructor; reflexivity.
  - vm_compute. reflexivity.
  - vm_compute. reflexivity.
Defined.

(** ** The dicts of a composition are distinct and in the store *)

Lemma post_ret {A} (P : World -> Prop) (a : A) (Q : A -> World -> Prop) :
  (forall w, P w -> Q a w) -> post P (ret a) Q.
Proof. intros H w a' w' Hw [= <- <-]. by apply H. Qed.

Lemma post_bind {A B} P (m : M A) (k : A -> M B) Q' Q :
  post P m Q' -> (forall a, post (Q' a) (k a) Q) -> post P (bind m k) Q.
Proof.
  intros Hm Hk w b w' Hw. unfold bind.
  destruct (m w) as [[a|e] w1] eqn:Hrun; [|done].
  intros Hrun'. eapply Hk; [|exact Hrun']. by eapply Hm.
Qed.

Lemma post_for_each {A S} (xs : list A) (body : A -> S -> M S)
    (I : S -> World -> Prop) s :
  (forall x s, post (I s) (body x s) I) -> post (I s) (for_each xs body s) I.
Proof.
  intros Hb. revert s. induction xs as [|x xs IH]; intros s; cbn [for_each].
  - by apply post_ret.
  - eapply post_bind; [apply Hb|]. intros s'. apply IH.
Qed.

(** A run that keeps the store keeps what is said of the store. *)
Lemma post_same_heap {A} (E : Exn -> Prop) (m : M A) (I : list Segment -> Prop) :
  sat same_heap E m -> post (fun w => I (heap w)) m (fun _ w => I (heap w)).
Proof.
  intros Hm w a w' Hw Hrun. destruct (Hm w) as [Hh _].
  rewrite Hrun in Hh. cbn in Hh. unfold same_heap in Hh. by rewrite Hh.
Qed.

Lemma fresh_alloc composition h d :
  fresh composition h -> fresh (composition ++ [length h]) (h ++ [d]).
Proof.
  intros [Hnd Hv]. split.
  - apply NoDup_app. split; [done|]. split; [|apply NoDup_singleton].
    intros l Hl ->%list_elem_of_singleton. apply Hv in Hl. lia.
  - intros l [Hl| ->%list_elem_of_singleton]%elem_of_app; rewrite length_app; cbn.
    + apply Hv in Hl. lia.
    + lia.
Qed.

Lemma search_cue_fresh X videofile lines search searchtype timespan st :
  post (fun w => fresh (composition st) (heap w))
       (search_cue X videofile lines search searchtype timespan st)
       (fun st' w => fresh (composition st') (heap w)).
Proof.
  intros w st' w' Hw. unfold search_cue, bind, lift, alloc, ret.
  destruct (of_option _ _) as [text|]; [|done].
  destruct (search_line _ _ _ _) as [hit|]; [|done].
  destruct (truth hit).
  - destruct (convert_timespan timespan) as [[s e]|]; [|done].
    intros [= <- <-]. cbn. by apply fresh_alloc.
  - by intros [= <- <-].
Qed.

Lemma clean_srt_same_heap srt : sat same_heap any_exn (clean_srt srt).
Proof. sat_go ltac:(sat_prim same_heap_tac). Qed.

Lemma find_video_same_heap srt : sat same_heap any_exn (find_video srt).
Proof. sat_go ltac:(sat_prim same_heap_tac). Qed.

Lemma print_same_heap s : sat same_heap any_exn (print s).
Proof. sat_go ltac:(sat_prim same_heap_tac). Qed.

Lemma post_conseq {A} (P P' : World -> Prop) (m : M A) (Q : A -> World -> Prop) :
  post P' m Q -> (forall w, P w -> P' w) -> post P m Q.
Proof. intros H HP w a w' Hw. apply H. by apply HP. Qed.

Lemma post_print_fresh C s :
  post (fun w => fresh C (heap w)) (print s) (fun _ w => fresh C (heap w)).
Proof. apply (post_same_heap any_exn _ (fresh C)), print_same_heap. Qed.

(** The composition of [compose_from_srts] lists distinct dicts of the
    store: the hypotheses of the theorems on the loops over a composition
    hold for it. *)
Lemma compose_from_srts_fresh X srts search searchtype w C w' :
  compose_from_srts X srts search searchtype w = (Ok C, w') ->
  NoDup C /\ valid C w'.
Proof.
  assert (H : post (fun _ => True) (compose_from_srts X srts search searchtype)
                   (fun C w' => fresh C (heap w'))).
  2:{ intros Hrun. by apply (H w C w' I Hrun). }
  unfold compose_from_srts. destruct srts as [srts|]; [|by intros ???? [=]].
  eapply post_bind with (Q' := fun st w => fresh (composition st) (heap w)).
  2:{ intros st. by apply post_ret. }
  eapply post_conseq;
    [apply (post_for_each _ _ (fun st w => fresh (composition st) (heap w)))|].
  2:{ intros w0 _. split; [constructor|]. intros l Hl. by apply elem_of_nil in Hl. }
  intros srt st.
  eapply post_bind; [apply post_print_fresh|]. intros [].
  eapply post_bind;
    [apply (post_same_heap any_exn _ (fresh (composition st))), clean_srt_same_heap|].
  intros lines.
  eapply post_bind; [apply post_print_fresh|]. intros [].
  eapply post_bind;
    [apply (post_same_heap any_exn _ (fresh (composition st))), find_video_same_heap|].
  intros [videofile []].
  - destruct lines as [|kv lines].
    + eapply post_bind; [apply post_print_fresh|]. intros []. by apply post_ret.
    + eapply post_bind.
      { apply (post_for_each _ _ (fun st w => fresh (composition st) (heap w))).
        intros timespan st'. apply search_cue_fresh. }
      intros st'.
      eapply post_bind with (Q' := fun _ w => fresh (composition st') (heap w)).
      * destruct (foundSearchTerm st'); [by apply post_ret|apply post_print_fresh].
      * intros []. by apply post_ret.
  - eapply post_bind; [apply post_print_fresh|]. intros [].
    eapply post_bind; [apply post_print_fresh|]. intros [].
    eapply post_bind; [apply post_print_fresh|]. intros [].
    by apply post_ret.
Qed.

(** ** Rendering moves the starts that the demo announces *)







Lemma BATCH_SIZE_pos : 0 < BATCH_SIZE.
Proof. unfold BATCH_SIZE. lia. Qed.















(** * Further properties of the module *)

(** ** Timestamps *)

Lemma prefix_char c x s :
  String.prefix (String c "") (String x s) = Ascii.eqb x c.
Proof.
  cbn. destruct (ascii_dec c x) as [->|Hne].
  - rewrite Ascii.eqb_refl. by destruct s.
  - symmetry. apply Ascii.eqb_neq. congruence.
Qed.

Lemma split_go_nonempty sep k s : Str.split_go sep k s <> [].
Proof.
  revert k. induction s as [|x s IH]; intros k; [done|].
  cbn [Str.split_go]. destruct k; [|apply IH].
  destruct (String.prefix sep (String x s)); [done|].
  destruct (Str.split_go sep 0 s); done.
Qed.

Lemma split_char_none c a :
  has_char c a = false -> Str.split (String c "") a = [a].
Proof.
  unfold Str.split. induction a as [|x a IH]; [done|].
  cbn [has_char]. intros [Hx Ha]%orb_false_iff.
  cbn [Str.split_go]. rewrite prefix_char, Hx, (IH Ha). done.
Qed.

Lemma split_char_app c a b :
  has_char c a = false ->
  Str.split (String c "") (a +:+ String c b) = a :: Str.split (String c "") b.
Proof.
  unfold Str.split. induction a as [|x a IH].
  - intros _. cbn [String.append Str.split_go]. rewrite prefix_char, Ascii.eqb_refl. done.
  - cbn [has_char]. intros [Hx Ha]%orb_false_iff.
    cbn [String.append Str.split_go]. rewrite prefix_char, Hx, (IH Ha). done.
Qed.

Lemma split_char_length c s :
  length (Str.split (String c "") s) = S (count_char c s).
Proof.
  unfold Str.split. induction s as [|x s IH]; [done|].
  cbn [Str.split_go count_char]. rewrite prefix_char.
  destruct (Ascii.eqb x c); cbn [String.length Nat.sub length]; [by rewrite IH|].
  pose proof (split_go_nonempty (String c "") 0 s) as Hne.
  destruct (Str.split_go (String c "") 0 s); [done|]. cbn in *. lia.
Qed.

Lemma digit_not_space c : Str.is_digit c = true -> Str.is_space c = false.
Proof.
  unfold Str.is_digit, Str.is_space. generalize (nat_of_ascii c). intros n H.
  apply andb_true_iff in H as [H1%Nat.leb_le H2%Nat.leb_le].
  repeat match goal with
         | |- context [(?a <=? ?b)%nat] => destruct (Nat.leb_spec a b)
         | |- context [(?a =? ?b)%nat] => destruct (Nat.eqb_spec a b)
         end; cbn; try done; lia.
Qed.

Lemma lstrip_app_blank pre s : blank pre = true -> Str.lstrip (pre +:+ s) = Str.lstrip s.
Proof.
  induction pre as [|c pre IH]; [done|].
  cbn [blank String.append Str.lstrip]. intros [-> Hb]%andb_true_iff. auto.
Qed.

Lemma rstrip_blank post : blank post = true -> Str.rstrip post = "".
Proof.
  induction post as [|c post IH]; [done|].
  cbn [blank Str.rstrip]. intros [-> Hb]%andb_true_iff. by rewrite (IH Hb).
Qed.

Lemma rstrip_app_blank s post : blank post = true -> Str.rstrip (s +:+ post) = Str.rstrip s.
Proof.
  intros Hb. induction s as [|c s IH].
  - cbn [String.append]. by rewrite rstrip_blank.
  - cbn [String.append Str.rstrip]. by rewrite IH.
Qed.

Lemma rstrip_app_keep a b : Str.rstrip b <> "" -> Str.rstrip (a +:+ b) = a +:+ Str.rstrip b.
Proof.
  intros Hb. induction a as [|c a IH]; [done|].
  cbn [String.append Str.rstrip]. rewrite IH.
  destruct (a +:+ Str.rstrip b) eqn:E; [|done].
  destruct a; [|done]. cbn [String.append] in E. done.
Qed.

Lemma rstrip_digits d : digits_only d = true -> Str.rstrip d = d.
Proof.
  induction d as [|c d IH]; [done|].
  cbn [digits_only Str.rstrip]. intros [Hc Hd]%andb_true_iff.
  rewrite (IH Hd). destruct d; [|done]. by rewrite (digit_not_space _ Hc).
Qed.

Lemma lstrip_decimal d s : decimal d = true -> Str.lstrip (d +:+ s) = d +:+ s.
Proof.
  unfold decimal. destruct d as [|c d]; [done|].
  cbn [digits_only String.append Str.lstrip negb String.eqb andb].
  intros [Hc _]%andb_true_iff. by rewrite (digit_not_space _ Hc).
Qed.

Lemma decimal_digits d : decimal d = true -> digits_only d = true.
Proof. unfold decimal. by intros [_ ?]%andb_true_iff. Qed.

Lemma decimal_nonempty d : decimal d = true -> d <> "".
Proof. by destruct d. Qed.

Lemma digits_value_some acc d :
  digits_only d = true -> is_Some (digits_value acc d).
Proof.
  revert acc. induction d as [|c d IH]; intros acc; [by eexists|].
  cbn [digits_only digits_value]. intros [-> Hd]%andb_true_iff. auto.
Qed.

Lemma digits_value_number d : digits_only d = true -> digits_value 0 d = Some (number d).
Proof.
  intros H. unfold number. by destruct (digits_value_some 0 d H) as [v ->].
Qed.

Lemma digit_cases c :
  Str.is_digit c = true ->
  is_literal_space c = false /\ Ascii.eqb c "_" = false /\ Ascii.eqb c "-" = false /\
  Ascii.eqb c "+" = false /\ Ascii.eqb c "." = false /\
  Ascii.eqb (lower_char c) "i" = false /\ Ascii.eqb (lower_char c) "n" = false.
Proof.
  intros H.
  assert (Hc : c ∈ ["0"; "1"; "2"; "3"; "4"; "5"; "6"; "7"; "8"; "9"]%char).
  { unfold Str.is_digit in H. apply andb_true_iff in H as [H1%Nat.leb_le H2%Nat.leb_le].
    rewrite <- (ascii_nat_embedding c).
    remember (nat_of_ascii c) as n eqn:En. clear En.
    do 48 (destruct n as [|n]; [lia|]).
    do 10 (destruct n as [|n]; [set_solver|]). lia. }
  repeat (apply elem_of_cons in Hc as [->|Hc]; [by vm_compute|]).
  by apply elem_of_nil in Hc.
Qed.

Lemma lstrip_by_digits d s :
  decimal d = true -> lstrip_by is_literal_space (d +:+ s) = d +:+ s.
Proof.
  unfold decimal. destruct d as [|c d]; [done|].
  cbn [digits_only String.append lstrip_by negb String.eqb andb].
  intros [Hc _]%andb_true_iff. by destruct (digit_cases c Hc) as (-> & _).
Qed.

Lemma rstrip_by_digits d : digits_only d = true -> rstrip_by is_literal_space d = d.
Proof.
  induction d as [|c d IH]; [done|].
  cbn [digits_only rstrip_by]. intros [Hc Hd]%andb_true_iff.
  rewrite (IH Hd). destruct d; [|done]. by destruct (digit_cases c Hc) as (-> & _).
Qed.

Lemma literal_strip_decimal d : decimal d = true -> literal_strip d = d.
Proof.
  intros H. unfold literal_strip.
  rewrite <- (append_nil_r d) at 1. rewrite (lstrip_by_digits d "" H), append_nil_r.
  apply rstrip_by_digits, decimal_digits, H.
Qed.

Lemma grouped_digits prev d : digits_only d = true -> grouped prev d = true.
Proof.
  revert prev. induction d as [|c d IH]; intros prev; [done|].
  cbn [digits_only grouped]. intros [Hc Hd]%andb_true_iff.
  destruct (digit_cases c Hc) as (_ & -> & _). by rewrite IH.
Qed.

Lemma ungroup_digits d : digits_only d = true -> ungroup d = d.
Proof.
  induction d as [|c d IH]; [done|].
  cbn [digits_only ungroup]. intros [Hc Hd]%andb_true_iff.
  destruct (digit_cases c Hc) as (_ & -> & _). by rewrite IH.
Qed.

Lemma signed_decimal d : decimal d = true -> signed d = (false, d).
Proof.
  unfold decimal. destruct d as [|c d]; [done|].
  cbn [digits_only negb String.eqb andb signed]. intros [Hc _]%andb_true_iff.
  by destruct (digit_cases c Hc) as (_ & _ & -> & -> & _).
Qed.

Lemma digit_run_digits d : digits_only d = true -> digit_run d = (d, "").
Proof.
  induction d as [|c d IH]; [done|].
  cbn [digits_only digit_run]. intros [-> Hd]%andb_true_iff. by rewrite (IH Hd).
Qed.

(** [int()] of a field written in digits. *)
Lemma py_int_decimal d : int_field d = true -> py_int d = Some (number d).
Proof.
  unfold int_field. intros [H Hlen%Nat.leb_le]%andb_true_iff.
  pose proof (decimal_digits d H) as Hd.
  unfold py_int.
  rewrite (literal_strip_decimal d H), (grouped_digits None d Hd), (ungroup_digits d Hd),
    (signed_decimal d H), (digits_value_number d Hd).
  destruct d as [|c d]; [done|].
  destruct (Nat.ltb_spec int_max_str_digits (String.length (String c d))); [lia|done].
Qed.

Lemma float_of_Z_0 : float_of_Z 0 = 0%float.
Proof. reflexivity. Qed.

(** [float()] of a field written in digits. *)
Lemma py_float_decimal d : decimal d = true -> py_float d = Some (float_of_Z (number d)).
Proof.
  intros H. pose proof (decimal_digits d H) as Hd.
  unfold py_float.
  rewrite (literal_strip_decimal d H), (grouped_digits None d Hd), (ungroup_digits d Hd),
    (signed_decimal d H), (digit_run_digits d Hd).
  cbv beta iota zeta. rewrite append_nil_r.
  pose proof (digits_value_number d Hd) as Hnum.
  destruct d as [|c d]; [done|]. rewrite Hnum.
  unfold decimal in H. cbn [digits_only negb String.eqb andb] in H.
  apply andb_true_iff in H as [Hc _].
  destruct (digit_cases c Hc) as (_ & _ & _ & _ & _ & Hi & Hn).
  cbn [lower String.eqb]. rewrite Hi, Hn. cbn [orb].
  cbn [exponent mbind option_bind String.length Z.of_nat Z.sub Z.opp].
  unfold float_of_decimal.
  destruct (Z.eqb_spec (number (String c d)) 0) as [->|_]; [by rewrite float_of_Z_0|].
  cbn [Z.leb Z.compare]. by rewrite Z.pow_0_r, Z.mul_1_r.
Qed.

Lemma has_char_app c a b : has_char c (a +:+ b) = has_char c a || has_char c b.
Proof.
  induction a as [|x a IH]; [done|].
  cbn [String.append has_char]. by rewrite IH, orb_assoc.
Qed.

Lemma has_char_digits c d :
  Str.is_digit c = false -> digits_only d = true -> has_char c d = false.
Proof.
  intros Hc. induction d as [|x d IH]; [done|].
  cbn [digits_only has_char]. intros [Hx Hd]%andb_true_iff.
  rewrite (IH Hd), orb_false_r. apply Ascii.eqb_neq. intros ->. congruence.
Qed.

Lemma int_field_decimal d : int_field d = true -> decimal d = true.
Proof. unfold int_field. by intros [? _]%andb_true_iff. Qed.

Lemma stamp_ok_ints t :
  stamp_ok t = true ->
  int_field (hours t) = true /\ int_field (minutes t) = true /\
  int_field (seconds t) = true /\ decimal (millis t) = true.
Proof. unfold stamp_ok. rewrite !andb_true_iff. tauto. Qed.

Lemma stamp_ok_fields t :
  stamp_ok t = true ->
  decimal (hours t) = true /\ decimal (minutes t) = true /\
  decimal (seconds t) = true /\ decimal (millis t) = true.
Proof.
  intros (? & ? & ? & ?)%stamp_ok_ints. auto using int_field_decimal.
Qed.

Lemma strip_timestamp pre post t :
  blank pre = true -> blank post = true -> stamp_ok t = true ->
  Str.strip (pre +:+ timestamp_of t +:+ post) = timestamp_of t.
Proof.
  intros Hpre Hpost (Hh & _ & _ & Hms)%stamp_ok_fields. unfold Str.strip.
  rewrite (lstrip_app_blank _ _ Hpre). unfold timestamp_of.
  rewrite !append_assoc, (lstrip_decimal _ _ Hh).
  rewrite <- !append_assoc, (rstrip_app_blank _ _ Hpost).
  assert (Str.rstrip (millis t) = millis t) as Hr by (apply rstrip_digits, decimal_digits, Hms).
  rewrite rstrip_app_keep; rewrite Hr; [done|]. by apply decimal_nonempty.
Qed.

Lemma convert_timestamp_run pre post t :
  blank pre = true -> blank post = true -> stamp_ok t = true ->
  convert_timestamp (pre +:+ timestamp_of t +:+ post) = seconds_of t.
Proof.
  intros Hpre Hpost Hok. unfold convert_timestamp.
  rewrite (strip_timestamp _ _ _ Hpre Hpost Hok).
  pose proof (stamp_ok_ints _ Hok) as (Ih & Im & Is & _).
  apply stamp_ok_fields in Hok as (Hh & Hm & Hs & Hms).
  pose proof (decimal_digits _ Hh) as Dh. pose proof (decimal_digits _ Hm) as Dm.
  pose proof (decimal_digits _ Hs) as Ds. pose proof (decimal_digits _ Hms) as Dms.
  assert (timestamp_of t
          = (hours t +:+ ":" +:+ minutes t +:+ ":" +:+ seconds t) +:+ String "," (millis t)) as ->.
  { unfold timestamp_of. by rewrite !append_assoc. }
  rewrite split_char_app, split_char_none.
  2: by apply has_char_digits.
  2: { rewrite !has_char_app. cbn [has_char].
       rewrite !(has_char_digits ",") by done. done. }
  change (hours t +:+ ":" +:+ minutes t +:+ ":" +:+ seconds t)
    with (hours t +:+ String ":" (minutes t +:+ String ":" (seconds t))).
  rewrite split_char_app, split_char_app, split_char_none by (by apply has_char_digits).
  rewrite !py_int_decimal, py_float_decimal by done. reflexivity.
Qed.

Lemma count_char_lstrip c s :
  Str.is_space c = false -> count_char c (Str.lstrip s) = count_char c s.
Proof.
  intros Hc. induction s as [|x s IH]; [done|].
  cbn [Str.lstrip]. destruct (Str.is_space x) eqn:Hx; [|done].
  rewrite IH. cbn [count_char].
  destruct (Ascii.eqb_spec x c) as [->|]; [congruence|done].
Qed.

Lemma count_char_rstrip c s :
  Str.is_space c = false -> count_char c (Str.rstrip s) = count_char c s.
Proof.
  intros Hc. induction s as [|x s IH]; [done|].
  cbn [Str.rstrip count_char]. rewrite <- IH.
  destruct (Str.rstrip s) eqn:E; [|done].
  destruct (Str.is_space x) eqn:Hx; [|done].
  destruct (Ascii.eqb_spec x c) as [->|]; [congruence|done].
Qed.

Lemma count_char_strip c s :
  Str.is_space c = false -> count_char c (Str.strip s) = count_char c s.
Proof.
  intros Hc. unfold Str.strip. by rewrite count_char_rstrip, count_char_lstrip.
Qed.

Lemma split_arrow_app a b :
  has_char "-" a = false ->
  Str.split "-->" (a +:+ "-->" +:+ b) = a :: Str.split "-->" b.
Proof.
  unfold Str.split. induction a as [|x a IH].
  - intros _. cbn. by destruct b.
  - cbn [has_char]. intros [Hx Ha]%orb_false_iff.
    cbn [String.append Str.split_go String.prefix].
    destruct (ascii_dec "-" x) as [<-|_]; [done|].
    cbn [String.append] in IH. by rewrite (IH Ha).
Qed.

Lemma split_none sep s :
  Str.contains sep s = false -> Str.split sep s = [s].
Proof.
  unfold Str.split. induction s as [|x s IH]; [done|].
  cbn [Str.contains Str.split_go]. intros [-> Hs]%orb_false_iff.
  by rewrite (IH Hs).
Qed.

Lemma no_dash_no_arrow s : has_char "-" s = false -> Str.contains "-->" s = false.
Proof.
  induction s as [|x s IH]; [done|].
  cbn [has_char Str.contains String.prefix]. intros [Hx Hs]%orb_false_iff.
  rewrite (IH Hs), orb_false_r.
  destruct (ascii_dec "-" x) as [<-|_]; done.
Qed.

Lemma blank_no_dash s : blank s = true -> has_char "-" s = false.
Proof.
  induction s as [|x s IH]; [done|].
  cbn [blank has_char]. intros [Hx Hs]%andb_true_iff.
  rewrite (IH Hs), orb_false_r. apply Ascii.eqb_neq. intros ->. done.
Qed.

Lemma timestamp_no_dash t : stamp_ok t = true -> has_char "-" (timestamp_of t) = false.
Proof.
  intros (Hh & Hm & Hs & Hms)%stamp_ok_fields. unfold timestamp_of.
  rewrite !has_char_app. cbn [has_char].
  rewrite !(has_char_digits "-") by (done || by apply decimal_digits). done.
Qed.

(** X1. For a timestamp [HH:MM:SS,mmm] whose fields are written in digits,
    with any whitespace around it, [convert_timestamp] gives what its
    formula gives in floats: the int [SS + HH * 60 * 60 + MM * 60] turned
    into a float, plus the float of the milliseconds divided by 1000, each
    step rounded; and an [OverflowError] when that int is beyond the floats.
    The three int fields have no more digits than [int()] accepts. *)
Theorem convert_timestamp_seconds pre post t :
  blank pre = true -> blank post = true -> stamp_ok t = true ->
  convert_timestamp (pre +:+ timestamp_of t +:+ post) = seconds_of t.
Proof. apply convert_timestamp_run. Qed.

Lemma convert_timestamp_seconds_witness :
  convert_timestamp (" " +:+ timestamp_of (mkStamp "00" "00" "01" "118") +:+ " ")
  = Ok 0x1.1e353f7ced916p+0%float /\
  convert_timestamp ("" +:+ timestamp_of (mkStamp long_field "00" "00" "000") +:+ "")
  = Raise OverflowError.
Proof.
  split.
  - rewrite (convert_timestamp_seconds " " " " (mkStamp "00" "00" "01" "118"));
      reflexivity.
  - rewrite (convert_timestamp_seconds "" "" (mkStamp long_field "00" "00" "000"));
      reflexivity.
Defined.

(** X2. A timestamp that does not hold exactly one comma is a [ValueError]. *)
Theorem convert_timestamp_commas timestamp :
  count_char "," timestamp <> 1 -> convert_timestamp timestamp = Raise ValueError.
Proof.
  intros Hn. unfold convert_timestamp.
  pose proof (split_char_length "," (Str.strip timestamp)) as Hl.
  rewrite count_char_strip in Hl by done.
  destruct (Str.split "," (Str.strip timestamp)) as [|a [|b [|c l]]]; try done.
  cbn in Hl. lia.
Qed.

Lemma convert_timestamp_commas_witness :
  convert_timestamp "00:00:01.000" = Raise ValueError.
Proof. apply convert_timestamp_commas. vm_compute. lia. Defined.

(** X3. [convert_timespan] gives what [convert_timestamp] gives for the
    timestamp before the arrow and for the one after it, in that order, for
    timestamps in digits with any whitespace around the arrow and at the
    end: two floats rounded as the formula rounds them, or the
    [OverflowError] of the first timestamp that has one. *)
Theorem convert_timespan_seconds t1 t2 sp1 sp2 post :
  stamp_ok t1 = true -> stamp_ok t2 = true ->
  blank sp1 = true -> blank sp2 = true -> blank post = true ->
  convert_timespan (timestamp_of t1 +:+ sp1 +:+ "-->" +:+ sp2 +:+ timestamp_of t2 +:+ post)
  = rbind (seconds_of t1) (fun start =>
    rbind (seconds_of t2) (fun end_ => Ok (start, end_))).
Proof.
  intros H1 H2 Hs1 Hs2 Hpost. unfold convert_timespan.
  rewrite <- (append_assoc (timestamp_of t1) sp1).
  rewrite split_arrow_app.
  2: { rewrite has_char_app, timestamp_no_dash, blank_no_dash; done. }
  rewrite split_none.
  2: { apply no_dash_no_arrow. rewrite !has_char_app.
       rewrite timestamp_no_dash, !blank_no_dash; done. }
  rewrite <- (append_nil_r (timestamp_of t1)) at 1. rewrite append_assoc.
  change ("" +:+ sp1) with sp1.
  pose proof (convert_timestamp_run "" sp1 t1 eq_refl Hs1 H1) as E1.
  cbn [String.append] in E1. rewrite E1.
  rewrite (convert_timestamp_run sp2 post t2 Hs2 Hpost H2). reflexivity.
Qed.

Lemma convert_timespan_seconds_witness :
  convert_timespan (timestamp_of (mkStamp "00" "00" "01" "118") +:+ " " +:+ "-->" +:+ " "
                    +:+ timestamp_of (mkStamp "00" "00" "02" "500") +:+ "")
  = Ok (0x1.1e353f7ced916p+0, 2.5)%float.
Proof.
  rewrite (convert_timespan_seconds (mkStamp "00" "00" "01" "118")
             (mkStamp "00" "00" "02" "500") " " " " ""); reflexivity.
Defined.

(** ** The dictionary of [clean_srt] *)

Lemma OD_keys_set k v d :
  OD.keys (OD.set k v d) = if decide (k ∈ OD.keys d) then OD.keys d else OD.keys d ++ [k].
Proof.
  unfold OD.keys. induction d as [|[k' v'] d IH].
  - cbn. destruct (decide (k ∈ [])) as [H|_]; [by inversion H|done].
  - cbn [OD.set]. destruct (String.eqb_spec k' k) as [->|Hne].
    + cbn. rewrite decide_True by apply list_elem_of_here. done.
    + cbn [fmap list_fmap fst]. cbn [fmap] in IH. rewrite IH.
      destruct (decide (k ∈ d.*1)) as [Hin|Hin].
      * rewrite decide_True by (by apply list_elem_of_further). done.
      * rewrite decide_False; [done|]. rewrite elem_of_cons. intros [->|?]; done.
Qed.

Lemma rstrip_idemp s : Str.rstrip (Str.rstrip s) = Str.rstrip s.
Proof.
  induction s as [|c s IH]; [done|].
  cbn [Str.rstrip]. destruct (Str.rstrip s) as [|x r] eqn:E.
  - destruct (Str.is_space c) eqn:Hc; [done|]. cbn [Str.rstrip]. by rewrite Hc.
  - change (Str.rstrip (String c (String x r))) with
      (match Str.rstrip (String x r) with
       | "" => if Str.is_space c then "" else String c ""
       | r' => String c r' end).
    by rewrite IH.
Qed.

Lemma lstrip_head s :
  Str.lstrip s = "" \/ exists c r, Str.lstrip s = String c r /\ Str.is_space c = false.
Proof.
  induction s as [|c s IH]; [by left|].
  cbn [Str.lstrip]. destruct (Str.is_space c) eqn:Hc; [exact IH|]. right. eauto.
Qed.

Lemma strip_idemp s : Str.strip (Str.strip s) = Str.strip s.
Proof.
  unfold Str.strip.
  assert (Str.lstrip (Str.rstrip (Str.lstrip s)) = Str.rstrip (Str.lstrip s)) as ->.
  { destruct (lstrip_head s) as [->|(c & r & -> & Hc)]; [done|].
    cbn [Str.rstrip]. destruct (Str.rstrip r); rewrite ?Hc; cbn [Str.lstrip]; by rewrite Hc. }
  apply rstrip_idemp.
Qed.

Lemma timespan_keys_set k v d :
  timespan_keys d -> (k ∈ OD.keys d \/ (Str.contains "-->" k = true /\ Str.strip k = k)) ->
  timespan_keys (OD.set k v d).
Proof.
  intros [Hnd Hall] Hk. unfold timespan_keys. rewrite OD_keys_set.
  destruct (decide (k ∈ OD.keys d)) as [Hin|Hin]; [done|].
  destruct Hk as [?|Hk]; [done|]. split.
  - apply NoDup_app. split; [done|]. split; [|apply NoDup_singleton].
    intros x Hx ->%list_elem_of_singleton. done.
  - apply Forall_app. split; [done|]. by apply Forall_singleton.
Qed.

Lemma clean_lines_keys lines key output d :
  clean_lines lines key output = Ok d ->
  timespan_keys output -> timespan_keys d.
Proof.
  revert key output. induction lines as [|l lines IH]; intros key output; cbn [clean_lines].
  - by intros [= <-].
  - destruct (Str.contains "-->" (Str.strip l)) eqn:Harrow.
    + intros H Hk. apply (IH _ _ H). apply timespan_keys_set; [done|].
      right. split; [done|apply strip_idemp].
    + destruct (negb (String.eqb key "")); [|by apply IH].
      destruct (OD.get key output) as [old|] eqn:Hget; [|done].
      intros H Hk. apply (IH _ _ H). apply timespan_keys_set; [done|].
      left. clear -Hget. unfold OD.keys. induction output as [|[k v] o IHo]; [done|].
      cbn in *. destruct (String.eqb_spec k key) as [->|]; [apply list_elem_of_here|].
      apply list_elem_of_further. auto.
Qed.

(** X4. Whatever the file holds, the keys of the dictionary that [clean_srt]
    returns are distinct, stripped lines that contain the arrow; the call
    changes nothing. *)
Theorem clean_srt_keys srt w d w' :
  clean_srt srt w = (Ok d, w') ->
  w' = w /\ NoDup (OD.keys d) /\
  Forall (fun k => Str.contains "-->" k = true /\ Str.strip k = k) (OD.keys d).
Proof.
  unfold clean_srt, bind, read_text, lift, clean_srt_text.
  destruct (files w !! srt) as [[content|]|]; [|done..].
  intros [= H <-]. split; [done|].
  apply (clean_lines_keys _ _ _ _ H). split; [apply NoDup_nil_2|apply Forall_nil_2].
Qed.

Lemma clean_srt_keys_witness :
  talk_world = talk_world /\ NoDup (OD.keys cue_lines) /\
  Forall (fun k => Str.contains "-->" k = true /\ Str.strip k = k) (OD.keys cue_lines).
Proof. apply (clean_srt_keys "talk.srt" talk_world). reflexivity. Defined.

(** X5. [clean_srt] fails only when the file cannot be read: on a file
    that is there and decodes it returns a dictionary and changes nothing,
    the dictionary lookups of its loop never miss; a file that does not
    decode is a [UnicodeDecodeError], and one that is not there a
    [FileNotFoundError]. *)
Theorem clean_srt_returns srt w :
  match files w !! srt with
  | Some (Text content) =>
      exists d, clean_srt_text (Str.universal_newlines content) = Ok d /\
                clean_srt srt w = (Ok d, w)
  | Some Undecodable => clean_srt srt w = (Raise UnicodeDecodeError, w)
  | None => clean_srt srt w = (Raise FileNotFoundError, w)
  end.
Proof.
  unfold clean_srt, bind, read_text, lift.
  destruct (files w !! srt) as [[content|]|]; [|done..].
  destruct (clean_srt_text_total (Str.universal_newlines content)) as [d Hd].
  exists d. by rewrite Hd.
Qed.

(** X6. Lines before the first timespan line are dropped. *)
Theorem clean_srt_text_preamble pre ls :
  Forall (fun l => no_linebreak l = true) (pre ++ ls) ->
  Forall (fun l => Str.contains "-->" (Str.strip l) = false) pre ->
  clean_srt_text (unlines (pre ++ ls)) = clean_srt_text (unlines ls).
Proof.
  intros Hnl Hpre. pose proof Hnl as [_ Hls]%Forall_app.
  rewrite !clean_srt_text_unlines by done.
  rewrite filter_app. generalize (filter kept ls). intros rest. clear Hnl Hls.
  induction Hpre as [|l pre Hl Hpre IH]; [done|].
  destruct (decide (kept l)).
  - rewrite filter_cons_True by done. cbn [app clean_lines]. rewrite Hl. exact IH.
  - by rewrite filter_cons_False.
Qed.

Lemma clean_srt_text_preamble_witness :
  clean_srt_text (unlines (["WEBVTT"; "hello"] ++ ["00:01:02,000 --> 00:01:03,000"; "there"]))
  = clean_srt_text (unlines ["00:01:02,000 --> 00:01:03,000"; "there"]).
Proof. apply clean_srt_text_preamble; cbn [app]; repeat constructor. Defined.

(** ** Finding subtitle and video files *)

Lemma split_char_snoc c a b :
  has_char c b = false ->
  Str.split (String c "") (a +:+ String c b) = Str.split (String c "") a ++ [b].
Proof.
  intros Hb. pose proof (split_char_none c b Hb) as Eb.
  unfold Str.split in *. induction a as [|x a IH].
  - cbn [String.append Str.split_go]. rewrite prefix_char, Ascii.eqb_refl.
    cbn [String.length Nat.sub]. by rewrite Eb.
  - cbn [String.append Str.split_go]. rewrite !prefix_char.
    destruct (Ascii.eqb x c); cbn [String.length Nat.sub]; rewrite IH; [done|].
    pose proof (split_go_nonempty (String c "") 0 a).
    by destruct (Str.split_go (String c "") 0 a).
Qed.

Lemma join_split_char c s : Str.join (String c "") (Str.split (String c "") s) = s.
Proof.
  unfold Str.join, Str.split. induction s as [|x s IH]; [done|].
  cbn [Str.split_go]. rewrite prefix_char.
  pose proof (split_go_nonempty (String c "") 0 s) as Hne.
  destruct (Ascii.eqb_spec x c) as [->|Hx]; cbn [String.length Nat.sub].
  - destruct (Str.split_go (String c "") 0 s) as [|p ps]; [done|].
    change (String.concat (String c "") ("" :: p :: ps))
      with ("" +:+ String c "" +:+ String.concat (String c "") (p :: ps)).
    by rewrite IH.
  - destruct (Str.split_go (String c "") 0 s) as [|p ps]; [done|].
    destruct ps as [|q ps]; [cbn in *; by rewrite IH|].
    change (String.concat (String c "") (String x p :: q :: ps))
      with (String x p +:+ String c "" +:+ String.concat (String c "") (q :: ps)).
    change (String.concat (String c "") (p :: q :: ps))
      with (p +:+ String c "" +:+ String.concat (String c "") (q :: ps)) in IH.
    cbn [String.append]. by rewrite <- IH.
Qed.

Lemma concat_snoc sep l x :
  l <> [] -> String.concat sep (l ++ [x]) = String.concat sep l +:+ sep +:+ x.
Proof.
  induction l as [|a l IH]; [done|]. intros _.
  destruct l as [|b l]; [done|].
  change (String.concat sep ((a :: b :: l) ++ [x]))
    with (a +:+ sep +:+ String.concat sep ((b :: l) ++ [x])).
  rewrite IH by done. cbn [String.concat]. by rewrite !append_assoc.
Qed.

Lemma set_last_snoc x l e : set_last x (l ++ [e]) = l ++ [x].
Proof.
  unfold set_last. rewrite length_app. cbn [length].
  replace (length l + 1 - 1) with (length l + 0) by lia.
  by rewrite insert_app_r.
Qed.

Lemma subtitle_of_ext base ext :
  has_char "." ext = false -> subtitle_of (base +:+ "." +:+ ext) = base +:+ ".srt".
Proof.
  intros Hext. unfold subtitle_of.
  change (base +:+ "." +:+ ext) with (base +:+ String "." ext).
  rewrite (split_char_snoc "." base ext Hext), set_last_snoc.
  unfold Str.join. rewrite concat_snoc by apply split_go_nonempty.
  pose proof (join_split_char "." base) as E. unfold Str.join in E. by rewrite E.
Qed.

Lemma subtitle_of_bare f : has_char "." f = false -> subtitle_of f = "srt".
Proof. intros Hf. unfold subtitle_of. by rewrite (split_char_none "." f Hf). Qed.

Lemma get_subtitle_files_run inputfile w :
  get_subtitle_files inputfile w
  = match filter (fun p => present (files w) p = true) (subtitle_of <$> inputfile) with
    | [] => (Ok None, logged w [no_subtitles])
    | srt :: srts => (Ok (Some (srt :: srts)), w)
    end.
Proof.
  unfold get_subtitle_files.
  rewrite (bind_ok _ _ _ _ _ (get_subtitle_files_fold inputfile [] w)). cbn [app].
  by destruct (filter _ _).
Qed.

Lemma find_video_trace srt exts v f w :
  for_each exts (fun ext '(videofile, foundVideoFile) =>
      let tempVideoFile := Str.replace ".srt" ("." +:+ ext) srt in
      let! present := isfile tempVideoFile in
      if present then
        print ("[+] Found '" +:+ tempVideoFile +:+ "'.") >> ret (tempVideoFile, true)
      else ret (videofile, foundVideoFile)) (v, f) w
  = (Ok (pick_video (files w) srt exts v,
         f || existsb (fun ext => present (files w) (candidate srt ext)) exts),
     logged w (found_video srt <$>
               filter (fun ext => present (files w) (candidate srt ext) = true) exts)).
Proof.
  revert v f w. induction exts as [|ext exts IH]; intros v f w; cbn [for_each].
  - unfold logged. cbn. rewrite orb_false_r, app_nil_r. by destruct w.
  - cbn [existsb fold_left pick_video]. rewrite filter_cons.
    destruct (present (files w) (candidate srt ext)) eqn:Hp.
    + rewrite decide_True by done.
      erewrite (bind_ok _ _ w (candidate srt ext, true) (logged w [found_video srt ext])).
      * rewrite IH. unfold pick_video, logged. cbn [orb heap files trace entropy fmap list_fmap].
        rewrite orb_true_r, <- app_assoc. done.
      * erewrite bind_ok by reflexivity. unfold present, candidate in Hp.
        rewrite Hp. reflexivity.
    + rewrite decide_False by done.
      erewrite (bind_ok _ _ w (v, f) w).
      * by rewrite IH.
      * erewrite bind_ok by reflexivity. unfold present, candidate in Hp.
        rewrite Hp. reflexivity.
Qed.

Lemma pick_video_last fs srt exts v :
  (Forall (fun e => present fs (candidate srt e) = false) exts /\
   pick_video fs srt exts v = v) \/
  (exists before ext after,
     exts = before ++ ext :: after /\ present fs (candidate srt ext) = true /\
     Forall (fun e => present fs (candidate srt e) = false) after /\
     pick_video fs srt exts v = candidate srt ext).
Proof.
  revert v. induction exts as [|e exts IH]; intros v; [by left|].
  unfold pick_video. cbn [fold_left]. fold (pick_video fs srt exts).
  destruct (present fs (candidate srt e)) eqn:Hp.
  - destruct (IH (candidate srt e)) as [[Hall Hv]|(b & x & a & -> & Hx & Ha & Hv)].
    + right. exists [], e, exts. done.
    + right. exists (e :: b), x, a. done.
  - destruct (IH v) as [[Hall Hv]|(b & x & a & -> & Hx & Ha & Hv)].
    + left. split; [by constructor|done].
    + right. exists (e :: b), x, a. done.
Qed.

(** X7. [get_subtitle_files] returns, in the order of the inputs, the subtitle
    names that exist as files, and changes nothing; when there is none it
    prints a line and returns [False]. *)
Theorem get_subtitle_files_existing inputfile w :
  let existing := filter (fun p => present (files w) p = true) (subtitle_of <$> inputfile) in
  (existing <> [] /\ get_subtitle_files inputfile w = (Ok (Some existing), w)) \/
  (existing = [] /\ get_subtitle_files inputfile w = (Ok None, logged w [no_subtitles])).
Proof.
  intros existing. rewrite get_subtitle_files_run. fold existing.
  destruct existing; [by right|by left].
Qed.

(** X8. The subtitle looked for replaces what follows the last dot of the input
    name by [srt]; for a name without a dot it is the file [srt]. *)
Theorem get_subtitle_files_names base ext content w :
  has_char "." ext = false ->
  files w !! (base +:+ ".srt") = Some content ->
  get_subtitle_files [base +:+ "." +:+ ext] w = (Ok (Some [base +:+ ".srt"]), w) /\
  (is_Some (files w !! "srt") -> get_subtitle_files [ext] w = (Ok (Some ["srt"]), w)).
Proof.
  intros Hext Hfile. rewrite !get_subtitle_files_run. cbn [fmap list_fmap].
  rewrite (subtitle_of_ext base ext Hext), (subtitle_of_bare ext Hext). split.
  - rewrite filter_cons_True; [done|]. unfold present. apply bool_decide_eq_true. eauto.
  - intros Hs. rewrite filter_cons_True; [done|]. unfold present. by apply bool_decide_eq_true.
Qed.

Lemma get_subtitle_files_names_witness :
  get_subtitle_files ["talk" +:+ "." +:+ "mp4"] srt_world
  = (Ok (Some ["talk" +:+ ".srt"]), srt_world) /\
  (is_Some (files srt_world !! "srt") ->
   get_subtitle_files ["mp4"] srt_world = (Ok (Some ["srt"]), srt_world)).
Proof. apply (get_subtitle_files_names "talk" "mp4" (Text "") srt_world); reflexivity. Defined.

(** X9. The video of a subtitle file is the candidate of the last usable
    extension that exists; one line is printed for each candidate that
    exists, and nothing else changes. *)
Theorem find_video_last srt w :
  let existing := filter (fun ext => present (files w) (candidate srt ext) = true)
                         usable_extensions in
  exists video foundVideoFile,
    find_video srt w = (Ok (video, foundVideoFile), logged w (found_video srt <$> existing)) /\
    (foundVideoFile = false -> video = "" /\ existing = []) /\
    (foundVideoFile = true ->
       exists before ext after,
         usable_extensions = before ++ ext :: after /\ video = candidate srt ext /\
         present (files w) video = true /\
         Forall (fun e => present (files w) (candidate srt e) = false) after).
Proof.
  intros existing. unfold find_video. rewrite find_video_trace. fold existing.
  eexists _, _. split; [reflexivity|].
  cbn [orb].
  destruct (pick_video_last (files w) srt usable_extensions "")
    as [[Hall Hv]|(b & x & a & Hexts & Hx & Ha & Hv)].
  - split.
    + intros _. split; [done|]. unfold existing.
      clear -Hall. induction Hall as [|e l He Hl IH]; [done|].
      rewrite filter_cons_False; [done|]. by rewrite He.
    + intros Hex. apply existsb_exists in Hex as (e & He%list_elem_of_In & Hp).
      rewrite Forall_forall in Hall. by rewrite (Hall e He) in Hp.
  - split.
    + intros Hex. exfalso.
      assert (existsb (fun ext => present (files w) (candidate srt ext)) usable_extensions = true);
        [|congruence].
      apply existsb_exists. exists x. split; [|done].
      rewrite Hexts. apply in_or_app. right. by left.
    + intros _. exists b, x, a. rewrite Hv. done.
Qed.

(** ** Runs without input, captions, transcripts and the test mode *)

Lemma get_vtt_files_fold X inputfile vtts :
  fold_left (fun vtts f =>
      let filename := Str.split "." f in
      let filename := Str.join "." (take (length filename - 1) filename) in
      match glob X (filename +:+ "*.vtt") with
      | vtt :: _ => vtts ++ [(vtt, f)]
      | [] => vtts
      end) inputfile vtts
  = vtts ++ omap (vtt_of X) inputfile.
Proof.
  revert vtts. induction inputfile as [|f fs IH]; intros vtts; cbn [fold_left].
  - by rewrite app_nil_r.
  - rewrite IH.
    change (omap (vtt_of X) (f :: fs))
      with (match vtt_of X f with
            | Some y => y :: omap (vtt_of X) fs
            | None => omap (vtt_of X) fs
            end).
    unfold vtt_of at 2. unfold vtt_pattern at 1.
    destruct (glob X _); [done|]. by rewrite <- app_assoc.
Qed.

Lemma get_vtt_files_run X inputfile w :
  get_vtt_files X inputfile w
  = match omap (vtt_of X) inputfile with
    | [] => (Ok None, logged w [no_vtts])
    | p :: ps => (Ok (Some (p :: ps)), w)
    end.
Proof.
  unfold get_vtt_files. rewrite get_vtt_files_fold. cbn [app].
  by destruct (omap _ _).
Qed.

Lemma unknown_not_word searchtype :
  known_searchtype searchtype = false ->
  existsb (String.eqb searchtype) ["word"; "hyper"; "pos"] = false.
Proof.
  unfold known_searchtype. cbn [existsb]. rewrite !orb_false_iff.
  intros (_ & -> & -> & -> & _). done.
Qed.

Lemma for_each_skip {A S} (xs : list A) (body : A -> S -> M S) s w :
  (forall x s, x ∈ xs -> body x s w = (Ok s, w)) ->
  for_each xs body s w = (Ok s, w).
Proof.
  induction xs as [|x xs IH]; intros H; [done|].
  cbn [for_each]. erewrite bind_ok by (apply H; apply list_elem_of_here).
  apply IH. intros y s' Hy. apply H. by apply list_elem_of_further.
Qed.

Lemma after_transcript_length dicts segments :
  length (after_transcript dicts segments) = length dicts.
Proof. unfold after_transcript. apply length_imap. Qed.

Lemma after_transcript_lookup dicts segments i :
  after_transcript dicts segments !! i
  = (fun d => match words d with
              | Some ws => if bool_decide (i ∈ segments) then rewritten ws d else d
              | None => d
              end) <$> dicts !! i.
Proof. unfold after_transcript. apply list_lookup_imap. Qed.

Lemma after_transcript_nil dicts : after_transcript dicts [] = dicts.
Proof.
  apply list_eq. intros i. rewrite after_transcript_lookup.
  destruct (dicts !! i) as [d|]; [|done]. cbn.
  destruct (words d); [|done]. rewrite bool_decide_eq_false_2; [done|].
  apply not_elem_of_nil.
Qed.

Lemma after_transcript_snoc dicts visited i d ws :
  dicts !! i = Some d -> words d = Some ws ->
  after_transcript dicts (visited ++ [i])
  = <[i := rewritten ws d]> (after_transcript dicts visited).
Proof.
  intros Hd Hws. apply list_eq. intros k.
  destruct (decide (k = i)) as [->|Hne].
  - rewrite list_lookup_insert_eq
      by (rewrite after_transcript_length; by eapply lookup_lt_Some).
    rewrite after_transcript_lookup, Hd. cbn. rewrite Hws.
    rewrite bool_decide_eq_true_2; [done|]. apply elem_of_app. right. apply list_elem_of_here.
  - rewrite list_lookup_insert_ne by done. rewrite !after_transcript_lookup.
    destruct (dicts !! k) as [dk|]; [|done]. cbn. destruct (words dk); [|done].
    rewrite (bool_decide_ext (k ∈ visited ++ [i]) (k ∈ visited)); [done|].
    rewrite elem_of_app, list_elem_of_singleton. tauto.
Qed.

Lemma rewritten_steps ws d :
  set_line ws (set_file (Str.replace ".transcription.txt" "" (file d)) d) = rewritten ws d.
Proof. by destruct d. Qed.

(** The loop of [compose_from_transcript] over the list of the library. *)
Lemma transcript_loop dicts h0 todo visited acc w :
  heap w = h0 ++ after_transcript dicts visited ->
  NoDup (visited ++ todo) ->
  (forall i, i ∈ todo -> exists d ws, dicts !! i = Some d /\ words d = Some ws) ->
  for_each todo (fun i final_segments =>
      let seg := (length h0 + i)%nat in
      update seg (fun d => set_file (Str.replace ".transcription.txt" "" (file d)) d) >>
      let! d := read seg in
      let! ws := lift (of_option KeyError (words d)) in
      update seg (set_line ws) >>
      ret (final_segments ++ [seg])) acc w
  = (Ok (acc ++ map (fun i => length h0 + i) todo),
     mkWorld (h0 ++ after_transcript dicts (visited ++ todo)) (files w) (trace w) (entropy w)).
Proof.
  revert visited acc w. induction todo as [|i todo IH]; intros visited acc w Hh Hnd Hall.
  - cbn. rewrite !app_nil_r, <- Hh. by destruct w.
  - destruct (Hall i) as (d & ws & Hd & Hws); [apply list_elem_of_here|].
    assert (Hi : i ∉ visited).
    { apply NoDup_app in Hnd as (_ & Hdis & _). intros Hin.
      apply (Hdis i Hin), list_elem_of_here. }
    assert (Hlook : heap w !! (length h0 + i) = Some d).
    { rewrite Hh, lookup_app_r by lia.
      replace (length h0 + i - length h0) with i by lia.
      rewrite after_transcript_lookup, Hd. cbn. rewrite Hws.
      by rewrite bool_decide_eq_false_2. }
    cbn [for_each].
    pose (f := fun d => set_file (Str.replace ".transcription.txt" "" (file d)) d).
    pose (w1 := mkWorld (<[length h0 + i := f d]> (heap w)) (files w) (trace w) (entropy w)).
    pose (w2 := mkWorld (<[length h0 + i := rewritten ws d]> (heap w1)) (files w) (trace w)
                 (entropy w)).
    assert (Hlook1 : heap w1 !! (length h0 + i) = Some (f d)).
    { cbn. apply list_lookup_insert_eq. by eapply lookup_lt_Some. }
    erewrite (bind_ok _ _ w (acc ++ [length h0 + i]) w2).
    2:{ erewrite (bind_ok _ _ w tt w1) by (unfold update; by rewrite Hlook).
        erewrite (bind_ok _ _ w1 (f d) w1) by (by apply read_ok).
        erewrite (bind_ok _ _ w1 ws w1) by (unfold lift; cbn; by rewrite Hws).
        erewrite (bind_ok _ _ w1 tt w2); [done|].
        unfold update. rewrite Hlook1. unfold f. by rewrite rewritten_steps. }
    etrans; [apply (IH (visited ++ [i]) (acc ++ [length h0 + i]) w2)|].
    4:{ cbn [map]. by rewrite <- !app_assoc. }
    + cbn [heap w2 w1]. rewrite list_insert_insert_eq, Hh.
      rewrite insert_app_r_alt by lia.
      replace (length h0 + i - length h0) with i by lia.
      by rewrite (after_transcript_snoc dicts visited i d ws Hd Hws).
    + by rewrite <- app_assoc.
    + intros k Hk. apply Hall. by apply list_elem_of_further.
Qed.

(** X10. In subtitle mode, when no input has a subtitle file, [videogrep] prints
    the line of [get_subtitle_files] and then fails with a [TypeError]: the
    [False] returned is iterated over.  It does not reach the no-match
    exit. *)
Theorem no_subtitle_files_type_error X a w :
  use_transcript a = false -> use_vtt a = false ->
  Forall (fun f => files w !! subtitle_of f = None) (inputfile a) ->
  videogrep X a w = (Raise TypeError, logged w [no_subtitles]).
Proof.
  intros Ht Hv Hnone. unfold videogrep, compose. rewrite Ht, Hv.
  unfold bind at 1. unfold bind at 1. rewrite get_subtitle_files_run.
  assert (filter (fun p => present (files w) p = true) (subtitle_of <$> inputfile a) = []) as ->;
    [|done].
  induction Hnone as [|f fs Hf Hfs IH]; [done|].
  cbn [fmap list_fmap]. rewrite filter_cons_False; [exact IH|].
  unfold present. rewrite Hf. intros [? ?]%bool_decide_eq_true. done.
Qed.

Lemma no_subtitle_files_type_error_witness :
  videogrep sample_externals no_match_args caption_world
  = (Raise TypeError, logged caption_world [no_subtitles]).
Proof.
  apply no_subtitle_files_type_error; [reflexivity|reflexivity|].
  repeat constructor.
Defined.

(** X11. [get_vtt_files] pairs each input with the first name that the glob of
    its pattern gives, in the order of the inputs; the pattern of a name
    with an extension is the name without it followed by [*.vtt], and the
    pattern of a name without a dot is [*.vtt]. *)
Theorem get_vtt_files_pairs X inputfile w :
  let pairs := omap (vtt_of X) inputfile in
  ((pairs <> [] /\ get_vtt_files X inputfile w = (Ok (Some pairs), w)) \/
   (pairs = [] /\ get_vtt_files X inputfile w = (Ok None, logged w [no_vtts]))) /\
  (forall base ext, has_char "." ext = false ->
     vtt_pattern (base +:+ "." +:+ ext) = base +:+ "*.vtt" /\ vtt_pattern ext = "*.vtt").
Proof.
  intros pairs. split.
  - rewrite get_vtt_files_run. fold pairs. destruct pairs; [by right|by left].
  - intros base ext Hext. unfold vtt_pattern. split.
    + change (base +:+ "." +:+ ext) with (base +:+ String "." ext).
      rewrite (split_char_snoc "." base ext Hext), length_app. cbn [length].
      replace (length (Str.split "." base) + 1 - 1) with (length (Str.split "." base) + 0) by lia.
      rewrite take_app_add, take_0, app_nil_r. by rewrite join_split_char.
    + by rewrite (split_char_none "." ext Hext).
Qed.

(** X12. In vtt mode, when the glob finds nothing for any input, [videogrep]
    prints the line of [get_vtt_files] and then fails with a
    [TypeError]. *)
Theorem no_vtt_files_type_error X a w :
  use_transcript a = false -> use_vtt a = true ->
  Forall (fun f => glob X (vtt_pattern f) = []) (inputfile a) ->
  videogrep X a w = (Raise TypeError, logged w [no_vtts]).
Proof.
  intros Ht Hv Hnone. unfold videogrep, compose. rewrite Ht, Hv.
  unfold bind at 1. unfold bind at 1. rewrite get_vtt_files_run.
  assert (omap (vtt_of X) (inputfile a) = []) as ->; [|done].
  induction Hnone as [|f fs Hf Hfs IH]; [done|].
  change (omap (vtt_of X) (f :: fs))
    with (match vtt_of X f with
          | Some y => y :: omap (vtt_of X) fs
          | None => omap (vtt_of X) fs
          end).
  unfold vtt_of at 1. by rewrite Hf.
Qed.

Lemma no_vtt_files_type_error_witness :
  videogrep sample_externals
    (mkArgs ["talk.mp4"] "supercut.mp4" "hello" "re" 0 0%float false false 0%float false true false)
    caption_world
  = (Raise TypeError, logged caption_world [no_vtts]).
Proof.
  apply no_vtt_files_type_error; [reflexivity|reflexivity|]. repeat constructor.
Defined.

(** X13. With a search type that [search_line] does not know (fragment and
    franken among them), [compose_from_vtt] finds nothing in files that can
    be read and parsed, and changes nothing. *)
Theorem compose_from_vtt_unknown X vtts search searchtype w :
  known_searchtype searchtype = false ->
  Forall (readable_vtt X w) vtts ->
  compose_from_vtt X (Some vtts) search searchtype w = (Ok [], w).
Proof.
  intros Hk Hall. unfold compose_from_vtt.
  apply for_each_skip. intros [vtt video] acc Hin.
  rewrite Forall_forall in Hall. destruct (Hall _ Hin) as (content & sentences & Hc & Hp).
  cbn [fst] in Hc.
  unfold bind at 1. unfold read_text. rewrite Hc.
  unfold bind at 1. unfold lift at 1. rewrite Hp.
  apply for_each_skip. intros [[[text st] en] words] acc' _.
  rewrite (unknown_not_word _ Hk).
  unfold bind, lift. by rewrite (search_line_unknown X text search searchtype Hk).
Qed.

Lemma compose_from_vtt_unknown_witness :
  compose_from_vtt caption_externals (Some [("talk.en.vtt", "talk.mp4")]) "hello" "fragment"
    caption_world
  = (Ok [], caption_world) /\
  (compose_from_vtt caption_externals (Some [("talk.en.vtt", "talk.mp4")]) "hello" "re"
     caption_world).1
  = Ok [0].
Proof.
  split; [|reflexivity].
  apply compose_from_vtt_unknown; [reflexivity|].
  constructor; [|constructor]. eexists "WEBVTT", _. split; reflexivity.
Defined.

(** X14. For the search types re, word, franken and fragment,
    [compose_from_transcript] builds no dict: it writes to the dicts of
    [audiogrep.search] where they are, and its composition is the list the
    library returned, in its order.  When that list names each dict once
    and each has its words, every dict named ends with a file name that has
    lost [.transcription.txt] and with its words as its line, and the others
    are as the library made them; re is searched in the mode [sentence]. *)
Theorem compose_from_transcript_segments X inputs search searchtype dicts segments w :
  searchtype ∈ ["re"; "word"; "franken"; "fragment"] ->
  audiogrep_search X search inputs (audiogrep_mode searchtype) = Ok (dicts, segments) ->
  NoDup segments ->
  (forall i, i ∈ segments -> exists d ws, dicts !! i = Some d /\ words d = Some ws) ->
  compose_from_transcript X inputs search searchtype w
  = (Ok (map (fun i => length (heap w) + i) segments),
     mkWorld (heap w ++ after_transcript dicts segments) (files w) (trace w) (entropy w)).
Proof.
  intros Hin Hs Hnd Hall. unfold compose_from_transcript.
  assert (existsb (String.eqb searchtype) ["re"; "word"; "franken"; "fragment"] = true) as ->.
  { apply existsb_exists. exists searchtype. split; [by apply list_elem_of_In|].
    apply String.eqb_refl. }
  unfold audiogrep_mode in Hs. unfold bind at 1. unfold lift at 1. rewrite Hs.
  unfold bind at 1. unfold adopt at 1.
  rewrite (transcript_loop dicts (heap w) segments [] []); [done| | |done].
  - cbn. by rewrite after_transcript_nil.
  - done.
Qed.

Lemma compose_from_transcript_segments_witness :
  compose_from_transcript transcript_externals ["talk.mp4"] "hello" "fragment" caption_world
  = (Ok (map (fun i => length (heap caption_world) + i) [1; 0]),
     mkWorld (heap caption_world ++ after_transcript transcript_dicts [1; 0])
             (files caption_world) (trace caption_world) (entropy caption_world)).
Proof.
  apply compose_from_transcript_segments.
  - apply list_elem_of_In. cbn. tauto.
  - reflexivity.
  - apply NoDup_cons. split; [|apply NoDup_singleton].
    rewrite list_elem_of_singleton. lia.
  - intros i Hi. apply elem_of_cons in Hi as [->|Hi].
    + by eexists _, _.
    + apply list_elem_of_singleton in Hi as ->. by eexists _, _.
Defined.

(** X15. With [test] set, a run of [videogrep] writes no file and asks nothing of
    the media toolkit: it only prints. *)
Theorem test_mode_only_prints X a w :
  test a = true ->
  let w' := (videogrep X a w).2 in
  files w' = files w /\
  exists printed, trace w' = trace w ++ printed /\ Forall is_print printed.
Proof.
  intros Ht.
  assert (sat no_output any_exn (videogrep X a)) as Hsat.
  { unfold videogrep, finish, output. rewrite Ht.
    sat_go ltac:(sat_prim no_output_tac). }
  exact (proj1 (Hsat w)).
Qed.

Lemma test_mode_only_prints_witness :
  let w' := (videogrep sample_externals demo_args talk_world).2 in
  files w' = files talk_world /\
  exists printed, trace w' = trace talk_world ++ printed /\ Forall is_print printed.
Proof. apply test_mode_only_prints. reflexivity. Defined.

(** ** What [create_supercut] cuts *)

Lemma call_ok X c w : toolkit_ok X c = true -> call X c w = (Ok tt, logged w [Called c]).
Proof. intros H. unfold call. by rewrite H. Qed.

Lemma print_ok s w : print s w = (Ok tt, logged w [Print s]).
Proof. done. Qed.

Lemma logged_logged w a b : logged (logged w a) b = logged w (a ++ b).
Proof. unfold logged. cbn. by rewrite app_assoc. Qed.

Lemma valid_heap C w w' : length (heap w') = length (heap w) -> valid C w -> valid C w'.
Proof. intros Hl Hv l Hin. rewrite Hl. by apply Hv. Qed.

Lemma omap_cons_Some {A B} (f : A -> option B) x xs y :
  f x = Some y -> omap f (x :: xs) = y :: omap f xs.
Proof. intros H. change (omap f (x :: xs)) with (match f x with Some y => y :: omap f xs | None => omap f xs end). by rewrite H. Qed.

Lemma read_fold {B} (f : Segment -> B) C acc w :
  valid C w ->
  for_each C (fun c acc => let! d := read c in ret (acc ++ [f d])) acc w
  = (Ok (acc ++ omap (fun c => f <$> heap w !! c) C), w).
Proof.
  revert acc. induction C as [|c C IH]; intros acc Hv.
  - cbn. by rewrite app_nil_r.
  - destruct (lookup_lt_is_Some_2 (heap w) c) as [d Hd]; [apply Hv; left|].
    cbn [for_each]. erewrite bind_ok by (erewrite bind_ok by (by apply read_ok); reflexivity).
    rewrite IH by (intros l Hl; apply Hv; by right).
    rewrite (omap_cons_Some _ c C (f d)) by (by rewrite Hd).
    by rewrite <- app_assoc.
Qed.

Lemma omap_Forall2 {A B} (f : A -> option B) xs :
  Forall (fun x => is_Some (f x)) xs ->
  Forall2 (fun x y => f x = Some y) xs (omap f xs).
Proof.
  induction 1 as [|x xs [y Hy] _ IH]; [constructor|].
  rewrite (omap_cons_Some f x xs y Hy). by constructor.
Qed.

Lemma clips_Forall2 h C :
  (forall l, l ∈ C -> l < length h) ->
  Forall2 (fun c clip => clip_of h c = Some clip) C (omap (clip_of h) C).
Proof.
  intros Hv. apply omap_Forall2, Forall_forall. intros c Hc.
  destruct (lookup_lt_is_Some_2 h c (Hv c Hc)) as [d Hd].
  unfold clip_of. rewrite Hd. by eexists.
Qed.

Lemma omap_cons_None {A B} (f : A -> option B) x xs :
  f x = None -> omap f (x :: xs) = omap f xs.
Proof.
  intros H.
  change (omap f (x :: xs))
    with (match f x with Some y => y :: omap f xs | None => omap f xs end).
  by rewrite H.
Qed.

Lemma clips_names h C :
  omap (fun c => file <$> h !! c) C = map (fun clip : Clip => clip.1.1) (omap (clip_of h) C).
Proof.
  induction C as [|c C IH]; [done|].
  destruct (h !! c) as [d|] eqn:Hd.
  - rewrite (omap_cons_Some _ c C (file d)) by (by rewrite Hd).
    rewrite (omap_cons_Some (clip_of h) c C (file d, start d, end_ d))
      by (unfold clip_of; by rewrite Hd).
    cbn [map fst]. by rewrite IH.
  - rewrite omap_cons_None by (by rewrite Hd).
    rewrite (omap_cons_None (clip_of h)) by (unfold clip_of; by rewrite Hd).
    exact IH.
Qed.

(** A full run of [create_supercut] with a toolkit that goes through. *)
Lemma create_supercut_run X C outputfile p w :
  NoDup C -> valid C w -> (forall c, toolkit_ok X c = true) ->
  exists h',
    length h' = length (heap w) /\
    (forall l, l ∉ drop 1 C -> h' !! l = heap w !! l) /\
    (forall i a b da db,
       C !! i = Some a -> C !! S i = Some b ->
       heap w !! a = Some da -> heap w !! b = Some db ->
       h' !! b = Some (corrected p da db)) /\
    create_supercut X C outputfile p w
    = (Ok tt,
       mkWorld h' (files w)
         (trace w ++ Print "[+] Creating clips."
                     :: map Print (imap (demo_line X (heap w) C p) C)
                     ++ render_events outputfile (omap (clip_of h') C))
         (entropy w)).
Proof.
  intros Hnd Hv Hok.
  set (w1 := logged w [Print "[+] Creating clips."]).
  set (w2 := logged w1 (map Print (imap (demo_line X (heap w) C p) C))).
  destruct (correct_overlaps_run C p w2 Hnd Hv) as (h' & Hrun & Hlen & Hout & Hin).
  set (w3 := mkWorld h' (files w2) (trace w2) (entropy w2)).
  assert (Hv3 : forall evs, valid C (logged w3 evs))
    by (intros evs l Hl; cbn; rewrite Hlen; by apply Hv).
  exists h'. split; [exact Hlen|]. split; [exact Hout|]. split; [exact Hin|].
  unfold create_supercut.
  rewrite (bind_ok _ _ w tt w1) by reflexivity.
  rewrite (bind_ok _ _ w1 tt w2).
  2:{ unfold demo_supercut, enumerate.
      exact (demo_supercut_fold X C p [] C w1 eq_refl Hv). }
  rewrite (bind_ok _ _ w2 tt w3) by exact Hrun.
  pose proof (read_fold file C [] (logged w3 []) (Hv3 [])) as Hnames.
  replace (logged w3 []) with w3 in Hnames by (unfold logged; cbn; by rewrite app_nil_r).
  rewrite (bind_ok _ _ _ _ _ Hnames). cbn [app heap w3]. rewrite clips_names.
  rewrite (bind_ok _ _ _ _ _ (call_ok X _ _ (Hok _))).
  rewrite (bind_ok _ _ _ _ _ (read_fold (fun d => (file d, start d, end_ d)) C [] _ (Hv3 _))).
  cbn [app heap w3 logged]. fold (clip_of h').
  rewrite (bind_ok _ _ _ _ _ (call_ok X _ _ (Hok _))).
  rewrite (bind_ok _ _ _ _ _ (print_ok _ _)).
  rewrite (bind_ok _ _ _ _ _ (call_ok X _ _ (Hok _))).
  rewrite (bind_ok _ _ _ _ _ (print_ok _ _)).
  rewrite (call_ok X _ _ (Hok _)).
  unfold logged, render_events, w3, w2, w1, logged. cbn [heap files trace entropy].
  rewrite <- !app_assoc. reflexivity.
Qed.

Lemma corrected_demo_clip h h' C p :
  NoDup C -> (forall l, l ∈ C -> l < length h) ->
  (forall l, l ∉ drop 1 C -> h' !! l = h !! l) ->
  (forall i a b da db,
     C !! i = Some a -> C !! S i = Some b ->
     h !! a = Some da -> h !! b = Some db ->
     h' !! b = Some (corrected p da db)) ->
  forall i c, C !! i = Some c -> clip_of h' c = demo_clip h C p i c.
Proof.
  intros Hnd Hv Hout Hin i c Hc.
  destruct (lookup_lt_is_Some_2 h c) as [d Hd]; [apply Hv; by eapply list_elem_of_lookup_2|].
  unfold clip_of, demo_clip. rewrite Hd. destruct i as [|j].
  - rewrite Hout, Hd; [done|].
    intros [k Hk]%list_elem_of_lookup_1. rewrite lookup_drop in Hk.
    pose proof (NoDup_lookup _ _ _ _ Hnd Hc Hk). lia.
  - destruct (lookup_lt_is_Some_2 C j) as [a Ha]; [apply lookup_lt_Some in Hc; lia|].
    destruct (lookup_lt_is_Some_2 h a) as [da Hda]; [apply Hv; by eapply list_elem_of_lookup_2|].
    rewrite (Hin j a c da d Ha Hc Hda Hd). cbn [fmap option_fmap option_map demo_start].
    rewrite Ha. cbn [mbind option_bind]. rewrite Hda.
    unfold corrected. rewrite (String.eqb_sym (file d) (file da)).
    by destruct (_ && _).
Qed.

(** X16. With a toolkit that goes through, [create_supercut] cuts, for every
    dict of the composition, the span that its printed line announces: the
    start shown by [demo_supercut] is the start given to [subclip]. *)
Theorem create_supercut_cuts_as_printed X C outputfile p w :
  NoDup C -> valid C w -> (forall c, toolkit_ok X c = true) ->
  exists w' clips,
    create_supercut X C outputfile p w = (Ok tt, w') /\
    files w' = files w /\
    trace w' = trace w ++ Print "[+] Creating clips."
                          :: map Print (imap (demo_line X (heap w) C p) C)
                          ++ render_events outputfile clips /\
    length clips = length C /\
    forall i c, C !! i = Some c -> clips !! i = demo_clip (heap w) C p i c.
Proof.
  intros Hnd Hv Hok.
  destruct (create_supercut_run X C outputfile p w Hnd Hv Hok)
    as (h' & Hlen & Hout & Hin & Hrun).
  eexists _, (omap (clip_of h') C). split; [exact Hrun|].
  split; [done|]. split; [done|].
  assert (HF : Forall2 (fun c clip => clip_of h' c = Some clip) C (omap (clip_of h') C)).
  { apply clips_Forall2. intros l Hl. rewrite Hlen. by apply Hv. }
  split; [symmetry; by eapply Forall2_length|].
  intros i c Hc.
  destruct (Forall2_lookup_l _ _ _ _ _ HF Hc) as (clip & Hclip & Hcc).
  rewrite Hclip, <- Hcc. by apply corrected_demo_clip.
Qed.

Lemma create_supercut_cuts_as_printed_witness :
  exists w' clips,
    create_supercut sample_externals [0; 1] "supercut.mp4" (500 / 1000)%float padded
      = (Ok tt, w') /\
    files w' = files padded /\
    trace w' = trace padded ++ Print "[+] Creating clips."
                 :: map Print (imap (demo_line sample_externals (heap padded) [0; 1]
                                       (500 / 1000)%float) [0; 1])
                 ++ render_events "supercut.mp4" clips /\
    length clips = length [0; 1] /\
    forall i c, [0; 1] !! i = Some c ->
      clips !! i = demo_clip (heap padded) [0; 1] (500 / 1000)%float i c.
Proof.
  apply create_supercut_cuts_as_printed.
  - apply NoDup_cons. split; [|apply NoDup_singleton].
    rewrite list_elem_of_singleton. lia.
  - intros l Hl. change (l < 2).
    apply elem_of_cons in Hl as [->|Hl]; [lia|].
    apply list_elem_of_singleton in Hl as ->. lia.
  - reflexivity.
Defined.









(** ** Clips and timelines *)

Lemma string_length_app a b : String.length (a +:+ b) = String.length a + String.length b.
Proof. induction a as [|c a IH]; cbn [String.append String.length]; [done|by rewrite IH]. Qed.

Lemma append_inj_l a x y : a +:+ x = a +:+ y -> x = y.
Proof. induction a as [|c a IH]; cbn [String.append]; [done|]. intros [= H]. auto. Qed.

Lemma append_inj_r e x y : x +:+ e = y +:+ e -> x = y.
Proof.
  revert y. induction x as [|c x IH]; intros [|c' y] H; [done| | |].
  - apply (f_equal String.length) in H. cbn in H. rewrite string_length_app in H. lia.
  - apply (f_equal String.length) in H. cbn in H. rewrite string_length_app in H. lia.
  - cbn [String.append] in H. injection H as -> H. f_equal. by apply IH.
Qed.

Lemma digits_value_uint d acc :
  digits_value (Z.of_nat acc) (NilEmpty.string_of_uint d)
  = Some (Z.of_nat (Nat.of_uint_acc d acc)).
Proof.
  revert acc. induction d as [|d IH|d IH|d IH|d IH|d IH|d IH|d IH|d IH|d IH|d IH]; intros acc;
    [done|..];
    cbn [NilEmpty.string_of_uint digits_value Nat.of_uint_acc];
    (match goal with
     | |- context [Str.is_digit ?c] =>
         change (Str.is_digit c) with true;
         let n := eval vm_compute in (Z.of_nat (nat_of_ascii c)) in
         change (Z.of_nat (nat_of_ascii c)) with n
     end);
    cbv iota; rewrite <- IH, Nat.tail_mul_spec; f_equal; lia.
Qed.

Lemma digits_value_str_nat n : digits_value 0 (str_nat n) = Some (Z.of_nat n).
Proof.
  unfold str_nat. change 0%Z with (Z.of_nat 0). rewrite (digits_value_uint (Nat.to_uint n) 0).
  change (Nat.of_uint_acc (Nat.to_uint n) 0) with (Nat.of_uint (Nat.to_uint n)).
  by rewrite Unsigned.of_to.
Qed.

Lemma digits_value_zeros k s : digits_value 0 (zeros k +:+ s) = digits_value 0 s.
Proof. induction k as [|k IH]; [done|]. exact IH. Qed.

Lemma digits_value_zfill width n : digits_value 0 (zfill width (str_nat n)) = Some (Z.of_nat n).
Proof. unfold zfill. by rewrite digits_value_zeros, digits_value_str_nat. Qed.

Lemma zfill_inj width i j : zfill width (str_nat i) = zfill width (str_nat j) -> i = j.
Proof.
  intros H. apply (f_equal (digits_value 0)) in H.
  rewrite !digits_value_zfill in H. injection H. lia.
Qed.

Lemma zfill_length width s : width <= String.length (zfill width s).
Proof.
  unfold zfill. rewrite string_length_app.
  assert (String.length (zeros (width - String.length s)) = width - String.length s) as ->;
    [|lia].
  induction (width - String.length s) as [|k IH]; cbn; [done|by rewrite IH].
Qed.

Lemma clip_name_inj outputfile i j : clip_name outputfile i = clip_name outputfile j -> i = j.
Proof.
  unfold clip_name. intros H%append_inj_l. cbn [String.append] in H.
  injection H as H%append_inj_r. by apply zfill_inj in H.
Qed.

Lemma split_clips_writes X outputfile clips k w :
  (forall c, toolkit_ok X c = true) ->
  for_each_ (enumerate_from k clips) (fun '(i, clip) =>
    let clipfilename := (splitext outputfile).1 +:+ "_" +:+ zfill 5 (str_nat i)
                        +:+ (splitext outputfile).2 in
    call X (ToVideofile clipfilename [clip])) w
  = (Ok tt, logged w (imap (fun i clip => Called (ToVideofile (clip_name outputfile (k + i)) [clip]))
                           clips)).
Proof.
  intros Hok. revert k w. induction clips as [|clip clips IH]; intros k w.
  - unfold logged. cbn. rewrite app_nil_r. by destruct w.
  - cbn [enumerate_from]. rewrite for_each__cons.
    rewrite (bind_ok _ _ _ _ _ (call_ok X _ _ (Hok _))).
    rewrite IH, logged_logged, imap_cons, Nat.add_0_r. cbn [app]. do 3 f_equal.
    apply imap_ext. intros i x _. cbn. by rewrite Nat.add_succ_r.
Qed.

#[global] Instance timeline_only_preorder : PreOrder timeline_only.
Proof.
  split.
  - intros w. split; [done|]. split; [done|]. exists []. by rewrite app_nil_r.
  - intros w1 w2 w3 (Hh & Hf & t & Ht & Hp) (Hh' & Hf' & t' & Ht' & Hp').
    split; [congruence|]. split; [congruence|].
    exists (t ++ t'). split; [|by apply Forall_app].
    by rewrite Ht', Ht, app_assoc.
Qed.

Lemma timeline_only_print s w :
  timeline_only w (mkWorld (heap w) (files w) (trace w ++ [Print s]) (entropy w)).
Proof.
  split; [done|]. split; [done|]. exists [Print s]. split; [done|].
  constructor; [left; by exists s|constructor].
Qed.

Lemma timeline_only_call name rows w :
  timeline_only w (mkWorld (heap w) (files w) (trace w ++ [Called (Timeline name rows)])
                           (entropy w)).
Proof.
  split; [done|]. split; [done|]. eexists [_]. split; [done|].
  constructor; [right; by eexists _, _|constructor].
Qed.

Ltac timeline_only_tac :=
  first [ apply timeline_only_print | apply timeline_only_call ].

(** X18. With a toolkit that goes through, [split_clips] writes one file for
    each dict of the composition, cut from its start to its end as they are
    in the store, under names that differ from one another; it changes no
    dict, so no overlap is corrected in this mode. *)
Theorem split_clips_one_file_each X C outputfile w :
  valid C w -> (forall c, toolkit_ok X c = true) ->
  exists clips,
    split_clips X C outputfile w = (Ok tt, logged w (split_events outputfile clips)) /\
    Forall2 (fun c clip => clip_of (heap w) c = Some clip) C clips /\
    forall i j, clip_name outputfile i = clip_name outputfile j -> i = j.
Proof.
  intros Hv Hok. exists (omap (clip_of (heap w)) C).
  split; [|split; [by apply clips_Forall2|apply clip_name_inj]].
  unfold split_clips.
  rewrite (bind_ok _ _ _ _ _ (read_fold file C [] w Hv)). cbn [app]. rewrite clips_names.
  rewrite (bind_ok _ _ _ _ _ (call_ok X _ _ (Hok _))).
  assert (Hv1 : forall evs, valid C (logged w evs)) by (intros evs l Hl; by apply Hv).
  rewrite (bind_ok _ _ _ _ _ (read_fold (fun d => (file d, start d, end_ d)) C [] _ (Hv1 _))).
  cbn [app heap logged]. fold (clip_of (heap w)).
  rewrite (bind_ok _ _ _ _ _ (call_ok X _ _ (Hok _))).
  destruct (splitext outputfile) as [basename ext] eqn:Hs.
  rewrite (bind_ok _ _ _ _ _ (print_ok _ _)).
  unfold enumerate.
  pose proof (split_clips_writes X outputfile (omap (clip_of (heap w)) C) 0) as Hw.
  rewrite Hs in Hw. cbn [fst snd] in Hw. rewrite Hw by done.
  rewrite !logged_logged. unfold split_events, clip_name. rewrite Hs. cbn [fst snd].
  do 2 f_equal.
Qed.

Lemma split_clips_one_file_each_witness :
  exists clips,
    split_clips sample_externals [0; 1] "supercut.mp4" padded
      = (Ok tt, logged padded (split_events "supercut.mp4" clips)) /\
    Forall2 (fun c clip => clip_of (heap padded) c = Some clip) [0; 1] clips /\
    forall i j, clip_name "supercut.mp4" i = clip_name "supercut.mp4" j -> i = j.
Proof.
  apply split_clips_one_file_each.
  - intros l Hl. change (l < 2).
    apply elem_of_cons in Hl as [->|Hl]; [lia|].
    apply list_elem_of_singleton in Hl as ->. lia.
  - reflexivity.
Defined.

(** X19. With an output name that ends in [.otio], [output] changes no dict,
    writes no file of its own and asks the toolkit for nothing but the
    timeline: no video is rendered. *)
Theorem otio_output_renders_nothing X C a p w :
  test a = false -> lower (splitext (outputfile a)).2 = ".otio" ->
  let w' := (output X C a p w).2 in
  heap w' = heap w /\ files w' = files w /\
  exists t, trace w' = trace w ++ t /\ Forall timeline_event t.
Proof.
  intros Ht Hext.
  assert (sat timeline_only any_exn (output X C a p)) as Hsat.
  { unfold output. rewrite Ht, Hext. cbn [String.eqb Ascii.eqb Bool.eqb].
    sat_go ltac:(sat_prim timeline_only_tac). }
  exact (proj1 (Hsat w)).
Qed.

Lemma otio_output_renders_nothing_witness :
  let w' := (output sample_externals [0; 1]
               (mkArgs ["talk.mp4"] "supercut.otio" "hello" "re" 0 500 false false 0
                       false false false)
               (500 / 1000)%float padded).2 in
  heap w' = heap padded /\ files w' = files padded /\
  exists t, trace w' = trace padded ++ t /\ Forall timeline_event t.
Proof. apply otio_output_renders_nothing; reflexivity. Defined.

(** ** Reel names and batches *)

Lemma make_edl_step_names X index timestamp st w st' w' :
  make_edl_step X index timestamp st w = (Ok st', w') ->
  exists a, edl_calls st' = edl_calls st ++ [a] /\
            edl_n a = zfill 4 (str_nat (index + 1)) /\
            full_name a = "reel_" +:+ edl_n a.
Proof.
  intros H. unfold make_edl_step, bind, read, ret, lift, get_fps, print in H.
  repeat case_match; simplify_eq; eexists; (split; [reflexivity|done]).
Qed.

Lemma make_edl_names X timestamps k st w st' w' :
  for_each (enumerate_from k timestamps)
    (fun '(index, timestamp) st => make_edl_step X index timestamp st) st w = (Ok st', w') ->
  exists calls, edl_calls st' = edl_calls st ++ calls /\
    forall i a, calls !! i = Some a ->
      edl_n a = zfill 4 (str_nat (k + i + 1)) /\ full_name a = "reel_" +:+ edl_n a.
Proof.
  revert k st w. induction timestamps as [|t ts IH]; intros k st w.
  - cbn. intros [= <- <-]. exists []. rewrite app_nil_r. split; [done|]. by intros i a.
  - cbn [enumerate_from for_each]. unfold bind at 1.
    destruct (make_edl_step X k t st w) as [[st1|e] w1] eqn:Hstep; [|done].
    intros Hrest. apply make_edl_step_names in Hstep as (a & Ha & Hn & Hf).
    apply IH in Hrest as (calls & Hc & Hall).
    exists (a :: calls). split; [by rewrite Hc, Ha, <- app_assoc|].
    intros [|i] b; cbn.
    + intros [= <-]. by rewrite Nat.add_0_r.
    + intros Hb. destruct (Hall i b Hb) as [H1 H2]. split; [|done].
      rewrite H1. do 2 f_equal. lia.
Qed.

Lemma small_reels :
  forallb (fun i => String.eqb (String.substring 0 7 ("reel_" +:+ zfill 4 (str_nat (i + 1))))
                               "reel_00") (seq 0 99) = true.
Proof. vm_compute. reflexivity. Qed.

#[global] Instance touches_preorder P : PreOrder (touches P).
Proof.
  split.
  - intros w. by split.
  - intros w1 w2 w3 [Hl H] [Hl' H']. split; [congruence|].
    intros l Hn. by rewrite H', H.
Qed.

Lemma touches_heap P w w' : heap w' = heap w -> touches P w w'.
Proof. intros H. split; by rewrite H. Qed.

Lemma touches_insert (P : nat -> Prop) w l d :
  P l ->
  touches P w (mkWorld (<[l := d]> (heap w)) (files w) (trace w) (entropy w)).
Proof.
  intros HP. split; cbn; [by rewrite length_insert|].
  intros l' Hn. apply list_lookup_insert_ne. by intros ->.
Qed.

Ltac touches_tac := apply touches_heap; reflexivity.

Lemma correct_overlaps_touches (P : nat -> Prop) C p :
  (forall l, l ∈ drop 1 C -> P l) -> sat (touches P) any_exn (correct_overlaps C p).
Proof.
  intros HP. unfold correct_overlaps. apply sat_for_each_; [apply _|].
  intros [clip next] Hin. assert (P next) as Hn.
  { apply HP. by apply elem_of_zip_r in Hin. }
  repeat (sat_step; try done).
  apply sat_update; [apply _|done|]. intros w d _. by apply touches_insert.
Qed.

Lemma create_supercut_touches X (P : nat -> Prop) C outputfile p :
  (forall l, l ∈ drop 1 C -> P l) ->
  sat (touches P) any_exn (create_supercut X C outputfile p).
Proof.
  intros HP. unfold create_supercut.
  apply sat_bind; [apply _|sat_go ltac:(sat_prim touches_tac)|intros _].
  apply sat_bind; [apply _|sat_go ltac:(sat_prim touches_tac)|intros _].
  apply sat_bind; [apply _|by apply correct_overlaps_touches|intros _].
  sat_go ltac:(sat_prim touches_tac).
Qed.

Lemma inside_batch_slice C k l :
  l ∈ drop 1 (take BATCH_SIZE (drop (k * BATCH_SIZE) C)) -> inside_batch C l.
Proof.
  intros [i Hi]%list_elem_of_lookup_1. rewrite lookup_drop in Hi.
  apply lookup_take_Some in Hi as [Hi Hlt]. rewrite lookup_drop in Hi.
  exists (k * BATCH_SIZE + (1 + i)). split; [|done].
  rewrite Nat.add_comm, Nat.Div0.mod_add, Nat.mod_small; lia.
Qed.

Lemma batches_touch X C outputfile p :
  sat (touches (inside_batch C)) any_exn (create_supercut_in_batches X C outputfile p).
Proof.
  unfold create_supercut_in_batches.
  apply sat_bind; [apply _| |intros batch_comp; sat_go ltac:(sat_prim touches_tac)].
  apply sat_for_each; [apply _|]. intros s acc [k [-> _]]%list_elem_of_fmap.
  unfold batch_turn. replace (k * BATCH_SIZE + BATCH_SIZE - k * BATCH_SIZE) with BATCH_SIZE by lia.
  eapply sat_try_except with (E' := fun _ => True); [apply _| |sat_step].
  apply sat_bind; [apply _| |intros _; sat_step].
  apply create_supercut_touches. intros l. apply inside_batch_slice.
Qed.

Lemma remove_files_run X parts w :
  (forall f, toolkit_ok X (RemoveFile f) = true) ->
  for_each_ parts (fun filename => call X (RemoveFile filename)) w
  = (Ok tt, logged w (map (fun f => Called (RemoveFile f)) parts)).
Proof.
  intros Hok. revert w. induction parts as [|f parts IH]; intros w.
  - unfold logged. cbn. rewrite app_nil_r. by destruct w.
  - rewrite for_each__cons, (bind_ok _ _ _ _ _ (call_ok X _ _ (Hok f))), IH, logged_logged.
    done.
Qed.

(** X20. Every event of the list that [make_edl] writes is numbered by its
    position, from 1, filled with zeros to four digits; the reel named after
    [REPLACED BY] is the clip name cut to seven characters, so that the
    first 99 events all name the reel [reel_00]. *)
Theorem make_edl_reel_names X timestamps name w st w' :
  make_edl_loop X timestamps name w = (Ok st, w') ->
  forall i a, edl_calls st !! i = Some a ->
    edl_n a = zfill 4 (str_nat (i + 1)) /\
    full_name a = "reel_" +:+ edl_n a /\
    (exists body,
       make_edl_segment X a
       = body +:+ " REPLACED BY: " +:+ String.substring 0 7 (full_name a) +:+ nl +:+ nl) /\
    (i < 99 -> String.substring 0 7 (full_name a) = "reel_00").
Proof.
  unfold make_edl_loop, enumerate. intros Hrun i a Ha.
  apply make_edl_names in Hrun as (calls & Hc & Hall). cbn [edl_calls app] in Hc.
  rewrite Hc in Ha. destruct (Hall i a Ha) as [Hn Hf]. cbn [Nat.add] in Hn.
  split; [done|]. split; [done|]. split.
  - unfold make_edl_segment.
    assert ((7 <? String.length (full_name a))%nat = true) as ->.
    { apply Nat.ltb_lt. rewrite Hf, Hn, string_length_app.
      pose proof (zfill_length 4 (str_nat (i + 1))). cbn [String.length]. lia. }
    eexists (edl_n a +:+ " " +:+ full_name a +:+ " AA/V  C        "
             +:+ Timecode X (edl_fps a) (time_in a) +:+ " "
             +:+ Timecode X (edl_fps a) (time_out a) +:+ " "
             +:+ Timecode X (edl_fps a) (rec_in a) +:+ " "
             +:+ Timecode X (edl_fps a) (rec_out a) +:+ nl
             +:+ "* FROM CLIP NAME:  " +:+ filename a +:+ nl
             +:+ "* COMMENT: " +:+ nl
             +:+ " FINAL CUT PRO REEL: " +:+ full_name a).
    by rewrite !append_assoc.
  - intros Hi. rewrite Hf, Hn.
    pose proof small_reels as Hs. rewrite forallb_forall in Hs.
    apply String.eqb_eq, (Hs i). apply in_seq. lia.
Qed.

Lemma make_edl_reel_names_witness :
  edl_n first_call = zfill 4 (str_nat (0 + 1)) /\
  full_name first_call = "reel_" +:+ edl_n first_call /\
  (exists body,
     make_edl_segment sample_externals first_call
     = body +:+ " REPLACED BY: " +:+ String.substring 0 7 (full_name first_call)
       +:+ nl +:+ nl) /\
  (0 < 99 -> String.substring 0 7 (full_name first_call) = "reel_00").
Proof.
  refine (make_edl_reel_names sample_externals [0; 1] "supercut.edl" back_to_back
            sample_edl_state
            (make_edl_loop sample_externals [0; 1] "supercut.edl" back_to_back).2 _
            0 first_call _); vm_compute; reflexivity.
Defined.

(** X21. Rendering in batches never corrects the first dict of a batch: whatever
    it overlaps, the dict at a position that is a multiple of the batch size
    is after the call as it was before. *)
Theorem batch_seam_uncorrected X C outputfile p w k l :
  NoDup C -> C !! (k * BATCH_SIZE) = Some l ->
  heap (create_supercut_in_batches X C outputfile p w).2 !! l = heap w !! l.
Proof.
  intros Hnd Hl. destruct (batches_touch X C outputfile p w) as [[_ H] _].
  apply H. intros (j & Hj & Hlj).
  pose proof (NoDup_lookup _ _ _ _ Hnd Hl Hlj) as <-.
  by rewrite Nat.Div0.mod_mul in Hj.
Qed.

Lemma batch_seam_uncorrected_witness :
  heap (create_supercut_in_batches sample_externals (seq 0 25) "supercut.mp4"
          (500 / 1000)%float long_world).2 !! 20
  = heap long_world !! 20 /\
  start <$> heap long_world !! 20 = Some 1%float /\
  start <$> heap (create_supercut sample_externals (seq 0 25) "supercut.mp4"
                    (500 / 1000)%float long_world).2 !! 20
  = Some 1.5%float.
Proof.
  split; [|split; vm_compute; reflexivity].
  apply (batch_seam_uncorrected sample_externals (seq 0 25) "supercut.mp4" _ long_world 1 20).
  - apply NoDup_seq.
  - reflexivity.
Defined.

Lemma written_app t t' name : written (t ++ t') name = written t name || written t' name.
Proof. unfold written. apply existsb_app. Qed.

#[global] Instance no_video_preorder : PreOrder no_video.
Proof.
  split.
  - intros w. exists []. by rewrite app_nil_r.
  - intros w1 w2 w3 (t & Ht & Hn) (t' & Ht' & Hn').
    exists (t ++ t'). split; [by rewrite Ht', Ht, app_assoc|].
    intros name. by rewrite written_app, Hn, Hn'.
Qed.

Lemma no_video_keep w w' : trace w' = trace w -> no_video w w'.
Proof. intros Ht. exists []. by rewrite app_nil_r. Qed.

Lemma no_video_event ev w :
  (forall name, writes_video name ev = false) ->
  no_video w (mkWorld (heap w) (files w) (trace w ++ [ev]) (entropy w)).
Proof. intros H. exists [ev]. split; [done|]. intros name. cbn. by rewrite H. Qed.

Ltac no_video_tac :=
  first [ apply no_video_event; reflexivity | apply no_video_keep; reflexivity ].

Lemma ends_in_write_bind {A} name (m : M A) (k : A -> M unit) :
  sat no_video any_exn m -> (forall a, ends_in_write name (k a)) ->
  ends_in_write name (bind m k).
Proof.
  intros Hm Hk w. destruct (Hm w) as [(t & Ht & Hn) _]. unfold bind.
  destruct (m w) as [[a|e] w1]; cbn [fst snd] in *.
  - destruct (Hk a w1) as (t' & Ht' & Hother & Hres).
    exists (t ++ t'). split; [by rewrite Ht', Ht, app_assoc|]. split.
    + intros n. rewrite written_app, Hn. apply Hother.
    + by rewrite written_app, Hn.
  - exists t. split; [done|]. split; [|done]. intros n. by rewrite Hn.
Qed.

Lemma ends_in_write_call X name clips : ends_in_write name (call X (ToVideofile name clips)).
Proof.
  intros w. unfold call. destruct (toolkit_ok X _).
  - exists [Called (ToVideofile name clips)]. split; [done|]. cbn. split.
    + intros n. rewrite orb_false_r. by intros ->%String.eqb_eq.
    + by rewrite String.eqb_refl.
  - exists []. cbn. split; [by rewrite app_nil_r|]. split; [discriminate|done].
Qed.

Lemma create_supercut_ends_in_write X C outputfile p :
  ends_in_write outputfile (create_supercut X C outputfile p).
Proof.
  unfold create_supercut.
  repeat (apply ends_in_write_bind; [sat_go ltac:(sat_prim no_video_tac)|intros ?]).
  apply ends_in_write_call.
Qed.

(** One turn of the loop: the name of the partial video is added exactly
    when that video was written. *)
Lemma batch_turn_written X C outputfile p s acc w :
  exists t,
    batch_turn X C outputfile p s acc w
    = (Ok (if written t (tmp_name outputfile s) then acc ++ [tmp_name outputfile s] else acc),
       (batch_turn X C outputfile p s acc w).2) /\
    trace (batch_turn X C outputfile p s acc w).2 = trace w ++ t /\
    (forall n, written t n = true -> n = tmp_name outputfile s).
Proof.
  unfold batch_turn. fold (tmp_name outputfile s).
  destruct (create_supercut_ends_in_write X
              (take (s + BATCH_SIZE - s) (drop s C)) (tmp_name outputfile s) p w)
    as (t & Ht & Hother & Hres).
  exists t. unfold try_except, bind.
  destruct (create_supercut X _ _ p w) as [[[]|e] w1]; cbn [fst snd] in *;
    rewrite Hres; done.
Qed.

Lemma str_nat_inj i j : str_nat i = str_nat j -> i = j.
Proof.
  intros H. apply (f_equal (digits_value 0)) in H.
  rewrite !digits_value_str_nat in H. injection H. lia.
Qed.

Lemma tmp_name_inj outputfile i j : tmp_name outputfile i = tmp_name outputfile j -> i = j.
Proof.
  unfold tmp_name. intros H%append_inj_l. cbn [String.append] in H.
  injection H as H%append_inj_r. by apply str_nat_inj.
Qed.

(** The loop over the batches: the names gathered are those of the batches
    whose partial video was written, in the order of the batches. *)
Lemma batches_written X C outputfile p starts acc w :
  NoDup starts ->
  exists t w1,
    for_each starts (batch_turn X C outputfile p) acc w
    = (Ok (acc ++ List.filter (written t) (map (tmp_name outputfile) starts)), w1) /\
    trace w1 = trace w ++ t /\
    (forall n, written t n = true -> n ∈ map (tmp_name outputfile) starts).
Proof.
  revert acc w. induction starts as [|s starts IH]; intros acc w Hnd.
  - exists [], w. cbn. rewrite !app_nil_r. split; [done|]. split; [done|]. discriminate.
  - apply NoDup_cons in Hnd as [Hs Hnd].
    destruct (batch_turn_written X C outputfile p s acc w) as (t1 & Hrun & Ht1 & Hother).
    set (w1 := (batch_turn X C outputfile p s acc w).2) in *.
    destruct (IH (if written t1 (tmp_name outputfile s) then acc ++ [tmp_name outputfile s]
                  else acc) w1 Hnd) as (t2 & w2 & Hrest & Ht2 & Hin).
    assert (Hfresh : tmp_name outputfile s ∉ map (tmp_name outputfile) starts).
    { intros (s' & Heq%tmp_name_inj & Hs')%list_elem_of_fmap. by subst s'. }
    assert (Hhead : written (t1 ++ t2) (tmp_name outputfile s)
                    = written t1 (tmp_name outputfile s)).
    { rewrite written_app. destruct (written t2 (tmp_name outputfile s)) eqn:H2;
        [|by rewrite orb_false_r].
      by destruct (Hfresh (Hin _ H2)). }
    assert (Htail : List.filter (written (t1 ++ t2)) (map (tmp_name outputfile) starts)
                    = List.filter (written t2) (map (tmp_name outputfile) starts)).
    { apply List.filter_ext_in. intros n Hn%list_elem_of_In. rewrite written_app.
      destruct (written t1 n) eqn:H1; [|done].
      apply Hother in H1. subst n. by destruct (Hfresh Hn). }
    exists (t1 ++ t2), w2. cbn [for_each map List.filter].
    rewrite (bind_ok _ _ _ _ _ Hrun), Hrest, Hhead, Htail.
    split; [|split].
    + destruct (written t1 (tmp_name outputfile s)); [|done]. by rewrite <- app_assoc.
    + by rewrite Ht2, Ht1, app_assoc.
    + intros n. rewrite written_app. intros [H1|H2]%orb_true_iff.
      * rewrite (Hother n H1). apply list_elem_of_here.
      * apply list_elem_of_further. by apply Hin.
Qed.

Lemma starts_NoDup n : NoDup (map (fun k => k * BATCH_SIZE) (seq 0 n)).
Proof.
  apply NoDup_fmap_2; [|apply NoDup_seq].
  intros i j H. pose proof BATCH_SIZE_pos. nia.
Qed.

(** X22. Rendering in batches drops the batches that fail and no other:
    whatever goes wrong while a batch is rendered, the loop goes on, and the
    names it hands on are those of the batches whose partial video was
    written, in the order of the batches.  The run then joins these files,
    removes each of them and cleans up; with a toolkit that lets these calls
    through it returns, and when the toolkit refuses to join them, as it
    does when every batch failed and there is nothing to join, the run ends
    in its error. *)
Theorem batches_drop_failures X C outputfile p w :
  let starts := map (fun k => k * BATCH_SIZE)
                    (seq 0 ((length C + BATCH_SIZE - 1) / BATCH_SIZE)) in
  exists t w1,
    let batch_comp := List.filter (written t) (map (tmp_name outputfile) starts) in
    for_each starts (batch_turn X C outputfile p) [] w = (Ok batch_comp, w1) /\
    trace w1 = trace w ++ t /\
    create_supercut_in_batches X C outputfile p w
    = (call X (JoinFiles outputfile batch_comp) >>
       for_each_ batch_comp (fun filename => call X (RemoveFile filename)) >>
       call X (CleanupLogs outputfile)) w1 /\
    (toolkit_ok X (JoinFiles outputfile batch_comp) = true ->
     (forall f, toolkit_ok X (RemoveFile f) = true) ->
     toolkit_ok X (CleanupLogs outputfile) = true ->
     create_supercut_in_batches X C outputfile p w
     = (Ok tt, logged w1 (Called (JoinFiles outputfile batch_comp)
                          :: map (fun f => Called (RemoveFile f)) batch_comp
                          ++ [Called (CleanupLogs outputfile)]))) /\
    (toolkit_ok X (JoinFiles outputfile batch_comp) = false ->
     create_supercut_in_batches X C outputfile p w = (Raise ToolkitError, w1)).
Proof.
  cbn zeta.
  destruct (batches_written X C outputfile p
              (map (fun k => k * BATCH_SIZE) (seq 0 ((length C + BATCH_SIZE - 1) / BATCH_SIZE)))
              [] w (starts_NoDup _)) as (t & w1 & Hrun & Ht & _).
  cbn [app] in Hrun. exists t, w1. split; [exact Hrun|]. split; [exact Ht|].
  assert (Hrest : create_supercut_in_batches X C outputfile p w
                  = (call X (JoinFiles outputfile
                       (List.filter (written t) (map (tmp_name outputfile)
                          (map (fun k => k * BATCH_SIZE)
                             (seq 0 ((length C + BATCH_SIZE - 1) / BATCH_SIZE))))))
                     >> for_each_ (List.filter (written t) (map (tmp_name outputfile)
                          (map (fun k => k * BATCH_SIZE)
                             (seq 0 ((length C + BATCH_SIZE - 1) / BATCH_SIZE)))))
                          (fun filename => call X (RemoveFile filename))
                     >> call X (CleanupLogs outputfile)) w1).
  { unfold create_supercut_in_batches. by rewrite (bind_ok _ _ _ _ _ Hrun). }
  split; [exact Hrest|]. split.
  - intros Hjoin Hrm Hclean. rewrite Hrest.
    rewrite (bind_ok _ _ _ _ _ (call_ok X _ _ Hjoin)).
    rewrite (bind_ok _ _ _ _ _ (remove_files_run X _ _ Hrm)).
    rewrite (call_ok X _ _ Hclean), !logged_logged. done.
  - intros Hjoin. rewrite Hrest.
    apply bind_raise. unfold call. by rewrite Hjoin.
Qed.

Lemma batches_drop_failures_witness :
  (let starts := map (fun k => k * BATCH_SIZE)
                     (seq 0 ((length (seq 0 25) + BATCH_SIZE - 1) / BATCH_SIZE)) in
   exists t w1,
     let batch_comp := List.filter (written t) (map (tmp_name "supercut.mp4") starts) in
     for_each starts (batch_turn flaky_toolkit (seq 0 25) "supercut.mp4" (500 / 1000)%float)
       [] long_world = (Ok batch_comp, w1) /\
     trace w1 = trace long_world ++ t /\
     create_supercut_in_batches flaky_toolkit (seq 0 25) "supercut.mp4" (500 / 1000)%float
       long_world
     = (call flaky_toolkit (JoinFiles "supercut.mp4" batch_comp) >>
        for_each_ batch_comp (fun filename => call flaky_toolkit (RemoveFile filename)) >>
        call flaky_toolkit (CleanupLogs "supercut.mp4")) w1 /\
     (toolkit_ok flaky_toolkit (JoinFiles "supercut.mp4" batch_comp) = true ->
      (forall f, toolkit_ok flaky_toolkit (RemoveFile f) = true) ->
      toolkit_ok flaky_toolkit (CleanupLogs "supercut.mp4") = true ->
      create_supercut_in_batches flaky_toolkit (seq 0 25) "supercut.mp4" (500 / 1000)%float
        long_world
      = (Ok tt, logged w1 (Called (JoinFiles "supercut.mp4" batch_comp)
                           :: map (fun f => Called (RemoveFile f)) batch_comp
                           ++ [Called (CleanupLogs "supercut.mp4")]))) /\
     (toolkit_ok flaky_toolkit (JoinFiles "supercut.mp4" batch_comp) = false ->
      create_supercut_in_batches flaky_toolkit (seq 0 25) "supercut.mp4" (500 / 1000)%float
        long_world = (Raise ToolkitError, w1))) /\
  (let run := create_supercut_in_batches flaky_toolkit (seq 0 25) "supercut.mp4"
                (500 / 1000)%float long_world in
   run.1 = Ok tt /\
   drop (length (trace run.2) - 3) (trace run.2)
   = [Called (JoinFiles "supercut.mp4" ["supercut.mp4.tmp20.mp4"]);
      Called (RemoveFile "supercut.mp4.tmp20.mp4");
      Called (CleanupLogs "supercut.mp4")]).
Proof.
  split; [apply batches_drop_failures|].
  vm_compute. split; reflexivity.
Defined.


(** ** Words and n-grams *)

Lemma zip_cons_lookup {A} (xs : list A) rows j :
  zip_cons xs rows !! j
  = match xs !! j, rows !! j with
    | Some x, Some r => Some (x :: r)
    | _, _ => None
    end.
Proof.
  revert rows j. induction xs as [|x xs IH]; intros [|r rows] [|j]; cbn; try done;
    first [by destruct (xs !! j) | apply IH].
Qed.

Lemma windows_lookup {A} n (words : list A) j :
  windows n words !! j
  = if decide (j + n <= length words) then Some (take n (drop j words)) else None.
Proof.
  unfold windows. rewrite list_lookup_fmap.
  destruct (decide (j + n <= length words)) as [H|H].
  - rewrite lookup_seq_lt by lia. done.
  - rewrite lookup_seq_ge by lia. done.
Qed.

Lemma zip_star_drops {A} (words : list A) k n :
  zip_star (map (fun i => drop i words) (seq k (S n)))
  = map (fun j => take (S n) (drop (k + j) words)) (seq 0 (length words + 1 - (k + S n))).
Proof.
  revert k. induction n as [|n IH]; intros k.
  - cbn [seq map zip_star]. apply list_eq. intros j.
    rewrite !list_lookup_fmap, lookup_drop.
    destruct (decide (k + j < length words)) as [H|H].
    + rewrite lookup_seq_lt by lia. cbn.
      destruct (lookup_lt_is_Some_2 words (k + j) H) as [x Hx]. rewrite Hx. cbn.
      rewrite (drop_S _ _ _ Hx). done.
    + rewrite lookup_seq_ge by lia. rewrite lookup_ge_None_2 by lia. done.
  - change (seq k (S (S n))) with (k :: seq (S k) (S n)). cbn [map].
    change (zip_star (drop k words :: map (fun i => drop i words) (seq (S k) (S n))))
      with (zip_cons (drop k words) (zip_star (map (fun i => drop i words) (seq (S k) (S n))))).
    rewrite IH. apply list_eq. intros j.
    rewrite zip_cons_lookup, !list_lookup_fmap, lookup_drop.
    destruct (decide (k + j + S (S n) <= length words)) as [H|H].
    + rewrite !lookup_seq_lt by lia. cbn.
      destruct (lookup_lt_is_Some_2 words (k + j) ltac:(lia)) as [x Hx]. rewrite Hx.
      rewrite (drop_S _ _ _ Hx). cbn [take]. repeat f_equal; lia.
    + rewrite !lookup_seq_ge by lia. cbn. by destruct (words !! (k + j)).
Qed.

Lemma ngrams_windows {A} (words : list A) n :
  ngrams words n = if decide (0 < n)%Z then windows (Z.to_nat n) words else [].
Proof.
  unfold ngrams, windows. destruct (decide (0 < n)%Z) as [H|H].
  - destruct (Z.to_nat n) as [|m] eqn:Hm; [lia|].
    rewrite zip_star_drops. done.
  - replace (Z.to_nat n) with 0 by lia. done.
Qed.

Lemma words_fold (ws : list (string * Scalar * Scalar)) acc w :
  for_each ws (fun '(x, _, _) (words : list string) => ret (words ++ [x])) acc w
  = (Ok (acc ++ map (fun x : string * Scalar * Scalar => x.1.1) ws), w).
Proof.
  revert acc. induction ws as [|[[x a] b] ws IH]; intros acc; cbn [for_each map].
  - by rewrite app_nil_r.
  - erewrite bind_ok by reflexivity. rewrite IH. by rewrite <- app_assoc.
Qed.

Lemma transcript_words_fold sentences acc w :
  for_each sentences (fun '(_, ws) words =>
      for_each ws (fun '(w, _, _) words => ret (words ++ [w])) words) acc w
  = (Ok (acc ++ transcript_words sentences), w).
Proof.
  revert acc. induction sentences as [|[f ws] ss IH]; intros acc; cbn [for_each].
  - unfold transcript_words. cbn. by rewrite app_nil_r.
  - erewrite bind_ok by apply words_fold.
    rewrite IH. unfold transcript_words. cbn [map concat snd]. by rewrite <- app_assoc.
Qed.

Lemma split_words_go_nonempty skip s : split_words_go skip s <> [].
Proof.
  revert skip. induction s as [|c s IH]; intros skip; [done|].
  cbn [split_words_go]. destruct skip; [|apply IH].
  destruct (separator_match _); [|done].
  by destruct (split_words_go 0 s).
Qed.

Lemma separator_match_space : separator_match " " = 1.
Proof. reflexivity. Qed.

Lemma split_words_trailing s skip :
  List.last (split_words_go skip (s +:+ " ")) "?" = "" /\
  (skip = 0 -> 2 <= length (split_words_go skip (s +:+ " "))).
Proof.
  revert skip. induction s as [|c s IH]; intros skip.
  - destruct skip as [|k].
    + split; [reflexivity|]. intros _. change (2 <= 2). lia.
    + split; [reflexivity|discriminate].
  - cbn [String.append split_words_go]. destruct skip as [|k].
    + destruct (separator_match (String c (s +:+ " "))) as [|n].
      * destruct (IH 0) as [Hl Hn]. specialize (Hn eq_refl).
        destruct (split_words_go 0 (s +:+ " ")) as [|p [|q ps]]; cbn in Hn; [lia|lia|].
        split; [exact Hl|]. cbn. lia.
      * destruct (IH n) as [Hl _].
        pose proof (split_words_go_nonempty n (s +:+ " ")) as Hne.
        destruct (split_words_go n (s +:+ " ")) as [|p ps]; [done|].
        split; [exact Hl|]. cbn. lia.
    + destruct (IH k) as [Hl _]. split; [exact Hl|done].
Qed.

Lemma split_words_spaced text : spaced text -> List.last (split_words text) "?" = "".
Proof.
  intros [->|[t ->]]; [done|]. apply (split_words_trailing t 0).
Qed.

Lemma subtitle_text_spaced srts :
  post (fun _ => True) (subtitle_text srts) (fun text _ => spaced text).
Proof.
  unfold subtitle_text.
  eapply post_conseq;
    [apply (post_for_each _ _ (fun text (_ : World) => spaced text))|by left].
  intros srt text.
  eapply post_bind with (Q' := fun _ _ => spaced text).
  { intros w a w' H _. exact H. }
  intros [|kv lines]; [by apply post_ret|].
  apply (post_for_each _ _ (fun text (_ : World) => spaced text)). intros timespan text'.
  eapply post_bind with (Q' := fun _ _ => spaced text').
  { intros w a w' H _. exact H. }
  intros value. apply post_ret. intros _ _. right.
  exists (text' +:+ Str.strip value). by rewrite append_assoc.
Qed.

(** X23. In transcript mode [get_ngrams] returns, for a positive [n], the runs
    of [n] consecutive words of the transcript, in order: as many as there
    are words, less [n - 1]. *)
Theorem get_ngrams_transcript_windows X inputfile n use_vtt sentences w :
  (0 < n)%Z ->
  audiogrep_convert_timestamps X inputfile = Ok sentences ->
  get_ngrams X inputfile n true use_vtt w
  = (Ok (windows (Z.to_nat n) (transcript_words sentences)), w) /\
  length (windows (Z.to_nat n) (transcript_words sentences))
  = length (transcript_words sentences) + 1 - Z.to_nat n.
Proof.
  intros Hn Hs. split.
  - unfold get_ngrams. unfold bind at 1. unfold bind at 1. unfold lift at 1. rewrite Hs.
    rewrite transcript_words_fold. cbn [app]. unfold ret.
    rewrite ngrams_windows. by rewrite decide_True.
  - unfold windows. by rewrite length_map, length_seq.
Qed.

Lemma get_ngrams_transcript_windows_witness :
  get_ngrams ngram_externals ["talk.mp4"] 2 true false talk_world
  = (Ok (windows (Z.to_nat 2)
           (transcript_words [("talk.mp4.transcription.txt",
                               [("hello", SStr "0.0", SStr "0.5"); ("big", SStr "0.5", SStr "1.0");
                    ("world", SStr "1.0", SStr "1.5")])])),
     talk_world) /\
  length (windows (Z.to_nat 2)
            (transcript_words [("talk.mp4.transcription.txt",
                                [("hello", SStr "0.0", SStr "0.5"); ("big", SStr "0.5", SStr "1.0");
                    ("world", SStr "1.0", SStr "1.5")])]))
  = length (transcript_words [("talk.mp4.transcription.txt",
                               [("hello", SStr "0.0", SStr "0.5"); ("big", SStr "0.5", SStr "1.0");
                    ("world", SStr "1.0", SStr "1.5")])])
    + 1 - Z.to_nat 2.
Proof. apply get_ngrams_transcript_windows; [lia|reflexivity]. Defined.

(** X24. In subtitle mode the text that [get_ngrams] splits ends in a space as
    soon as a cue was read, so the last word is the empty string: the
    1-grams of a run always end with it. *)
Theorem get_ngrams_srt_empty_word X inputfile w grams w' :
  get_ngrams X inputfile 1 false false w = (Ok grams, w') ->
  List.last grams [] = [""].
Proof.
  unfold get_ngrams. unfold bind at 1.
  destruct (bind (get_subtitle_files inputfile) _ w) as [[words|e] w1] eqn:Hwords; [|done].
  intros [= <- <-].
  assert (List.last words "?" = "") as Hlast.
  { unfold bind in Hwords.
    destruct (get_subtitle_files inputfile w) as [[[srts|]|e] w0]; [|done|done].
    destruct (subtitle_text srts w0) as [[text|e] w2] eqn:Htext; [|done].
    injection Hwords as <- <-.
    apply split_words_spaced. by apply (subtitle_text_spaced srts w0 text w2 I). }
  rewrite ngrams_windows, decide_True by lia.
  change (Z.to_nat 1) with 1. unfold windows.
  assert (words <> []) as Hne by (intros ->; done).
  destruct (exists_last Hne) as (front & x & ->).
  rewrite List.last_last in Hlast. subst x.
  rewrite length_app. cbn [length]. replace (length front + 1 + 1 - 1) with (S (length front)) by lia.
  rewrite seq_S, map_app. cbn [map Nat.add]. rewrite List.last_last.
  rewrite drop_app_length. done.
Qed.

Lemma get_ngrams_srt_empty_word_witness :
  List.last (match get_ngrams sample_externals ["talk.mp4"] 1 false false talk_world with
             | (Ok grams, _) => grams
             | _ => []
             end) [] = [""].
Proof.
  apply (get_ngrams_srt_empty_word sample_externals ["talk.mp4"] talk_world _
           (get_ngrams sample_externals ["talk.mp4"] 1 false false talk_world).2).
  vm_compute. reflexivity.
Defined.

(** ** The dicts of [compose_from_srts] *)

Lemma post_keeps {A} (m : M A) w0 C :
  (forall w a w', m w = (Ok a, w') -> heap w' = heap w /\ files w' = files w) ->
  post (grown w0 C) m (fun _ => grown w0 C).
Proof.
  intros Hm w a w' (Hf & new & Hh & HC & Hall) Hrun.
  destruct (Hm w a w' Hrun) as [Hh' Hf'].
  split; [congruence|]. exists new. by rewrite Hh'.
Qed.

Lemma print_keeps s w a w' :
  print s w = (Ok a, w') -> heap w' = heap w /\ files w' = files w.
Proof. by intros [= <- <-]. Qed.

Lemma clean_srt_keeps srt w a w' :
  clean_srt srt w = (Ok a, w') -> heap w' = heap w /\ files w' = files w.
Proof.
  unfold clean_srt, bind, read_text, lift.
  destruct (files w !! srt) as [[content|]|]; [|done..]. by intros [= _ <-].
Qed.

Lemma find_video_grown srt w0 C :
  post (grown w0 C) (find_video srt)
       (fun r w => grown w0 C w /\ (r.2 = true -> is_Some (files w0 !! r.1))).
Proof.
  intros w [v f] w' Hg. unfold find_video. rewrite find_video_trace.
  set (pv := pick_video (files w) srt usable_extensions "").
  set (ex := existsb _ usable_extensions).
  intros [= <- <- <-]. split.
  - destruct Hg as (Hf & new & Hh & HC & Hall). split; [done|]. by exists new.
  - cbn [fst snd orb]. intros Hex. destruct Hg as [Hf _]. rewrite <- Hf.
    subst pv ex.
    destruct (pick_video_last (files w) srt usable_extensions "")
      as [[Hall _]|(b & x & a & _ & Hx & _ & ->)].
    + apply existsb_exists in Hex as (e & He%list_elem_of_In & Hp).
      rewrite Forall_forall in Hall. by rewrite (Hall e He) in Hp.
    + unfold present in Hx. by apply bool_decide_eq_true in Hx.
Qed.

Lemma search_cue_grown X videofile lines search searchtype timespan st w0 :
  is_Some (files w0 !! videofile) ->
  post (grown w0 (composition st))
       (search_cue X videofile lines search searchtype timespan st)
       (fun st' => grown w0 (composition st')).
Proof.
  intros Hv w st' w' (Hf & new & Hh & HC & Hall).
  unfold search_cue, bind, lift, alloc, ret.
  destruct (of_option _ _) as [text|]; [|done].
  destruct (search_line _ _ _ _) as [hit|]; [|done].
  destruct (truth hit).
  - destruct (convert_timespan timespan) as [[s e]|] eqn:Hts; [|done].
    intros [= <- <-]. cbn [composition heap files]. split; [done|].
    exists (new ++ [mkSegment videofile (Some timespan) s e (Str.strip text) None]). split.
    { by rewrite Hh, app_assoc. }
    split.
    { rewrite HC, Hh, !length_app, seq_app. cbn [length seq]. do 2 f_equal. }
    apply Forall_app. split; [done|]. apply Forall_singleton.
    exists timespan. cbn. split; [done|]. split; [done|]. split; [apply strip_idemp|done].
  - intros [= <- <-]. split; [done|]. by exists new.
Qed.

(** X25. When [compose_from_srts] returns, its composition lists, in the order
    in which they were found, exactly the dicts it has added to the store;
    each carries the start and end of its own timespan, a stripped line, and
    the name of a video file that exists.  The files are as before. *)
Theorem compose_from_srts_segments X srts search searchtype w C w' :
  compose_from_srts X srts search searchtype w = (Ok C, w') ->
  files w' = files w /\
  exists new,
    heap w' = heap w ++ new /\
    C = seq (length (heap w)) (length new) /\
    Forall (cue_segment (files w)) new.
Proof.
  assert (H : post (grown w []) (compose_from_srts X srts search searchtype)
                   (fun C w' => grown w C w')).
  2:{ intros Hrun. apply (H w C w'); [|exact Hrun].
      split; [done|]. exists []. rewrite app_nil_r. by split. }
  unfold compose_from_srts. destruct srts as [srts|]; [|by intros ???? [=]].
  eapply post_bind with (Q' := fun st w' => grown w (composition st) w').
  2:{ intros st. by apply post_ret. }
  eapply post_conseq;
    [apply (post_for_each _ _ (fun st w' => grown w (composition st) w'))|].
  2:{ intros w0 Hg. exact Hg. }
  intros srt st.
  eapply post_bind; [apply post_keeps, print_keeps|]. intros [].
  eapply post_bind; [apply post_keeps, clean_srt_keeps|]. intros lines.
  eapply post_bind; [apply post_keeps, print_keeps|]. intros [].
  eapply post_bind; [apply find_video_grown|].
  intros [videofile []]; cbn [fst snd].
  - destruct lines as [|kv lines].
    + eapply post_bind.
      { eapply post_conseq; [apply post_keeps, print_keeps|]. by intros w0 [Hg _]. }
      intros []. by apply post_ret.
    + intros w0 st' w1 [Hg Hv]. specialize (Hv eq_refl). revert w0 st' w1 Hg.
      change (post (grown w (composition st))
                (let! st0 := search_cues X videofile (kv :: lines) search searchtype st in
                 (if foundSearchTerm st0 then ret tt
                  else print ("[!] Search term '" +:+ search +:+ "'"
                              +:+ " was not found is subtitle file '" +:+ srt +:+ "'."))
                 >> ret st0)
                (fun st' w' => grown w (composition st') w')).
      eapply post_bind.
      { apply (post_for_each _ _ (fun st w' => grown w (composition st) w')).
        intros timespan st'. by apply search_cue_grown. }
      intros st'.
      eapply post_bind with (Q' := fun _ w' => grown w (composition st') w').
      * destruct (foundSearchTerm st'); [by apply post_ret|apply post_keeps, print_keeps].
      * intros []. by apply post_ret.
  - eapply post_bind.
    { eapply post_conseq; [apply post_keeps, print_keeps|]. by intros w0 [Hg _]. }
    intros [].
    eapply post_bind; [apply post_keeps, print_keeps|]. intros [].
    eapply post_bind; [apply post_keeps, print_keeps|]. intros [].
    by apply post_ret.
Qed.

Lemma compose_from_srts_segments_witness :
  files (compose_from_srts sample_externals (Some ["talk.srt"]) "hello" "re" talk_world).2
  = files talk_world /\
  exists new,
    heap (compose_from_srts sample_externals (Some ["talk.srt"]) "hello" "re" talk_world).2
    = heap talk_world ++ new /\
    [0; 1] = seq (length (heap talk_world)) (length new) /\
    Forall (cue_segment (files talk_world)) new.
Proof.
  apply (compose_from_srts_segments sample_externals (Some ["talk.srt"]) "hello" "re"
           talk_world [0; 1]).
  vm_compute. reflexivity.
Defined.

(** ** Durations for the timeline *)






